(** * HASH_CHAT: the session protocol and message log of [src/App.tsx]

    A shallow embedding of the [App] component of the chat client: the React
    state and refs of the component become one record [Node]; every handler
    of [App.tsx] becomes a function on [Node]; the peer-to-peer transport
    (PeerJS) is the environment.  Calls into the transport are appended to
    the field [wire]; its callbacks ([open], [connection], [data], [close],
    [error]) arrive as events.  One event is one handler run followed by the
    render and the effects it triggers ([commit]); events are processed one
    at a time, to completion.  What the transport does in answer to a call
    (a [close] callback after [destroy()] or [close()], say) is an event of
    its own, not part of the call.

    [Math.random], [Date.now] and [URL.createObjectURL] are read from an
    environment record [Env], indexed by the number of draws made so far. *)

From Stdlib Require Import String Ascii List Bool Arith ZArith Lia.
Import ListNotations.
Open Scope string_scope.
Open Scope list_scope.

(** ** types.ts *)

Inductive Sender := local | remote | system.

Inductive MessageType := text | file.

Inductive MessageStatus := sending | sent | delivered.

Inductive ConnectionStatus :=
  OFFLINE | IDLE | INITIALIZING | READY | CONNECTING | CONNECTED | ERROR.

Inductive LogType := info | success | warning | error.

Record FileMeta := MkFileMeta {
  meta_name : string;
  meta_size : Z;
  meta_mimeType : string;
  meta_blobUrl : option string
}.

Record ReplyContext := MkReplyContext {
  reply_id : string;
  reply_sender : Sender;
  reply_content : string
}.

(** Optional fields ([senderId?], [file?], [status?], ...) are [option]s:
    [None] is the absent (undefined) field. *)
Record Message := MkMessage {
  msg_id : string;
  msg_sender : Sender;
  msg_senderId : option string;
  msg_content : string;
  msg_timestamp : Z;
  msg_type : MessageType;
  msg_file : option FileMeta;
  msg_status : option MessageStatus;
  msg_replyTo : option ReplyContext;
  msg_isEdited : option bool;
  msg_isDeleted : option bool
}.

Record LogEntry := MkLogEntry {
  log_id : string;
  log_message : string;
  log_timestamp : Z;
  log_type : LogType
}.

Definition status_eqb (a b : ConnectionStatus) : bool :=
  match a, b with
  | OFFLINE, OFFLINE | IDLE, IDLE | INITIALIZING, INITIALIZING
  | READY, READY | CONNECTING, CONNECTING | CONNECTED, CONNECTED
  | ERROR, ERROR => true
  | _, _ => false
  end.

(** ** constants.ts *)

Module SYSTEM_MESSAGES.
Definition BOOT := "NET_RUNNER v2.4.1 initialized...".
Definition PEER_INIT := "Generating cryptographic identity...".
Definition READY := "Secure node established. Awaiting link coordinates.".
Definition CONNECTED := "Uplink established. Channel secure.".
Definition DISCONNECTED := "Carrier signal lost.".
End SYSTEM_MESSAGES.

(** ** The transport, seen from the component *)

(** A [Peer] object made by [new Peer(desiredId)]; [peer_serial] is the
    object's identity. *)
Record Peer := MkPeer {
  peer_serial : nat;
  peer_desired : string
}.

(** A [DataConnection] object; [conn_serial] is the object's identity and
    [conn_peer] its [peer] property. *)
Record DataConnection := MkConn {
  conn_serial : nat;
  conn_peer : string
}.

(** The browser [File] handed to [sendFile]. *)
Record File := MkFile {
  file_name : string;
  file_size : Z;
  file_type : string;
  file_bytes : list nat
}.

(** What travels over a channel: the objects given to [conn.send] and
    received by the [data] handler, by their [type] tag.  [Other] is any
    value the [data] handler does not recognise (a falsy value or an
    unknown tag). *)
Inductive Payload :=
| PTyping (isTyping : bool)
| PAck (messageId : string)
| PEdit (messageId content : string)
| PDelete (messageId : string)
| PText (content : string) (replyTo : option ReplyContext)
| PFile (id : string) (bytes : list nat) (name : string) (size : Z)
        (mimeType : string)
| POther.

(** Calls made on transport objects. *)
Inductive Command :=
| NewPeer (p : Peer)
| PeerDestroy (p : Peer)
| PeerConnect (p : Peer) (targetId : string)
| ConnSend (c : DataConnection) (data : Payload)
| ConnClose (c : DataConnection).

(** ** Component state *)

(** The [useState] cells and [useRef] cells of [App], then what the
    environment holds on the component's behalf: [storage] is
    [localStorage[STORAGE_KEY_ID]]; [cleanupPeer] the peer captured by the
    pending cleanup of the registration effect; [wired] the connections on
    which [setupConnection] has installed handlers; [urlTimer] the pending
    [setTimeout] of the URL effect (target, and the [peerId] its closure
    captured); [wire] the transport calls made so far; [ticks] the number
    of draws from the environment; [peerSerial] the number of [Peer]
    objects made.  The presentation cells [isFullscreen] and
    [showMobileLogs] are left out. *)
Record Node := MkNode {
  isSystemOn : bool;
  status : ConnectionStatus;
  isRemoteTyping : bool;
  desiredId : string;
  peerId : string;
  messages : list Message;
  logs : list LogEntry;
  peerRef : option Peer;
  connRef : option DataConnection;
  urlParamsProcessed : bool;
  statusRef : ConnectionStatus;
  storage : option string;
  cleanupPeer : option Peer;
  wired : list DataConnection;
  urlTimer : option (string * string);
  wire : list Command;
  ticks : nat;
  peerSerial : nat
}.

Definition set_isSystemOn (v : bool) (s : Node) : Node :=
  MkNode v (status s) (isRemoteTyping s) (desiredId s) (peerId s)
    (messages s) (logs s) (peerRef s) (connRef s) (urlParamsProcessed s)
    (statusRef s) (storage s) (cleanupPeer s) (wired s) (urlTimer s)
    (wire s) (ticks s) (peerSerial s).

Definition set_status (v : ConnectionStatus) (s : Node) : Node :=
  MkNode (isSystemOn s) v (isRemoteTyping s) (desiredId s) (peerId s)
    (messages s) (logs s) (peerRef s) (connRef s) (urlParamsProcessed s)
    (statusRef s) (storage s) (cleanupPeer s) (wired s) (urlTimer s)
    (wire s) (ticks s) (peerSerial s).

Definition set_isRemoteTyping (v : bool) (s : Node) : Node :=
  MkNode (isSystemOn s) (status s) v (desiredId s) (peerId s) (messages s)
    (logs s) (peerRef s) (connRef s) (urlParamsProcessed s) (statusRef s)
    (storage s) (cleanupPeer s) (wired s) (urlTimer s) (wire s) (ticks s)
    (peerSerial s).

Definition set_desiredId (v : string) (s : Node) : Node :=
  MkNode (isSystemOn s) (status s) (isRemoteTyping s) v (peerId s)
    (messages s) (logs s) (peerRef s) (connRef s) (urlParamsProcessed s)
    (statusRef s) (storage s) (cleanupPeer s) (wired s) (urlTimer s)
    (wire s) (ticks s) (peerSerial s).

Definition set_peerId (v : string) (s : Node) : Node :=
  MkNode (isSystemOn s) (status s) (isRemoteTyping s) (desiredId s) v
    (messages s) (logs s) (peerRef s) (connRef s) (urlParamsProcessed s)
    (statusRef s) (storage s) (cleanupPeer s) (wired s) (urlTimer s)
    (wire s) (ticks s) (peerSerial s).

Definition set_messages (v : list Message) (s : Node) : Node :=
  MkNode (isSystemOn s) (status s) (isRemoteTyping s) (desiredId s)
    (peerId s) v (logs s) (peerRef s) (connRef s) (urlParamsProcessed s)
    (statusRef s) (storage s) (cleanupPeer s) (wired s) (urlTimer s)
    (wire s) (ticks s) (peerSerial s).

Definition set_logs (v : list LogEntry) (s : Node) : Node :=
  MkNode (isSystemOn s) (status s) (isRemoteTyping s) (desiredId s)
    (peerId s) (messages s) v (peerRef s) (connRef s)
    (urlParamsProcessed s) (statusRef s) (storage s) (cleanupPeer s)
    (wired s) (urlTimer s) (wire s) (ticks s) (peerSerial s).

Definition set_peerRef (v : option Peer) (s : Node) : Node :=
  MkNode (isSystemOn s) (status s) (isRemoteTyping s) (desiredId s)
    (peerId s) (messages s) (logs s) v (connRef s) (urlParamsProcessed s)
    (statusRef s) (storage s) (cleanupPeer s) (wired s) (urlTimer s)
    (wire s) (ticks s) (peerSerial s).

Definition set_connRef (v : option DataConnection) (s : Node) : Node :=
  MkNode (isSystemOn s) (status s) (isRemoteTyping s) (desiredId s)
    (peerId s) (messages s) (logs s) (peerRef s) v (urlParamsProcessed s)
    (statusRef s) (storage s) (cleanupPeer s) (wired s) (urlTimer s)
    (wire s) (ticks s) (peerSerial s).

Definition set_urlParamsProcessed (v : bool) (s : Node) : Node :=
  MkNode (isSystemOn s) (status s) (isRemoteTyping s) (desiredId s)
    (peerId s) (messages s) (logs s) (peerRef s) (connRef s) v
    (statusRef s) (storage s) (cleanupPeer s) (wired s) (urlTimer s)
    (wire s) (ticks s) (peerSerial s).

Definition set_statusRef (v : ConnectionStatus) (s : Node) : Node :=
  MkNode (isSystemOn s) (status s) (isRemoteTyping s) (desiredId s)
    (peerId s) (messages s) (logs s) (peerRef s) (connRef s)
    (urlParamsProcessed s) v (storage s) (cleanupPeer s) (wired s)
    (urlTimer s) (wire s) (ticks s) (peerSerial s).

Definition set_storage (v : option string) (s : Node) : Node :=
  MkNode (isSystemOn s) (status s) (isRemoteTyping s) (desiredId s)
    (peerId s) (messages s) (logs s) (peerRef s) (connRef s)
    (urlParamsProcessed s) (statusRef s) v (cleanupPeer s) (wired s)
    (urlTimer s) (wire s) (ticks s) (peerSerial s).

Definition set_cleanupPeer (v : option Peer) (s : Node) : Node :=
  MkNode (isSystemOn s) (status s) (isRemoteTyping s) (desiredId s)
    (peerId s) (messages s) (logs s) (peerRef s) (connRef s)
    (urlParamsProcessed s) (statusRef s) (storage s) v (wired s)
    (urlTimer s) (wire s) (ticks s) (peerSerial s).

Definition set_wired (v : list DataConnection) (s : Node) : Node :=
  MkNode (isSystemOn s) (status s) (isRemoteTyping s) (desiredId s)
    (peerId s) (messages s) (logs s) (peerRef s) (connRef s)
    (urlParamsProcessed s) (statusRef s) (storage s) (cleanupPeer s) v
    (urlTimer s) (wire s) (ticks s) (peerSerial s).

Definition set_urlTimer (v : option (string * string)) (s : Node) : Node :=
  MkNode (isSystemOn s) (status s) (isRemoteTyping s) (desiredId s)
    (peerId s) (messages s) (logs s) (peerRef s) (connRef s)
    (urlParamsProcessed s) (statusRef s) (storage s) (cleanupPeer s)
    (wired s) v (wire s) (ticks s) (peerSerial s).

Definition set_wire (v : list Command) (s : Node) : Node :=
  MkNode (isSystemOn s) (status s) (isRemoteTyping s) (desiredId s)
    (peerId s) (messages s) (logs s) (peerRef s) (connRef s)
    (urlParamsProcessed s) (statusRef s) (storage s) (cleanupPeer s)
    (wired s) (urlTimer s) v (ticks s) (peerSerial s).

Definition set_ticks (v : nat) (s : Node) : Node :=
  MkNode (isSystemOn s) (status s) (isRemoteTyping s) (desiredId s)
    (peerId s) (messages s) (logs s) (peerRef s) (connRef s)
    (urlParamsProcessed s) (statusRef s) (storage s) (cleanupPeer s)
    (wired s) (urlTimer s) (wire s) v (peerSerial s).

Definition set_peerSerial (v : nat) (s : Node) : Node :=
  MkNode (isSystemOn s) (status s) (isRemoteTyping s) (desiredId s)
    (peerId s) (messages s) (logs s) (peerRef s) (connRef s)
    (urlParamsProcessed s) (statusRef s) (storage s) (cleanupPeer s)
    (wired s) (urlTimer s) (wire s) (ticks s) v.


(** ** The environment *)

(** [random36 k] is the string [Math.random().toString(36)] of draw [k];
    [now k] is [Date.now()] and [objectUrl k] is [URL.createObjectURL(..)]
    at draw [k]; [kilobytes n] is [(n / 1024).toFixed(1)]; [urlConnect] is
    the [connect] parameter of [window.location.search]. *)
Record Env := MkEnv {
  random36 : nat -> string;
  now : nat -> Z;
  objectUrl : nat -> string;
  kilobytes : Z -> string;
  urlConnect : option string
}.

(** [s.substring(n)] *)
Definition substring_from (n : nat) (s : string) : string :=
  substring n (String.length s) s.

Definition upper_ascii (c : ascii) : ascii :=
  let n := nat_of_ascii c in
  if ((97 <=? n) && (n <=? 122))%nat then ascii_of_nat (n - 32) else c.

(** [s.toUpperCase()], on the alphabet of [toString(36)]. *)
Fixpoint toUpperCase (s : string) : string :=
  match s with
  | EmptyString => EmptyString
  | String c r => String (upper_ascii c) (toUpperCase r)
  end.

(** A JS string in a condition: the empty string is falsy. *)
Definition truthy (s : string) : bool := negb (String.eqb s EmptyString).

(** The double-quote character of the collision message. *)
Definition dquote : ascii := ascii_of_nat 34.

Definition conn_same (a b : DataConnection) : bool :=
  Nat.eqb (conn_serial a) (conn_serial b).

Definition is_wired (c : DataConnection) (s : Node) : bool :=
  existsb (conn_same c) (wired s).

Definition emit (c : Command) (s : Node) : Node :=
  set_wire (wire s ++ [c]) s.

(** Events: what the user does, and what the transport calls back.  The
    outcome of [peerRef.current.connect(targetId)] is part of the event that
    makes the call.  A user event runs the handler of the current render.
    [UiTypingLate rendered isTyping] is a call of a [handleTyping] made by
    an earlier render, whose [status] was [rendered]: the composer's typing
    timer keeps the [onTyping] it was armed with and calls it 1.5 s
    later. *)
Inductive ConnectOutcome :=
| Returned (conn : DataConnection)
| Threw (message : string).

Inductive Event :=
| UiConnect (targetId : string) (outcome : ConnectOutcome)
| UiDisconnect
| UiIdentityChange (newId : string)
| UiTogglePower
| UiTyping (isTyping : bool)
| UiTypingLate (rendered : ConnectionStatus) (isTyping : bool)
| UiSendMessage (content : string) (replyTo : option ReplyContext)
| UiEditMessage (id newContent : string)
| UiDeleteMessage (id : string)
| UiSendFile (f : File)
| UiClearLogs
| UiClearChat
| UrlTimerFire (outcome : ConnectOutcome)
| PeerOpen (id : string)
| PeerConnection (conn : DataConnection)
| PeerError (p : Peer) (errType message : string)
| ConnOpen (conn : DataConnection)
| ConnData (conn : DataConnection) (data : Payload)
| ConnClosed (conn : DataConnection)
| ConnError (conn : DataConnection) (message : string).

Section App.

Variable E : Env.

(** [Math.random().toString(36).substring(7)] at the current draw. *)
Definition freshId (s : Node) : string :=
  substring_from 7 (random36 E (ticks s)).

Definition tick (s : Node) : Node := set_ticks (S (ticks s)) s.

(** [generateShortId] *)
Definition generateShortId (k : nat) : string :=
  toUpperCase (substring 2 6 (random36 E k)).

Definition addLog (message : string) (type : LogType) (s : Node) : Node :=
  tick (set_logs (logs s ++ [MkLogEntry (freshId s) message
                                        (now E (ticks s)) type]) s).

Definition addSystemMessage (content : string) (s : Node) : Node :=
  tick (set_messages
          (messages s ++ [MkMessage (freshId s) system None content
                                    (now E (ticks s)) text None None None
                                    None None]) s).

Definition clearLogs (s : Node) : Node :=
  addLog "System logs purged." warning (set_logs [] s).

Definition clearChat (s : Node) : Node :=
  addLog "Message buffer cleared." warning (set_messages [] s).

(** The three in-place updates of the [data] handler; [handleEditMessage]
    and [handleDeleteMessage] use the last two on the local side. *)
Definition markDelivered (messageId : string) (msg : Message) : Message :=
  if String.eqb (msg_id msg) messageId then
    MkMessage (msg_id msg) (msg_sender msg) (msg_senderId msg)
              (msg_content msg) (msg_timestamp msg) (msg_type msg)
              (msg_file msg) (Some delivered) (msg_replyTo msg)
              (msg_isEdited msg) (msg_isDeleted msg)
  else msg.

Definition markEdited (messageId content : string) (msg : Message)
  : Message :=
  if String.eqb (msg_id msg) messageId then
    MkMessage (msg_id msg) (msg_sender msg) (msg_senderId msg)
              content (msg_timestamp msg) (msg_type msg)
              (msg_file msg) (msg_status msg) (msg_replyTo msg)
              (Some true) (msg_isDeleted msg)
  else msg.

Definition markDeleted (messageId : string) (msg : Message) : Message :=
  if String.eqb (msg_id msg) messageId then
    MkMessage (msg_id msg) (msg_sender msg) (msg_senderId msg)
              (msg_content msg) (msg_timestamp msg) (msg_type msg)
              (msg_file msg) (msg_status msg) (msg_replyTo msg)
              (msg_isEdited msg) (Some true)
  else msg.

(** [setupConnection(conn)]: takes the handle and installs the four
    handlers below on [conn]. *)
Definition setupConnection (conn : DataConnection) (s : Node) : Node :=
  set_wired (conn :: wired s) (set_connRef (Some conn) s).

Definition onConnOpen (conn : DataConnection) (s : Node) : Node :=
  addSystemMessage
    ("Encrypted connection established with " ++ conn_peer conn)
    (addLog SYSTEM_MESSAGES.CONNECTED success (set_status CONNECTED s)).

Definition onConnData (conn : DataConnection) (data : Payload) (s : Node)
  : Node :=
  match data with
  | PTyping isTyping => set_isRemoteTyping isTyping s
  | PAck messageId =>
      set_messages (map (markDelivered messageId) (messages s)) s
  | PEdit messageId content =>
      set_messages (map (markEdited messageId content) (messages s)) s
  | PDelete messageId =>
      set_messages (map (markDeleted messageId) (messages s)) s
  | PText content replyTo =>
      let s1 := set_isRemoteTyping false s in
      tick (set_messages
              (messages s1 ++ [MkMessage (freshId s1) remote
                                 (Some (conn_peer conn)) content
                                 (now E (ticks s1)) text None None replyTo
                                 None None]) s1)
  | PFile id bytes name size mimeType =>
      let s1 := set_isRemoteTyping false s in
      let blobUrl := objectUrl E (ticks s1) in
      let s2 :=
        tick (set_messages
                (messages s1 ++ [MkMessage (freshId s1) remote
                                   (Some (conn_peer conn))
                                   ("Received file: " ++ name)
                                   (now E (ticks s1)) file
                                   (Some (MkFileMeta name size mimeType
                                                     (Some blobUrl)))
                                   None None None None]) s1) in
      let s3 := addLog ("Received file packet: " ++ name) success s2 in
      emit (ConnSend conn (PAck id)) s3
  | POther => s
  end.

Definition onConnClose (s : Node) : Node :=
  addSystemMessage "Remote peer terminated connection."
    (addLog SYSTEM_MESSAGES.DISCONNECTED warning
       (set_isRemoteTyping false
          (set_connRef None (set_status READY s)))).

Definition onConnError (message : string) (s : Node) : Node :=
  set_isRemoteTyping false
    (set_status READY
       (addLog ("Connection error: " ++ message) error s)).

(** [connectToPeer(targetId)]; [self] is the [peerId] its closure holds. *)
Definition connectToPeer (self targetId : string)
           (outcome : ConnectOutcome) (s : Node) : Node :=
  match peerRef s with
  | None => s
  | Some peer =>
      if status_eqb (statusRef s) CONNECTED then
        addLog "Already connected. Terminate current link first." warning s
      else if String.eqb targetId self then
        addLog "Cannot connect to self. Targeting external node required."
               error s
      else
        let s1 := addLog ("Initiating handshake with " ++ targetId ++ "...")
                         info s in
        let s2 := set_status CONNECTING s1 in
        let s3 := emit (PeerConnect peer targetId) s2 in
        match outcome with
        | Returned conn => setupConnection conn s3
        | Threw message =>
            set_status READY
              (addLog ("Handshake failed: " ++ message) error s3)
        end
  end.

Definition handleIdentityChange (newId : string) (s : Node) : Node :=
  if String.eqb newId (peerId s) then s
  else
    set_desiredId newId
      (set_storage (Some newId)
         (addLog ("Re-initializing node with new identity: " ++ newId)
                 info s)).

Definition togglePower (s : Node) : Node :=
  if isSystemOn s then
    let s1 := set_peerId EmptyString
                (set_status OFFLINE (set_isSystemOn false s)) in
    let s2 := match peerRef s1 with
              | Some p => set_peerRef None (emit (PeerDestroy p) s1)
              | None => s1
              end in
    addSystemMessage "System offline."
      (addLog "SYSTEM SHUTDOWN SEQUENCE INITIATED..." warning
         (set_connRef None s2))
  else
    addLog "SYSTEM BOOT SEQUENCE INITIATED..." success
      (set_isSystemOn true s).

(** [handleTyping] is made anew at every render and reads the [status] of
    the render that made it, [rendered]; [connRef.current] is read when it
    is called. *)
Definition handleTyping (rendered : ConnectionStatus) (isTyping : bool)
           (s : Node) : Node :=
  match connRef s with
  | Some conn =>
      if status_eqb rendered CONNECTED
      then emit (ConnSend conn (PTyping isTyping)) s
      else s
  | None => s
  end.

(** The handlers the registration effect installs on the [Peer]. *)
Definition onPeerOpen (id : string) (s : Node) : Node :=
  addLog ("Identity confirmed: " ++ id) success
    (set_status READY (set_peerId id s)).

Definition onPeerConnection (conn : DataConnection) (s : Node) : Node :=
  match connRef s with
  | Some _ =>
      addLog "Rejected concurrent connection attempt" warning
        (emit (ConnClose conn) s)
  | None =>
      addLog ("Incoming handshake from: " ++ conn_peer conn) warning
        (setupConnection conn s)
  end.

(** [p] is the peer the handler was installed on: its closure holds that
    peer's [desiredId]. *)
Definition onPeerError (p : Peer) (errType message : string) (s : Node)
  : Node :=
  let s1 :=
    if String.eqb errType "unavailable-id" then
      addLog ("ID Collision: " ++ String dquote (peer_desired p)
                ++ String dquote " is already in use.") error s
    else
      addLog ("PROTOCOL ERROR: "
                ++ (if truthy message then message else "Unknown error"))
             error s in
  set_status ERROR s1.

Definition sendMessage (content : string) (replyTo : option ReplyContext)
           (s : Node) : Node :=
  match connRef s with
  | Some conn =>
      if status_eqb (status s) CONNECTED then
        let s1 := emit (ConnSend conn (PText content replyTo)) s in
        tick (set_messages
                (messages s1 ++ [MkMessage (freshId s1) local
                                   (Some (peerId s1)) content
                                   (now E (ticks s1)) text None
                                   (Some sent) replyTo None None]) s1)
      else addLog "Cannot send: No active uplink." error s
  | None => addLog "Cannot send: No active uplink." error s
  end.

Definition handleEditMessage (id newContent : string) (s : Node) : Node :=
  match connRef s with
  | Some conn =>
      if status_eqb (status s) CONNECTED then
        let s1 := emit (ConnSend conn (PEdit id newContent)) s in
        set_messages (map (markEdited id newContent) (messages s1)) s1
      else s
  | None => s
  end.

Definition handleDeleteMessage (id : string) (s : Node) : Node :=
  match connRef s with
  | Some conn =>
      if status_eqb (status s) CONNECTED then
        let s1 := emit (ConnSend conn (PDelete id)) s in
        set_messages (map (markDeleted id) (messages s1)) s1
      else s
  | None => s
  end.

Definition sendFile (f : File) (s : Node) : Node :=
  match connRef s with
  | Some conn =>
      if status_eqb (status s) CONNECTED then
        let s1 := addLog ("Initiating file transfer: " ++ file_name f
                            ++ " (" ++ kilobytes E (file_size f)
                            ++ "KB)...") info s in
        let msgId := freshId s1 in
        let s2 := emit (ConnSend conn
                          (PFile msgId (file_bytes f) (file_name f)
                                 (file_size f) (file_type f))) s1 in
        let blobUrl := objectUrl E (ticks s2) in
        tick (set_messages
                (messages s2 ++ [MkMessage msgId local (Some (peerId s2))
                                   ("Sending file: " ++ file_name f)
                                   (now E (ticks s2)) file
                                   (Some (MkFileMeta (file_name f)
                                            (file_size f) (file_type f)
                                            (Some blobUrl)))
                                   (Some sending) None None None]) s2)
      else addLog "Cannot send: No active uplink." error s
  | None => addLog "Cannot send: No active uplink." error s
  end.

Definition disconnect (s : Node) : Node :=
  match connRef s with
  | Some conn =>
      addLog "Manual disconnect initiated." info
        (set_isRemoteTyping false
           (set_status READY
              (set_connRef None (emit (ConnClose conn) s))))
  | None => s
  end.

(** The handler run of one event.  Transport callbacks of a connection
    reach the component only if [setupConnection] installed handlers on
    it. *)
Definition handle (e : Event) (s : Node) : Node :=
  match e with
  | UiConnect targetId outcome =>
      connectToPeer (peerId s) targetId outcome s
  | UiDisconnect => disconnect s
  | UiIdentityChange newId => handleIdentityChange newId s
  | UiTogglePower => togglePower s
  | UiTyping isTyping => handleTyping (status s) isTyping s
  | UiTypingLate rendered isTyping => handleTyping rendered isTyping s
  | UiSendMessage content replyTo => sendMessage content replyTo s
  | UiEditMessage id newContent => handleEditMessage id newContent s
  | UiDeleteMessage id => handleDeleteMessage id s
  | UiSendFile f => sendFile f s
  | UiClearLogs => clearLogs s
  | UiClearChat => clearChat s
  | UrlTimerFire outcome =>
      match urlTimer s with
      | Some (targetId, self) =>
          connectToPeer self targetId outcome (set_urlTimer None s)
      | None => s
      end
  | PeerOpen id => onPeerOpen id s
  | PeerConnection conn => onPeerConnection conn s
  | PeerError p errType message => onPeerError p errType message s
  | ConnOpen conn => if is_wired conn s then onConnOpen conn s else s
  | ConnData conn data =>
      if is_wired conn s then onConnData conn data s else s
  | ConnClosed conn => if is_wired conn s then onConnClose s else s
  | ConnError conn message =>
      if is_wired conn s then onConnError message s else s
  end.

(** *** Effects *)

(** The registration effect (deps [desiredId], [isSystemOn]): the cleanup
    of its previous run, then its body. *)
Definition registrationEffect (s : Node) : Node :=
  let s0 := match cleanupPeer s with
            | Some p => emit (PeerDestroy p) s
            | None => s
            end in
  if negb (isSystemOn s0) then set_cleanupPeer None s0
  else
    let s1 := match peerRef s0 with
              | Some p => emit (PeerDestroy p) s0
              | None => s0
              end in
    let s2 := addLog SYSTEM_MESSAGES.PEER_INIT info
                (set_isRemoteTyping false
                   (set_peerId EmptyString (set_status INITIALIZING s1))) in
    let peer := MkPeer (peerSerial s2) (desiredId s2) in
    set_peerSerial (S (peerSerial s2))
      (set_cleanupPeer (Some peer)
         (set_peerRef (Some peer) (emit (NewPeer peer) s2))).

(** The URL effect (deps [status], [connectToPeer], that is [peerId]);
    [st] and [self] are the [status] and [peerId] of the render the effect
    belongs to. *)
Definition urlEffect (st : ConnectionStatus) (self : string) (s : Node)
  : Node :=
  if status_eqb st READY && negb (urlParamsProcessed s) then
    match urlConnect E with
    | Some targetParam =>
        if truthy targetParam then
          set_urlTimer (Some (targetParam, self))
            (addLog ("Found target coordinates in URL: " ++ targetParam)
                    info (set_urlParamsProcessed true s))
        else s
    | None => s
    end
  else s.

(** The [statusRef] effect (dep [status]). *)
Definition syncStatusRef (st : ConnectionStatus) (s : Node) : Node :=
  set_statusRef st s.

(** Render and effects after a handler run: [prev] is the state of the
    previous render, [s] the state being rendered.  Effects run in the
    order of their declaration, each only if one of its deps changed.
    The registration effect sets state, which renders once more: in that
    second render only [status] and [peerId] can have changed, and the
    status is then [INITIALIZING], on which the URL effect does
    nothing. *)
Definition commit (prev s : Node) : Node :=
  let statusChanged := negb (status_eqb (status prev) (status s)) in
  let idChanged := negb (String.eqb (peerId prev) (peerId s)) in
  let regChanged :=
    negb (String.eqb (desiredId prev) (desiredId s))
    || negb (Bool.eqb (isSystemOn prev) (isSystemOn s)) in
  let s1 := if statusChanged then syncStatusRef (status s) s else s in
  let s2 := if regChanged then registrationEffect s1 else s1 in
  let s3 := if statusChanged || idChanged
            then urlEffect (status s) (peerId s) s2 else s2 in
  if negb (status_eqb (status s) (status s3))
  then syncStatusRef (status s3) s3 else s3.

Definition step (e : Event) (s : Node) : Node := commit s (handle e s).

Fixpoint run (es : list Event) (s : Node) : Node :=
  match es with
  | [] => s
  | e :: es' => run es' (step e s)
  end.

(** The state of the first render ([stored] is what [localStorage] holds
    for the identity), and the state after the effects of the mount. *)
Definition initial (stored : option string) : Node :=
  let kept := match stored with
              | Some v => if truthy v then Some v else None
              | None => None
              end in
  let made := generateShortId 0 in
  MkNode true INITIALIZING false
         (match kept with Some v => v | None => made end) EmptyString
         [] [] None None false INITIALIZING
         (match kept with Some _ => stored | None => Some made end)
         None [] None []
         (match kept with Some _ => 0 | None => 1 end) 0.

(** The effects of the mount: every effect runs once, then the render the
    registration effect asks for. *)
Definition mountEffects (s : Node) : Node :=
  let s1 := syncStatusRef (status s) s in
  let s2 := registrationEffect s1 in
  let s3 := urlEffect (status s) (peerId s) s2 in
  if negb (status_eqb (status s) (status s3))
  then syncStatusRef (status s3) s3 else s3.

Definition mount (stored : option string) : Node :=
  mountEffects (initial stored).

End App.

(** * Properties *)

(** A concrete environment and a few transport objects, for the closed
    examples below. *)
Definition letter (k : nat) : string :=
  String (ascii_of_nat (97 + k)) EmptyString.

Definition demoEnv : Env :=
  MkEnv (fun k => String.append "0.abcde" (String.append (letter k) "z"))
        (fun k => Z.of_nat k)
        (fun k => String.append "blob:" (letter k))
        (fun _ => "1.0")
        None.

Definition connBob : DataConnection := MkConn 1 "BOB".
Definition connEve : DataConnection := MkConn 2 "EVE".

(** Alice: registered as ALICE, then linked to BOB over [connBob]. *)
Definition aliceBooted : Node := mount demoEnv (Some "ALICE").

Definition aliceReady : Node := step demoEnv (PeerOpen "ALICE") aliceBooted.

Definition aliceLinked : Node :=
  run demoEnv [UiConnect "BOB" (Returned connBob); ConnOpen connBob]
      aliceReady.

(** ** Vocabulary of the statements *)

Definition hasId (messageId : string) (l : list Message) : bool :=
  existsb (fun m => String.eqb (msg_id m) messageId) l.

(** The message id an inbound [ack], [edit] or [delete] refers to. *)
Definition mutationTarget (e : Event) : option string :=
  match e with
  | ConnData _ (PAck messageId) => Some messageId
  | ConnData _ (PEdit messageId _) => Some messageId
  | ConnData _ (PDelete messageId) => Some messageId
  | _ => None
  end.

(** An inbound [ack], [edit] or [delete] whose id is not in the log [l]. *)
Definition dangling (l : list Message) (e : Event) : bool :=
  match mutationTarget e with
  | Some messageId => negb (hasId messageId l)
  | None => false
  end.

(** [m] with the status [delivered] and every other field as it is. *)
Definition withDelivered (m : Message) : Message :=
  MkMessage (msg_id m) (msg_sender m) (msg_senderId m) (msg_content m)
            (msg_timestamp m) (msg_type m) (msg_file m) (Some delivered)
            (msg_replyTo m) (msg_isEdited m) (msg_isDeleted m).

Definition isClearChat (e : Event) : bool :=
  match e with UiClearChat => true | _ => false end.

(** An inbound [ack] carrying [messageId]. *)
Definition isAckFor (messageId : string) (e : Event) : bool :=
  match e with
  | ConnData _ (PAck acked) => String.eqb messageId acked
  | _ => false
  end.

(** The order [sending -> sent -> delivered]; an absent status is below. *)
Definition status_rank (st : option MessageStatus) : nat :=
  match st with
  | None => 0
  | Some sending => 1
  | Some sent => 2
  | Some delivered => 3
  end.

(** How one event may change a message that stays in the log: the id is
    kept, and the status is kept unless the event is an [ack] for that id,
    which sets it to [delivered]. *)
Definition advances (e : Event) (m m' : Message) : Prop :=
  msg_id m' = msg_id m
  /\ (msg_status m' = msg_status m
      \/ (msg_status m' = Some delivered /\ isAckFor (msg_id m) e = true)).

(** What a handler does to the log: an in-place update of the messages it
    holds, then zero or more appended messages, none of them created
    [delivered]. *)
Definition log_evolves (e : Event) (l l' : list Message) : Prop :=
  exists (f : Message -> Message) (app : list Message),
    l' = map f l ++ app
    /\ (forall m, advances e m (f m))
    /\ (forall m, In m app -> msg_status m <> Some delivered).

Definition isSendFile (e : Event) : bool :=
  match e with UiSendFile _ => true | _ => false end.

Definition isFileSend (c : Command) : bool :=
  match c with ConnSend _ (PFile _ _ _ _ _) => true | _ => false end.

(** The [file] envelopes the node has sent so far. *)
Definition fileSends (s : Node) : list Command := filter isFileSend (wire s).

(** The id [sendFile] generates in state [s]: the draw after the one its
    log entry takes. *)
Definition fileMessageId (E : Env) (s : Node) : string :=
  substring_from 7 (random36 E (S (ticks s))).

(** More of Alice's session: a text and a file sent over the link. *)
Definition demoFile : File := MkFile "a.txt" 2048 "text/plain" [104; 105].

Definition aliceChatting : Node :=
  run demoEnv [UiSendMessage "hi" None; UiSendFile demoFile] aliceLinked.

(** A local send, the id of the local copy it creates in state [s], and the
    envelope it puts on the channel. *)
Definition isSend (e : Event) : bool :=
  match e with UiSendMessage _ _ | UiSendFile _ => true | _ => false end.

Definition localCopyId (E : Env) (s : Node) (send : Event) : string :=
  match send with
  | UiSendFile _ => fileMessageId E s
  | _ => substring_from 7 (random36 E (ticks s))
  end.

Definition envelopeOf (E : Env) (s : Node) (send : Event) : Payload :=
  match send with
  | UiSendMessage content replyTo => PText content replyTo
  | UiSendFile f =>
      PFile (fileMessageId E s) (file_bytes f) (file_name f) (file_size f)
            (file_type f)
  | _ => POther
  end.

(** Bob: registered as BOB, then linked to ALICE by her inbound offer. *)
Definition connAlice : DataConnection := MkConn 7 "ALICE".

Definition bobEnv : Env :=
  MkEnv (fun k => String.append "0.vwxyz" (String.append (letter k) "y"))
        (fun k => Z.of_nat (100 + k))
        (fun k => String.append "blob:b" (letter k))
        (fun _ => "2.0")
        None.

Definition bobLinked : Node :=
  run bobEnv [PeerOpen "BOB"; PeerConnection connAlice; ConnOpen connAlice]
      (mount bobEnv (Some "BOB")).

(** Bob running on the random source Alice has: their draws coincide. *)
Definition bobTwin : Node :=
  run demoEnv [PeerOpen "BOB"; PeerConnection connAlice; ConnOpen connAlice]
      (mount demoEnv (Some "BOB")).


(** The events that set [connRef.current] to [null]. *)
Definition releases (e : Event) : bool :=
  match e with
  | ConnClosed _ | UiDisconnect | UiTogglePower => true
  | _ => false
  end.

(** The events that can change a dep of the registration effect. *)
Definition reregisters (e : Event) : bool :=
  match e with
  | UiIdentityChange _ | UiTogglePower => true
  | _ => false
  end.


Definition aliceFaulted : Node :=
  step demoEnv (ConnError connBob "boom") aliceLinked.

Definition aliceRenamed : Node :=
  run demoEnv [UiIdentityChange "NEO"; PeerOpen "NEO"] aliceFaulted.


(** The states a node can be in: the mount, then any events. *)
Inductive reachable (E : Env) : Node -> Prop :=
| reach_mount (stored : option string) : reachable E (mount E stored)
| reach_step (e : Event) (s : Node) :
    reachable E s -> reachable E (step E e s).

(** What one handler run may do to the handle and to the wired
    connections: leave both, drop the handle, or take a connection as the
    handle and wire it. *)
Definition linkStep (s s' : Node) : Prop :=
  (connRef s' = connRef s /\ wired s' = wired s)
  \/ (connRef s' = None /\ wired s' = wired s)
  \/ (exists c, connRef s' = Some c /\ wired s' = c :: wired s).

(** The file message of [aliceChatting], and what happens to it next. *)
Definition aliceFileMessage : Message :=
  MkMessage "hz" local (Some "ALICE") "Sending file: a.txt" 7 file
            (Some (MkFileMeta "a.txt" 2048 "text/plain" (Some "blob:h")))
            (Some sending) None None None.

Definition aliceLater : list Event :=
  [UiEditMessage "hz" "renamed"; ConnData connBob (PAck "hz");
   UiDeleteMessage "hz"; UiSendMessage "more" None;
   ConnData connBob (PDelete "hz")].

(** ** Vocabulary of the further statements *)

(** A local or remote edit naming [messageId]. *)
Definition editsContent (messageId : string) (e : Event) : bool :=
  match e with
  | UiEditMessage id _ => String.eqb messageId id
  | ConnData _ (PEdit id _) => String.eqb messageId id
  | _ => false
  end.

(** The fields of a message no handler writes after creation. *)
Definition keepsOrigin (m m' : Message) : Prop :=
  msg_id m' = msg_id m
  /\ msg_sender m' = msg_sender m
  /\ msg_senderId m' = msg_senderId m
  /\ msg_timestamp m' = msg_timestamp m
  /\ msg_type m' = msg_type m
  /\ msg_file m' = msg_file m
  /\ msg_replyTo m' = msg_replyTo m.

(** The two flags are only ever set to [true]. *)
Definition flagsStick (m m' : Message) : Prop :=
  (msg_isDeleted m' = msg_isDeleted m \/ msg_isDeleted m' = Some true)
  /\ (msg_isEdited m' = msg_isEdited m \/ msg_isEdited m' = Some true).

(** Everything one event may do to a message that stays in the log. *)
Definition touches (e : Event) (m m' : Message) : Prop :=
  keepsOrigin m m'
  /\ flagsStick m m'
  /\ (msg_content m' = msg_content m \/ editsContent (msg_id m) e = true)
  /\ (msg_status m' = msg_status m \/ msg_status m' = Some delivered).

(** The shape of the records the handlers create, as the renderer relies
    on it: a file message has its metadata and a retrievable URL, a text
    message has none; a system message is plain text without sender id or
    reply; other messages name their sender; [sending] is the status of
    local files, [sent] of local texts, and a local message has a status. *)
Definition wfMessage (m : Message) : Prop :=
  (msg_type m = file ->
   exists meta, msg_file m = Some meta /\ meta_blobUrl meta <> None)
  /\ (msg_type m = text -> msg_file m = None)
  /\ (msg_sender m = system ->
      msg_senderId m = None /\ msg_type m = text /\ msg_replyTo m = None)
  /\ (msg_sender m <> system -> msg_senderId m <> None)
  /\ (msg_status m = Some sending ->
      msg_sender m = local /\ msg_type m = file)
  /\ (msg_status m = Some sent -> msg_sender m = local /\ msg_type m = text)
  /\ (msg_sender m = local -> msg_status m <> None).

(** One handler run on the log, with all it may do to a kept message and
    the shape of what it appends. *)
Definition logTouched (e : Event) (l l' : list Message) : Prop :=
  exists (f : Message -> Message) (app : list Message),
    l' = map f l ++ app
    /\ (forall m, touches e m (f m))
    /\ (forall m, In m app -> wfMessage m).

Definition notClearChat (e : Event) : bool := negb (isClearChat e).

(** A run on Alice's side that deletes her file message, locally and by a
    remote signal, and edits another message. *)
Definition aliceDeletes : list Event :=
  [UiDeleteMessage "hz"; ConnData connBob (PDelete "hz");
   UiEditMessage "fz" "hello"; ConnData connBob (PAck "hz")].


Definition notClearLogs (e : Event) : bool :=
  match e with UiClearLogs => false | _ => true end.

Definition isNewPeer (c : Command) : bool :=
  match c with NewPeer _ => true | _ => false end.

(** Every registration ever made is the one in use or has been
    destroyed. *)
Definition oneRegistration (s : Node) : Prop :=
  forall p, In (NewPeer p) (wire s) ->
            peerRef s = Some p \/ In (PeerDestroy p) (wire s).

(** The URL parameter has been consumed and its timer has fired. *)
Definition urlSpent (s : Node) : Prop :=
  urlParamsProcessed s = true /\ urlTimer s = None.

(** A node opened through a link that carries [?connect=BOB]. *)
Definition linkEnv : Env :=
  MkEnv (fun k => String.append "0.klmno" (String.append (letter k) "x"))
        (fun k => Z.of_nat (500 + k))
        (fun k => String.append "blob:c" (letter k))
        (fun _ => "3.0")
        (Some "BOB").

Definition carolReady : Node :=
  step linkEnv (PeerOpen "CAROL") (mount linkEnv (Some "CAROL")).

(** An inbound [ack], [edit] or [delete], or a local edit or delete. *)
Definition isMutation (e : Event) : bool :=
  match e with
  | ConnData _ (PAck _) | ConnData _ (PEdit _ _) | ConnData _ (PDelete _)
  | UiEditMessage _ _ | UiDeleteMessage _ => true
  | _ => false
  end.

(** Signals for ids that Alice's log held before it was cleared. *)
Definition aliceSignals : list Event :=
  [ConnData connBob (PAck "hz"); UiEditMessage "fz" "hello";
   ConnData connBob (PDelete "hz"); UiDeleteMessage "fz";
   ConnData connBob (PEdit "ez" "x")].

(** A lowercase ASCII letter. *)
Definition isLower (c : ascii) : bool :=
  ((97 <=? nat_of_ascii c) && (nat_of_ascii c <=? 122))%nat.

Fixpoint noLower (s : string) : bool :=
  match s with
  | EmptyString => true
  | String c r => negb (isLower c) && noLower r
  end.

(** An inbound [text] or [file] envelope. *)
Definition isContent (data : Payload) : bool :=
  match data with PText _ _ | PFile _ _ _ _ _ => true | _ => false end.

(** ** components/ChatInterface.tsx: the composer *)

(** The calls the component makes on its props. *)
Inductive Call :=
| CallTyping (isTyping : bool)
| CallSendMessage (msg : string) (replyTo : option ReplyContext)
| CallSendFile (f : File).

(** The cells of [ChatInterface] that its handlers read or write
    ([inputValue], [isDragging], [replyingTo], [typingTimeoutRef],
    [dragCounter]), then what the environment holds for it: [timers], the
    callbacks [setTimeout] has armed and that have neither run nor been
    cleared; [timerSerial], the last timer id handed out (ids are
    positive); [calls], the calls made on the props so far.  The menu
    cell [showMacros] and the DOM refs are left out.  [dragCounter] is a
    JS number used as an integer. *)
Record Chat := MkChat {
  inputValue : string;
  isDragging : bool;
  replyingTo : option Message;
  typingTimeoutRef : option nat;
  dragCounter : Z;
  timers : list nat;
  timerSerial : nat;
  calls : list Call
}.

Definition set_inputValue (v : string) (c : Chat) : Chat :=
  MkChat v (isDragging c) (replyingTo c) (typingTimeoutRef c)
         (dragCounter c) (timers c) (timerSerial c) (calls c).

Definition set_isDragging (v : bool) (c : Chat) : Chat :=
  MkChat (inputValue c) v (replyingTo c) (typingTimeoutRef c)
         (dragCounter c) (timers c) (timerSerial c) (calls c).

Definition set_replyingTo (v : option Message) (c : Chat) : Chat :=
  MkChat (inputValue c) (isDragging c) v (typingTimeoutRef c)
         (dragCounter c) (timers c) (timerSerial c) (calls c).

Definition set_typingTimeoutRef (v : option nat) (c : Chat) : Chat :=
  MkChat (inputValue c) (isDragging c) (replyingTo c) v
         (dragCounter c) (timers c) (timerSerial c) (calls c).

Definition set_dragCounter (v : Z) (c : Chat) : Chat :=
  MkChat (inputValue c) (isDragging c) (replyingTo c) (typingTimeoutRef c)
         v (timers c) (timerSerial c) (calls c).

Definition set_timers (v : list nat) (c : Chat) : Chat :=
  MkChat (inputValue c) (isDragging c) (replyingTo c) (typingTimeoutRef c)
         (dragCounter c) v (timerSerial c) (calls c).

Definition set_timerSerial (v : nat) (c : Chat) : Chat :=
  MkChat (inputValue c) (isDragging c) (replyingTo c) (typingTimeoutRef c)
         (dragCounter c) (timers c) v (calls c).

Definition call (x : Call) (c : Chat) : Chat :=
  MkChat (inputValue c) (isDragging c) (replyingTo c) (typingTimeoutRef c)
         (dragCounter c) (timers c) (timerSerial c) (calls c ++ [x]).

(** [clearTimeout(id)] *)
Definition clearTimeout (id : nat) (c : Chat) : Chat :=
  set_timers (filter (fun t => negb (Nat.eqb t id)) (timers c)) c.

(** [window.setTimeout(..)]: arms a callback and returns its id. *)
Definition setTimeout (c : Chat) : nat * Chat :=
  let id := S (timerSerial c) in
  (id, set_timerSerial id (set_timers (timers c ++ [id]) c)).

(** [if (typingTimeoutRef.current) clearTimeout(typingTimeoutRef.current)]:
    [null] and [0] are falsy. *)
Definition clearTypingTimeout (c : Chat) : Chat :=
  match typingTimeoutRef c with
  | Some id => if Nat.eqb id 0 then c else clearTimeout id c
  | None => c
  end.

(** A JavaScript string is a sequence of UTF-16 code units: [length]
    counts code units and [substring] cuts between them.  The preview of
    a reply is defined over any type of code units. *)
Section CodeUnits.

Variable CodeUnit : Type.

(** [s.substring(start, stop)]: the arguments are swapped when
    [start > stop] and clamped to the length. *)
Definition jsSubstring (start stop : nat) (s : list CodeUnit)
  : list CodeUnit :=
  let lo := Nat.min start stop in
  let hi := Nat.max start stop in
  firstn (hi - lo) (skipn lo s).

(** [content.substring(0, 50) + (content.length > 50 ? '...' : '')];
    [dot] is the code unit of the full stop. *)
Definition previewOf (dot : CodeUnit) (content : list CodeUnit)
  : list CodeUnit :=
  jsSubstring 0 50 content
  ++ (if (50 <? length content)%nat then [dot; dot; dot] else []).

End CodeUnits.

Arguments jsSubstring {CodeUnit} start stop s.
Arguments previewOf {CodeUnit} dot content.

(** The reply reference [submitMessage] builds from [replyingTo].  The
    messages of this model hold their text as a [string], one code unit
    per character. *)
Definition replyContextOf (m : Message) : ReplyContext :=
  MkReplyContext
    (msg_id m) (msg_sender m)
    (match msg_type m with
     | file =>
         String.append "[FILE] "
           (match msg_file m with
            | Some meta => meta_name meta
            | None => "undefined"
            end)
     | text =>
         string_of_list_ascii
           (previewOf "."%char (list_ascii_of_string (msg_content m)))
     end).

(** Code units as numbers, and a text of forty times U+4E2D. *)
Definition cjkText : list N := repeat 19981%N 40.

(** Events of the composer: what the user does in it, and a typing timer
    whose time has come. *)
Inductive ChatEvent :=
| Input (value : string)
| Submit
| Macro (macro : string)
| Reply (msg : Message)
| CancelReply
| TimerFires (id : nat)
| FileSelect (files : list File)
| DragEnter (hasItems : bool)
| DragLeave
| DragOver
| Drop (files : list File).

Section ChatInterface.

(** [String.prototype.trim] *)
Variable trim : string -> string.

(** The prop [disabled] of the render the handler belongs to. *)
Variable disabled : bool.

Definition handleInputChange (value : string) (c : Chat) : Chat :=
  let c1 := set_inputValue value c in
  if negb disabled then
    let c2 := call (CallTyping true) c1 in
    let c3 := clearTypingTimeout c2 in
    let (id, c4) := setTimeout c3 in
    set_typingTimeoutRef (Some id) c4
  else c1.

(** The callback of a typing timer, [() => onTyping(false)]; it runs only
    if the timer is still armed.  The [onTyping] it calls is the one of the
    render that armed it ([UiTypingLate] on the side of [App]). *)
Definition onTypingTimeout (id : nat) (c : Chat) : Chat :=
  if existsb (Nat.eqb id) (timers c)
  then call (CallTyping false) (clearTimeout id c)
  else c.

Definition submitMessage (content : string) (c : Chat) : Chat :=
  if truthy (trim content) && negb disabled then
    let replyContext :=
      match replyingTo c with
      | Some m => Some (replyContextOf m)
      | None => None
      end in
    let c1 := call (CallSendMessage content replyContext) c in
    let c2 := set_replyingTo None (set_inputValue EmptyString c1) in
    clearTypingTimeout (call (CallTyping false) c2)
  else c.

Definition handleSubmit (c : Chat) : Chat := submitMessage (inputValue c) c.

Definition handleMacroSelect (macro : string) (c : Chat) : Chat :=
  submitMessage macro c.

Definition handleReply (msg : Message) (c : Chat) : Chat :=
  set_inputValue EmptyString (set_replyingTo (Some msg) c).

Definition cancelReply (c : Chat) : Chat :=
  set_inputValue EmptyString (set_replyingTo None c).

Definition handleFileSelect (files : list File) (c : Chat) : Chat :=
  match files with
  | f :: _ => call (CallSendFile f) c
  | [] => c
  end.

Definition handleDragEnter (hasItems : bool) (c : Chat) : Chat :=
  if negb disabled then
    let c1 := set_dragCounter (dragCounter c + 1)%Z c in
    if hasItems then set_isDragging true c1 else c1
  else c.

Definition handleDragLeave (c : Chat) : Chat :=
  if negb disabled then
    let c1 := set_dragCounter (dragCounter c - 1)%Z c in
    if Z.eqb (dragCounter c1) 0 then set_isDragging false c1 else c1
  else c.

Definition handleDrop (files : list File) (c : Chat) : Chat :=
  let c1 := set_dragCounter 0%Z (set_isDragging false c) in
  if disabled then c1
  else match files with
       | f :: _ => call (CallSendFile f) c1
       | [] => c1
       end.

Definition chatStep (e : ChatEvent) (c : Chat) : Chat :=
  match e with
  | Input value => handleInputChange value c
  | Submit => handleSubmit c
  | Macro macro => handleMacroSelect macro c
  | Reply msg => handleReply msg c
  | CancelReply => cancelReply c
  | TimerFires id => onTypingTimeout id c
  | FileSelect files => handleFileSelect files c
  | DragEnter hasItems => handleDragEnter hasItems c
  | DragLeave => handleDragLeave c
  | DragOver => c
  | Drop files => handleDrop files c
  end.

End ChatInterface.

(** A run of the composer; every event comes with the [disabled] prop of
    its render. *)
Fixpoint chatRun (trim : string -> string) (es : list (bool * ChatEvent))
         (c : Chat) : Chat :=
  match es with
  | [] => c
  | (disabled, e) :: es' => chatRun trim es' (chatStep trim disabled e c)
  end.

Definition initialChat : Chat :=
  MkChat EmptyString false None None 0%Z [] 0 [].

(** At most one typing timer is armed, and it is the one the ref names. *)
Definition timersOk (c : Chat) : Prop :=
  timers c = []
  \/ exists id, timers c = [id] /\ typingTimeoutRef c = Some id /\ id <> 0.

(** [n] keystrokes in an enabled composer. *)
Definition keystrokes (values : list string) : list (bool * ChatEvent) :=
  map (fun v => (false, Input v)) values.

Definition isEnterLeave (e : ChatEvent) : bool :=
  match e with DragEnter _ | DragLeave => true | _ => false end.

(** Drag enters minus drag leaves. *)
Fixpoint dragBalance (es : list ChatEvent) : Z :=
  match es with
  | [] => 0
  | DragEnter _ :: es' => (1 + dragBalance es')%Z
  | DragLeave :: es' => (dragBalance es' - 1)%Z
  | _ :: es' => dragBalance es'
  end.

(** A [trim] for the closed examples: drops leading and trailing
    spaces. *)
Fixpoint dropSpaces (s : string) : string :=
  match s with
  | String " " r => dropSpaces r
  | _ => s
  end.

Fixpoint reverseString (s acc : string) : string :=
  match s with
  | EmptyString => acc
  | String c r => reverseString r (String c acc)
  end.

Definition trimSpaces (s : string) : string :=
  reverseString (dropSpaces (reverseString (dropSpaces s) EmptyString))
                EmptyString.

(** A composer in which one keystroke has armed the typing timer, and
    where a message is being replied to. *)
Definition chatTyping : Chat :=
  chatRun trimSpaces [(false, Reply aliceFileMessage); (false, Input "o")]
          initialChat.


(** ** Basic facts *)

Lemma status_eqb_refl (a : ConnectionStatus) : status_eqb a a = true.
Proof. destruct a; reflexivity. Qed.

Lemma status_eqb_eq (a b : ConnectionStatus) :
  status_eqb a b = true <-> a = b.
Proof.
  split; [destruct a, b; simpl; congruence|].
  intros ->. apply status_eqb_refl.
Qed.

Lemma status_eqb_neq (a b : ConnectionStatus) :
  status_eqb a b = false <-> a <> b.
Proof.
  split.
  - intros H Heq. apply status_eqb_eq in Heq. congruence.
  - intros H. destruct (status_eqb a b) eqn:Hab; [|reflexivity].
    apply status_eqb_eq in Hab. contradiction.
Qed.

Lemma node_eta (s : Node) :
  MkNode (isSystemOn s) (status s) (isRemoteTyping s) (desiredId s)
         (peerId s) (messages s) (logs s) (peerRef s) (connRef s)
         (urlParamsProcessed s) (statusRef s) (storage s) (cleanupPeer s)
         (wired s) (urlTimer s) (wire s) (ticks s) (peerSerial s) = s.
Proof. destruct s; reflexivity. Qed.

Lemma set_messages_same (s : Node) : set_messages (messages s) s = s.
Proof. apply node_eta. Qed.

Section Facts.

Variable E : Env.

(** A render in which no dep of any effect changed runs no effect. *)
Lemma commit_quiet (prev s : Node) :
  status prev = status s -> peerId prev = peerId s ->
  desiredId prev = desiredId s -> isSystemOn prev = isSystemOn s ->
  commit E prev s = s.
Proof.
  intros Hst Hid Hdes Hon. unfold commit.
  rewrite Hst, Hid, Hdes, Hon.
  rewrite status_eqb_refl, !String.eqb_refl, Bool.eqb_reflx. simpl.
  rewrite status_eqb_refl. reflexivity.
Qed.

Lemma commit_refl (s : Node) : commit E s s = s.
Proof. apply commit_quiet; reflexivity. Qed.

(** No effect touches the message log, the channel handle or the set of
    wired connections. *)
Lemma registrationEffect_frame (s : Node) :
  messages (registrationEffect E s) = messages s
  /\ connRef (registrationEffect E s) = connRef s
  /\ wired (registrationEffect E s) = wired s.
Proof.
  unfold registrationEffect.
  destruct (cleanupPeer s); simpl; destruct (isSystemOn s); simpl;
    destruct (peerRef s); simpl; auto.
Qed.

Lemma urlEffect_frame (st : ConnectionStatus) (self : string) (s : Node) :
  messages (urlEffect E st self s) = messages s
  /\ connRef (urlEffect E st self s) = connRef s
  /\ wired (urlEffect E st self s) = wired s
  /\ status (urlEffect E st self s) = status s
  /\ wire (urlEffect E st self s) = wire s.
Proof.
  unfold urlEffect.
  destruct (status_eqb st READY && negb (urlParamsProcessed s)); auto.
  destruct (urlConnect E) as [t|]; auto.
  destruct (truthy t); simpl; auto.
Qed.

Lemma commit_frame (prev s : Node) :
  messages (commit E prev s) = messages s
  /\ connRef (commit E prev s) = connRef s
  /\ wired (commit E prev s) = wired s.
Proof.
  unfold commit.
  set (s1 := if negb (status_eqb (status prev) (status s))
             then syncStatusRef (status s) s else s).
  assert (H1 : messages s1 = messages s /\ connRef s1 = connRef s
               /\ wired s1 = wired s)
    by (subst s1; destruct (negb _); simpl; auto).
  clearbody s1.
  set (s2 := if _ : bool then registrationEffect E s1 else s1).
  assert (H2 : messages s2 = messages s /\ connRef s2 = connRef s
               /\ wired s2 = wired s).
  { subst s2. destruct (_ || _); auto.
    destruct (registrationEffect_frame s1) as (-> & -> & ->). exact H1. }
  clearbody s2.
  set (s3 := if _ : bool then urlEffect E (status s) (peerId s) s2 else s2).
  assert (H3 : messages s3 = messages s /\ connRef s3 = connRef s
               /\ wired s3 = wired s).
  { subst s3. destruct (_ || _); auto.
    destruct (urlEffect_frame (status s) (peerId s) s2)
      as (-> & -> & -> & _). exact H2. }
  clearbody s3.
  destruct (negb _); simpl; exact H3.
Qed.

Lemma step_messages (e : Event) (s : Node) :
  messages (step E e s) = messages (handle E e s).
Proof. unfold step. apply commit_frame. Qed.

Lemma step_connRef (e : Event) (s : Node) :
  connRef (step E e s) = connRef (handle E e s).
Proof. unfold step. apply commit_frame. Qed.

Lemma step_wired (e : Event) (s : Node) :
  wired (step E e s) = wired (handle E e s).
Proof. unfold step. apply commit_frame. Qed.

(** A local send changes no dep of any effect, linked or not. *)
Lemma step_send (send : Event) (s : Node) :
  isSend send = true -> step E send s = handle E send s.
Proof.
  intros Hsend. unfold step.
  destruct send; try discriminate Hsend; apply commit_quiet; simpl.
  1-4: unfold sendMessage; destruct (connRef s); [|reflexivity];
       destruct (status_eqb (status s) CONNECTED); reflexivity.
  all: unfold sendFile; destruct (connRef s); [|reflexivity];
       destruct (status_eqb (status s) CONNECTED); reflexivity.
Qed.

End Facts.

(** ** Sending without a link *)

Section Guards.

Variable E : Env.

(** C2.  [sendMessage] while the session is not [CONNECTED]: no message is
    appended, nothing is sent over any channel, and the state after the
    event is the state before it with exactly one more diagnostic entry, of
    severity [error]. *)
Theorem sendMessage_not_connected
        (content : string) (replyTo : option ReplyContext) (s : Node) :
  status s <> CONNECTED ->
  let s' := step E (UiSendMessage content replyTo) s in
  messages s' = messages s
  /\ wire s' = wire s
  /\ logs s' = logs s ++ [MkLogEntry (freshId E s)
                                     "Cannot send: No active uplink."
                                     (now E (ticks s)) error]
  /\ s' = set_ticks (S (ticks s)) (set_logs (logs s') s).
Proof.
  intros Hst s'.
  assert (Hs' : s' = addLog E "Cannot send: No active uplink." error s).
  { subst s'. unfold step.
    assert (Hh : handle E (UiSendMessage content replyTo) s
                 = addLog E "Cannot send: No active uplink." error s).
    { simpl. unfold sendMessage. destruct (connRef s); [|reflexivity].
      apply status_eqb_neq in Hst. rewrite Hst. reflexivity. }
    rewrite Hh. apply commit_quiet; reflexivity. }
  rewrite Hs'. repeat split.
Qed.

(** C6.  An inbound offer while a channel handle is held: the offered
    connection is closed at once and one [warning] entry is logged; no
    handler is installed on it, and status, channel handle and message log
    (indeed every other cell) are as before. *)
Theorem concurrent_offer_rejected
        (conn held : DataConnection) (s : Node) :
  connRef s = Some held ->
  let s' := step E (PeerConnection conn) s in
  wire s' = wire s ++ [ConnClose conn]
  /\ logs s' = logs s ++ [MkLogEntry (freshId E s)
                                     "Rejected concurrent connection attempt"
                                     (now E (ticks s)) warning]
  /\ status s' = status s
  /\ connRef s' = Some held
  /\ messages s' = messages s
  /\ wired s' = wired s
  /\ s' = set_ticks (S (ticks s)) (set_logs (logs s') (set_wire (wire s') s)).
Proof.
  intros Hc s'.
  assert (Hs' : s' = addLog E "Rejected concurrent connection attempt"
                            warning (emit (ConnClose conn) s)).
  { subst s'. unfold step. simpl. unfold onPeerConnection. rewrite Hc.
    apply commit_quiet; reflexivity. }
  rewrite Hs'. simpl. rewrite Hc. repeat split.
Qed.

End Guards.

Lemma sendMessage_not_connected_witness :
  status aliceReady <> CONNECTED
  /\ messages (step demoEnv (UiSendMessage "hello" None) aliceReady)
     = messages aliceReady.
Proof.
  split; [vm_compute; discriminate|].
  apply (sendMessage_not_connected demoEnv "hello" None aliceReady).
  vm_compute; discriminate.
Defined.

Lemma concurrent_offer_rejected_witness :
  connRef aliceLinked = Some connBob
  /\ wire (step demoEnv (PeerConnection connEve) aliceLinked)
     = wire aliceLinked ++ [ConnClose connEve].
Proof.
  split; [reflexivity|].
  apply (concurrent_offer_rejected demoEnv connEve connBob aliceLinked).
  reflexivity.
Defined.

(** ** Remote signals on the message log *)

Lemma markDelivered_absent (messageId : string) (l : list Message) :
  hasId messageId l = false -> map (markDelivered messageId) l = l.
Proof.
  induction l as [|m l IH]; simpl; [reflexivity|].
  intros H. apply orb_false_elim in H as [Hm Hl].
  unfold markDelivered at 1. rewrite Hm, (IH Hl). reflexivity.
Qed.

Lemma markEdited_absent (messageId content : string) (l : list Message) :
  hasId messageId l = false -> map (markEdited messageId content) l = l.
Proof.
  induction l as [|m l IH]; simpl; [reflexivity|].
  intros H. apply orb_false_elim in H as [Hm Hl].
  unfold markEdited at 1. rewrite Hm, (IH Hl). reflexivity.
Qed.

Lemma markDeleted_absent (messageId : string) (l : list Message) :
  hasId messageId l = false -> map (markDeleted messageId) l = l.
Proof.
  induction l as [|m l IH]; simpl; [reflexivity|].
  intros H. apply orb_false_elim in H as [Hm Hl].
  unfold markDeleted at 1. rewrite Hm, (IH Hl). reflexivity.
Qed.

Lemma markDelivered_idem (messageId : string) (m : Message) :
  markDelivered messageId (markDelivered messageId m)
  = markDelivered messageId m.
Proof.
  unfold markDelivered.
  destruct (String.eqb (msg_id m) messageId) eqn:Hm; simpl; rewrite Hm;
    reflexivity.
Qed.

Lemma markDelivered_status (messageId : string) (m : Message) :
  msg_id (markDelivered messageId m) = messageId ->
  msg_status (markDelivered messageId m) = Some delivered.
Proof.
  unfold markDelivered.
  destruct (String.eqb (msg_id m) messageId) eqn:Hm; simpl; [reflexivity|].
  intros H. apply String.eqb_neq in Hm. contradiction.
Qed.

Section Signals.

Variable E : Env.

Lemma dangling_step (e : Event) (s : Node) :
  dangling (messages s) e = true -> step E e s = s.
Proof.
  intros Hd. unfold step.
  assert (Hh : handle E e s = s).
  { unfold dangling in Hd.
    destruct e as [| | | | | | | | | | | | | | | | |conn data| |];
      try discriminate Hd.
    simpl. destruct (is_wired conn s); [|reflexivity].
    destruct data; simpl in Hd; try discriminate Hd;
      apply negb_true_iff in Hd; simpl.
    - rewrite (markDelivered_absent _ _ Hd). apply set_messages_same.
    - rewrite (markEdited_absent _ _ _ Hd). apply set_messages_same.
    - rewrite (markDeleted_absent _ _ Hd). apply set_messages_same. }
  rewrite Hh. apply commit_refl.
Qed.

(** C4.  A sequence of inbound [ack], [edit] and [delete] envelopes none of
    which names a message of the log: the run is defined (the model is a
    total function) and ends in the state it started from, so the message
    log is unchanged. *)
Theorem dangling_signals_noop (es : list Event) (s : Node) :
  forallb (dangling (messages s)) es = true ->
  run E es s = s /\ messages (run E es s) = messages s.
Proof.
  intros H.
  assert (Hrun : run E es s = s).
  { induction es as [|e es IH]; simpl; [reflexivity|].
    simpl in H. apply andb_true_iff in H as [He Hes].
    rewrite (dangling_step e s He). exact (IH Hes). }
  rewrite Hrun. split; reflexivity.
Qed.

(** C8.  Applying [ack{messageId}] on a wired channel.  The first
    application keeps the log position by position: a message with that id
    becomes the same message with status [delivered], every other message
    is the one it was, and none is added or removed; nothing but the log
    changes.  So afterwards every message with that id is [delivered].
    Applying the same [ack] again returns the very same state, so the
    whole log is unchanged. *)
Theorem ack_idempotent (conn : DataConnection) (messageId : string)
        (s : Node) :
  is_wired conn s = true ->
  let s1 := step E (ConnData conn (PAck messageId)) s in
  let s2 := step E (ConnData conn (PAck messageId)) s1 in
  (forall i m,
      nth_error (messages s) i = Some m ->
      nth_error (messages s1) i
      = Some (if String.eqb (msg_id m) messageId then withDelivered m
              else m))
  /\ length (messages s1) = length (messages s)
  /\ (wire s1 = wire s /\ logs s1 = logs s /\ status s1 = status s
      /\ connRef s1 = connRef s)
  /\ (forall m, In m (messages s1) -> msg_id m = messageId ->
                msg_status m = Some delivered)
  /\ messages s2 = messages s1
  /\ s2 = s1.
Proof.
  intros Hw s1 s2.
  assert (H1 : s1 = set_messages (map (markDelivered messageId) (messages s))
                                 s).
  { subst s1. unfold step. simpl. rewrite Hw. simpl.
    apply commit_quiet; reflexivity. }
  assert (H2 : s2 = s1).
  { subst s2. unfold step. simpl.
    assert (Hw1 : is_wired conn s1 = true) by (rewrite H1; exact Hw).
    rewrite Hw1. simpl.
    assert (Hm : map (markDelivered messageId) (messages s1) = messages s1).
    { rewrite H1. simpl. rewrite map_map. apply map_ext.
      intros m. apply markDelivered_idem. }
    rewrite Hm, set_messages_same. apply commit_refl. }
  split.
  { intros i m Hm. rewrite H1. cbn [messages set_messages].
    rewrite nth_error_map, Hm. reflexivity. }
  split.
  { rewrite H1. cbn [messages set_messages]. apply length_map. }
  split.
  { rewrite H1. repeat split. }
  split; [|split; [rewrite H2; reflexivity | exact H2]].
  intros m Hin Hid. rewrite H1 in Hin. simpl in Hin.
  apply in_map_iff in Hin as (m0 & <- & _).
  apply markDelivered_status. exact Hid.
Qed.

End Signals.

Lemma dangling_signals_noop_witness :
  forallb (dangling (messages aliceChatting))
          [ConnData connBob (PAck "nope"); ConnData connBob (PEdit "nope" "x");
           ConnData connBob (PDelete "nope")] = true
  /\ messages (run demoEnv
                   [ConnData connBob (PAck "nope");
                    ConnData connBob (PEdit "nope" "x");
                    ConnData connBob (PDelete "nope")] aliceChatting)
     = messages aliceChatting.
Proof.
  split; [reflexivity|].
  apply (dangling_signals_noop demoEnv). reflexivity.
Defined.

Lemma ack_idempotent_witness :
  is_wired connBob aliceChatting = true
  /\ step demoEnv (ConnData connBob (PAck "hz"))
          (step demoEnv (ConnData connBob (PAck "hz")) aliceChatting)
     = step demoEnv (ConnData connBob (PAck "hz")) aliceChatting.
Proof.
  split; [reflexivity|].
  apply (ack_idempotent demoEnv connBob "hz" aliceChatting). reflexivity.
Defined.

(** ** The status of a message over a run *)

Lemma advances_refl (e : Event) (m : Message) : advances e m m.
Proof. split; [reflexivity | left; reflexivity]. Qed.

Lemma markDelivered_advances (conn : DataConnection) (messageId : string)
      (m : Message) :
  advances (ConnData conn (PAck messageId)) m (markDelivered messageId m).
Proof.
  unfold advances, markDelivered. simpl.
  destruct (String.eqb (msg_id m) messageId); simpl; auto.
Qed.

Lemma markEdited_advances (e : Event) (messageId content : string)
      (m : Message) :
  advances e m (markEdited messageId content m).
Proof.
  unfold advances, markEdited.
  destruct (String.eqb (msg_id m) messageId); simpl; auto.
Qed.

Lemma markDeleted_advances (e : Event) (messageId : string) (m : Message) :
  advances e m (markDeleted messageId m).
Proof.
  unfold advances, markDeleted.
  destruct (String.eqb (msg_id m) messageId); simpl; auto.
Qed.

Section StatusOrder.

Variable E : Env.

Lemma log_kept (e : Event) (l : list Message) : log_evolves e l l.
Proof.
  exists (fun m => m), []. rewrite map_id, app_nil_r.
  split; [reflexivity | split; [apply advances_refl | intros m []]].
Qed.

Lemma log_grown (e : Event) (l : list Message) (m : Message) :
  msg_status m <> Some delivered -> log_evolves e l (l ++ [m]).
Proof.
  intros Hm. exists (fun m => m), [m]. rewrite map_id.
  split; [reflexivity | split; [apply advances_refl|]].
  intros m' [<-|[]]. exact Hm.
Qed.

Lemma log_mapped (e : Event) (l : list Message) (f : Message -> Message) :
  (forall m, advances e m (f m)) -> log_evolves e l (map f l).
Proof.
  intros Hf. exists f, []. rewrite app_nil_r.
  split; [reflexivity | split; [exact Hf | intros m []]].
Qed.

Lemma connectToPeer_messages (self targetId : string)
      (outcome : ConnectOutcome) (s : Node) :
  messages (connectToPeer E self targetId outcome s) = messages s.
Proof.
  unfold connectToPeer. destruct (peerRef s); [|reflexivity].
  destruct (status_eqb (statusRef s) CONNECTED); [reflexivity|].
  destruct (String.eqb targetId self); [reflexivity|].
  destruct outcome; reflexivity.
Qed.

Lemma handle_log_evolves (e : Event) (s : Node) :
  isClearChat e = false ->
  log_evolves e (messages s) (messages (handle E e s)).
Proof.
  intros Hclear.
  destruct e as [targetId outcome| |newId| |isTyping|rendered isTyping
                 |content replyTo|id newContent|id|f| | |outcome|id|conn
                 |p errType message|conn|conn data|conn|conn message];
    simpl; try discriminate Hclear.
  - rewrite connectToPeer_messages. apply log_kept.
  - unfold disconnect. destruct (connRef s); apply log_kept.
  - unfold handleIdentityChange.
    destruct (String.eqb newId (peerId s)); apply log_kept.
  - unfold togglePower. destruct (isSystemOn s); simpl; [|apply log_kept].
    destruct (peerRef s); simpl; apply log_grown; discriminate.
  - unfold handleTyping. destruct (connRef s); [|apply log_kept].
    destruct (status_eqb _ CONNECTED); apply log_kept.
  - unfold handleTyping. destruct (connRef s); [|apply log_kept].
    destruct (status_eqb _ CONNECTED); apply log_kept.
  - unfold sendMessage. destruct (connRef s); [|apply log_kept].
    destruct (status_eqb (status s) CONNECTED); [|apply log_kept].
    simpl. apply log_grown. discriminate.
  - unfold handleEditMessage. destruct (connRef s); [|apply log_kept].
    destruct (status_eqb (status s) CONNECTED); [|apply log_kept].
    simpl. apply log_mapped. intros m. apply markEdited_advances.
  - unfold handleDeleteMessage. destruct (connRef s); [|apply log_kept].
    destruct (status_eqb (status s) CONNECTED); [|apply log_kept].
    simpl. apply log_mapped. intros m. apply markDeleted_advances.
  - unfold sendFile. destruct (connRef s); [|apply log_kept].
    destruct (status_eqb (status s) CONNECTED); [|apply log_kept].
    simpl. apply log_grown. discriminate.
  - apply log_kept.
  - destruct (urlTimer s) as [[targetId self]|]; [|apply log_kept].
    rewrite connectToPeer_messages. apply log_kept.
  - apply log_kept.
  - unfold onPeerConnection. destruct (connRef s); apply log_kept.
  - unfold onPeerError.
    destruct (String.eqb errType "unavailable-id"); apply log_kept.
  - destruct (is_wired conn s); [|apply log_kept].
    simpl. apply log_grown. discriminate.
  - destruct (is_wired conn s); [|apply log_kept].
    destruct data; simpl; try apply log_kept.
    + apply log_mapped. intros m. apply markDelivered_advances.
    + apply log_mapped. intros m. apply markEdited_advances.
    + apply log_mapped. intros m. apply markDeleted_advances.
    + apply log_grown. discriminate.
    + apply log_grown. discriminate.
  - destruct (is_wired conn s); [|apply log_kept].
    simpl. apply log_grown. discriminate.
  - destruct (is_wired conn s); apply log_kept.
Qed.

Lemma step_log_evolves (e : Event) (s : Node) :
  isClearChat e = false ->
  log_evolves e (messages s) (messages (step E e s)).
Proof. intros H. rewrite step_messages. apply handle_log_evolves, H. Qed.

(** The message at position [i] keeps its position over an event that does
    not clear the chat. *)
Lemma step_nth (e : Event) (s : Node) (i : nat) (m : Message) :
  isClearChat e = false ->
  nth_error (messages s) i = Some m ->
  exists m', nth_error (messages (step E e s)) i = Some m'
             /\ advances e m m'.
Proof.
  intros Hclear Hi.
  destruct (step_log_evolves e s Hclear) as (f & app & -> & Hf & _).
  exists (f m). split; [|apply Hf].
  rewrite nth_error_app1.
  - rewrite nth_error_map, Hi. reflexivity.
  - rewrite length_map. apply nth_error_Some. congruence.
Qed.

Lemma run_nth (es : list Event) (s : Node) (i : nat) (m : Message) :
  forallb (fun e => negb (isClearChat e)) es = true ->
  nth_error (messages s) i = Some m ->
  exists m', nth_error (messages (run E es s)) i = Some m'
             /\ msg_id m' = msg_id m
             /\ (msg_status m' = msg_status m
                 \/ (msg_status m' = Some delivered
                     /\ existsb (isAckFor (msg_id m)) es = true)).
Proof.
  revert s m. induction es as [|e es IH]; intros s m Hes Hi; simpl.
  - exists m. auto.
  - simpl in Hes. apply andb_true_iff in Hes as [He Hes].
    apply negb_true_iff in He.
    destruct (step_nth e s i m He Hi) as (m1 & Hi1 & Hid1 & Hst1).
    destruct (IH (step E e s) m1 Hes Hi1) as (m' & Hi' & Hid' & Hst').
    exists m'. split; [exact Hi'|]. split; [congruence|].
    rewrite Hid1 in Hst'.
    destruct Hst' as [Hsame|[Hdel Hack]].
    + destruct Hst1 as [Hsame1|[Hdel1 Hack1]].
      * left. congruence.
      * right. split; [congruence|]. rewrite Hack1. reflexivity.
    + right. split; [exact Hdel|]. rewrite Hack. apply orb_true_r.
Qed.

(** C3.  Over any run that does not clear the chat, a message of the log
    stays at its position with its id; its status never goes down in the
    order [sending -> sent -> delivered]; and if its status changed at all,
    it changed to [delivered] and the run contains an inbound [ack] for its
    id.  So [sending] and [sent], which [sendFile] and [sendMessage] set
    when they create a message, are never set afterwards. *)
Theorem status_never_regresses (es : list Event) (s : Node) (i : nat)
        (m : Message) :
  forallb (fun e => negb (isClearChat e)) es = true ->
  nth_error (messages s) i = Some m ->
  exists m', nth_error (messages (run E es s)) i = Some m'
             /\ msg_id m' = msg_id m
             /\ status_rank (msg_status m) <= status_rank (msg_status m')
             /\ (msg_status m' = msg_status m
                 \/ (msg_status m' = Some delivered
                     /\ existsb (isAckFor (msg_id m)) es = true)).
Proof.
  intros Hes Hi.
  destruct (run_nth es s i m Hes Hi) as (m' & Hi' & Hid & Hst).
  exists m'. repeat split; auto.
  destruct Hst as [->|[-> _]]; [apply Nat.le_refl|].
  destruct (msg_status m) as [[]|]; simpl; lia.
Qed.

End StatusOrder.

Lemma status_never_regresses_witness :
  forallb (fun e => negb (isClearChat e)) aliceLater = true
  /\ nth_error (messages aliceChatting) 2 = Some aliceFileMessage
  /\ exists m',
      nth_error (messages (run demoEnv aliceLater aliceChatting)) 2 = Some m'
      /\ msg_id m' = msg_id aliceFileMessage
      /\ status_rank (msg_status aliceFileMessage)
         <= status_rank (msg_status m')
      /\ (msg_status m' = msg_status aliceFileMessage
          \/ (msg_status m' = Some delivered
              /\ existsb (isAckFor (msg_id aliceFileMessage)) aliceLater
                 = true)).
Proof.
  split; [reflexivity|]. split; [vm_compute; reflexivity|].
  apply (status_never_regresses demoEnv aliceLater aliceChatting 2
                                aliceFileMessage).
  - reflexivity.
  - vm_compute; reflexivity.
Defined.

(** ** File transfer *)

Section Wire.

Variable E : Env.

Lemma fileSends_emit (c : Command) (s : Node) :
  isFileSend c = false -> fileSends (emit c s) = fileSends s.
Proof.
  intros Hc. unfold fileSends, emit. simpl.
  rewrite filter_app. simpl. rewrite Hc. apply app_nil_r.
Qed.

Lemma connectToPeer_fileSends (self targetId : string)
      (outcome : ConnectOutcome) (s : Node) :
  fileSends (connectToPeer E self targetId outcome s) = fileSends s.
Proof.
  unfold connectToPeer. destruct (peerRef s) as [p|]; [|reflexivity].
  destruct (status_eqb (statusRef s) CONNECTED); [reflexivity|].
  destruct (String.eqb targetId self); [reflexivity|].
  destruct outcome; unfold fileSends; simpl; rewrite filter_app; simpl;
    apply app_nil_r.
Qed.

Lemma handle_fileSends (e : Event) (s : Node) :
  isSendFile e = false -> fileSends (handle E e s) = fileSends s.
Proof.
  intros He.
  destruct e as [targetId outcome| |newId| |isTyping|rendered isTyping
                 |content replyTo|id newContent|id|f| | |outcome|id|conn
                 |p errType message|conn|conn data|conn|conn message];
    simpl; try discriminate He; try reflexivity.
  - apply connectToPeer_fileSends.
  - unfold disconnect. destruct (connRef s); [|reflexivity].
    unfold fileSends; simpl. rewrite filter_app. apply app_nil_r.
  - unfold handleIdentityChange.
    destruct (String.eqb newId (peerId s)); reflexivity.
  - unfold togglePower. destruct (isSystemOn s); [|reflexivity].
    simpl. destruct (peerRef s); [|reflexivity].
    unfold fileSends; simpl. rewrite filter_app. apply app_nil_r.
  - unfold handleTyping. destruct (connRef s); [|reflexivity].
    destruct (status_eqb _ CONNECTED); [|reflexivity].
    apply fileSends_emit. reflexivity.
  - unfold handleTyping. destruct (connRef s); [|reflexivity].
    destruct (status_eqb _ CONNECTED); [|reflexivity].
    apply fileSends_emit. reflexivity.
  - unfold sendMessage. destruct (connRef s); [|reflexivity].
    destruct (status_eqb (status s) CONNECTED); [|reflexivity].
    unfold fileSends; simpl. rewrite filter_app. apply app_nil_r.
  - unfold handleEditMessage. destruct (connRef s); [|reflexivity].
    destruct (status_eqb (status s) CONNECTED); [|reflexivity].
    unfold fileSends; simpl. rewrite filter_app. apply app_nil_r.
  - unfold handleDeleteMessage. destruct (connRef s); [|reflexivity].
    destruct (status_eqb (status s) CONNECTED); [|reflexivity].
    unfold fileSends; simpl. rewrite filter_app. apply app_nil_r.
  - destruct (urlTimer s) as [[targetId self]|]; [|reflexivity].
    rewrite connectToPeer_fileSends. reflexivity.
  - unfold onPeerConnection. destruct (connRef s); [|reflexivity].
    unfold fileSends; simpl. rewrite filter_app. apply app_nil_r.
  - unfold onPeerError.
    destruct (String.eqb errType "unavailable-id"); reflexivity.
  - destruct (is_wired conn s); reflexivity.
  - destruct (is_wired conn s); [|reflexivity].
    destruct data; try reflexivity.
    unfold fileSends; simpl. rewrite filter_app. apply app_nil_r.
  - destruct (is_wired conn s); reflexivity.
  - destruct (is_wired conn s); reflexivity.
Qed.

Lemma registrationEffect_fileSends (s : Node) :
  fileSends (registrationEffect E s) = fileSends s.
Proof.
  unfold registrationEffect, fileSends.
  destruct (cleanupPeer s); simpl; destruct (isSystemOn s); simpl;
    destruct (peerRef s); simpl; rewrite ?filter_app; simpl;
    rewrite ?filter_app; simpl; rewrite ?app_nil_r; reflexivity.
Qed.

Lemma commit_fileSends (prev s : Node) :
  fileSends (commit E prev s) = fileSends s.
Proof.
  unfold commit.
  set (s1 := if negb (status_eqb (status prev) (status s))
             then syncStatusRef (status s) s else s).
  assert (H1 : fileSends s1 = fileSends s)
    by (subst s1; destruct (negb _); reflexivity).
  clearbody s1.
  set (s2 := if _ : bool then registrationEffect E s1 else s1).
  assert (H2 : fileSends s2 = fileSends s).
  { subst s2. destruct (_ || _); auto.
    rewrite registrationEffect_fileSends. exact H1. }
  clearbody s2.
  set (s3 := if _ : bool then urlEffect E (status s) (peerId s) s2 else s2).
  assert (H3 : fileSends s3 = fileSends s).
  { subst s3. destruct (_ || _); auto. unfold fileSends.
    destruct (urlEffect_frame E (status s) (peerId s) s2)
      as (_ & _ & _ & _ & ->). exact H2. }
  clearbody s3.
  destruct (negb _); [|exact H3]. unfold fileSends. simpl. exact H3.
Qed.

(** Only [sendFile] puts a [file] envelope on a channel: no other event,
    the timer of the URL effect included, sends one again. *)
Lemma run_fileSends (es : list Event) (s : Node) :
  forallb (fun e => negb (isSendFile e)) es = true ->
  fileSends (run E es s) = fileSends s.
Proof.
  revert s. induction es as [|e es IH]; intros s Hes; simpl; [reflexivity|].
  simpl in Hes. apply andb_true_iff in Hes as [He Hes].
  apply negb_true_iff in He.
  rewrite (IH _ Hes). unfold step.
  rewrite commit_fileSends. apply handle_fileSends, He.
Qed.

End Wire.

(** C5.  A file transfer between a sender [a] (linked over [ca]) and a
    receiver [b] (with handlers on [cb]).  [sendFile] appends a local file
    message with the generated id [m] and status [sending], and sends a
    [file] envelope carrying [m].  The receiver of that envelope appends a
    remote file message, logs one [success] entry and sends back
    [ack{messageId: m}].  On that [ack] the sender's message is
    [delivered].  Over any run without that [ack] (and without a chat
    clear) it is still [sending], and no run without a new [sendFile] puts
    the file on the channel again. *)
Theorem file_transfer_ack (EA EB : Env) (a b : Node)
        (ca cb : DataConnection) (f : File) :
  status a = CONNECTED -> connRef a = Some ca ->
  is_wired ca a = true -> is_wired cb b = true ->
  let m := fileMessageId EA a in
  let envelope := PFile m (file_bytes f) (file_name f) (file_size f)
                        (file_type f) in
  let pos := length (messages a) in
  let a1 := step EA (UiSendFile f) a in
  let b1 := step EB (ConnData cb envelope) b in
  let a2 := step EA (ConnData ca (PAck m)) a1 in
  (exists msg, messages a1 = messages a ++ [msg]
               /\ msg_id msg = m /\ msg_status msg = Some sending
               /\ msg_sender msg = local /\ msg_type msg = file)
  /\ wire a1 = wire a ++ [ConnSend ca envelope]
  /\ (exists r, messages b1 = messages b ++ [r]
                /\ msg_sender r = remote /\ msg_type r = file)
  /\ (exists entry, logs b1 = logs b ++ [entry]
                    /\ log_type entry = success)
  /\ wire b1 = wire b ++ [ConnSend cb (PAck m)]
  /\ (exists msg', nth_error (messages a2) pos = Some msg'
                   /\ msg_id msg' = m /\ msg_status msg' = Some delivered)
  /\ (forall es,
         forallb (fun e => negb (isClearChat e)) es = true ->
         existsb (isAckFor m) es = false ->
         exists msg', nth_error (messages (run EA es a1)) pos = Some msg'
                      /\ msg_id msg' = m /\ msg_status msg' = Some sending)
  /\ (forall es,
         forallb (fun e => negb (isSendFile e)) es = true ->
         fileSends (run EA es a1) = fileSends a1).
Proof.
  intros Hst Hconn Hwa Hwb m envelope pos a1 b1 a2.
  assert (Ha1 : a1 = handle EA (UiSendFile f) a).
  { subst a1. apply step_send. reflexivity. }
  assert (Hb1 : b1 = handle EB (ConnData cb envelope) b).
  { subst b1. unfold step. apply commit_quiet; simpl; rewrite Hwb;
      reflexivity. }
  set (msg := MkMessage m local (Some (peerId a))
                ("Sending file: " ++ file_name f) (now EA (S (ticks a))) file
                (Some (MkFileMeta (file_name f) (file_size f) (file_type f)
                         (Some (objectUrl EA (S (ticks a))))))
                (Some sending) None None None).
  assert (Hm1 : messages a1 = messages a ++ [msg]).
  { rewrite Ha1. simpl. unfold sendFile. rewrite Hconn, Hst. reflexivity. }
  assert (Hpos : nth_error (messages a1) pos = Some msg).
  { rewrite Hm1. subst pos. rewrite nth_error_app2, Nat.sub_diag; auto. }
  split; [exists msg; repeat split; exact Hm1|].
  split.
  { rewrite Ha1. simpl. unfold sendFile. rewrite Hconn, Hst. reflexivity. }
  split.
  { rewrite Hb1. simpl. rewrite Hwb. simpl. eexists. split; [reflexivity|].
    split; reflexivity. }
  split.
  { rewrite Hb1. simpl. rewrite Hwb. simpl. eexists. split; [reflexivity|].
    reflexivity. }
  split.
  { rewrite Hb1. simpl. rewrite Hwb. reflexivity. }
  split.
  { assert (Hw1 : is_wired ca a1 = true).
    { unfold is_wired. rewrite Ha1. simpl. unfold sendFile.
      rewrite Hconn, Hst. exact Hwa. }
    exists (markDelivered m msg). subst a2. rewrite step_messages. simpl.
    rewrite Hw1. simpl. rewrite nth_error_map, Hpos. simpl.
    split; [reflexivity|]. unfold markDelivered. simpl.
    rewrite String.eqb_refl. split; reflexivity. }
  split.
  - intros es Hclear Hack.
    destruct (run_nth EA es a1 pos msg Hclear Hpos)
      as (msg' & Hn & Hid & [Hsame|[_ Habs]]).
    + exists msg'. repeat split; assumption.
    + simpl in Habs. rewrite Hack in Habs. discriminate Habs.
  - intros es Hes. apply run_fileSends, Hes.
Qed.

Lemma file_transfer_ack_witness :
  status aliceLinked = CONNECTED
  /\ connRef aliceLinked = Some connBob
  /\ is_wired connBob aliceLinked = true
  /\ is_wired connAlice bobLinked = true
  /\ wire (step bobEnv
                (ConnData connAlice
                   (PFile (fileMessageId demoEnv aliceLinked)
                          (file_bytes demoFile) (file_name demoFile)
                          (file_size demoFile) (file_type demoFile)))
                bobLinked)
     = wire bobLinked
       ++ [ConnSend connAlice (PAck (fileMessageId demoEnv aliceLinked))].
Proof.
  assert (H1 : status aliceLinked = CONNECTED) by (vm_compute; reflexivity).
  assert (H2 : connRef aliceLinked = Some connBob)
    by (vm_compute; reflexivity).
  assert (H3 : is_wired connBob aliceLinked = true)
    by (vm_compute; reflexivity).
  assert (H4 : is_wired connAlice bobLinked = true)
    by (vm_compute; reflexivity).
  destruct (file_transfer_ack demoEnv bobEnv aliceLinked bobLinked connBob
              connAlice demoFile H1 H2 H3 H4) as (_ & _ & _ & _ & H & _).
  exact (conj H1 (conj H2 (conj H3 (conj H4 H)))).
Defined.

(** ** Ids of remote copies *)

Section RemoteCopies.

Variables EA EB : Env.

Lemma hasId_app (messageId : string) (l l' : list Message) :
  hasId messageId (l ++ l') = hasId messageId l || hasId messageId l'.
Proof. unfold hasId. apply existsb_app. Qed.

Lemma markEdited_copy (messageId content : string) (r : Message) :
  msg_isEdited r = None ->
  markEdited messageId content r = r <-> msg_id r <> messageId.
Proof.
  intros Hed. unfold markEdited.
  destruct (String.eqb (msg_id r) messageId) eqn:Hid.
  - apply String.eqb_eq in Hid. split; [|contradiction].
    intros H. apply (f_equal msg_isEdited) in H. cbn in H.
    rewrite Hed in H. discriminate H.
  - apply String.eqb_neq in Hid. split; [intros _; exact Hid | reflexivity].
Qed.

Lemma markDeleted_copy (messageId : string) (r : Message) :
  msg_isDeleted r = None ->
  markDeleted messageId r = r <-> msg_id r <> messageId.
Proof.
  intros Hdel. unfold markDeleted.
  destruct (String.eqb (msg_id r) messageId) eqn:Hid.
  - apply String.eqb_eq in Hid. split; [|contradiction].
    intros H. apply (f_equal msg_isDeleted) in H. cbn in H.
    rewrite Hdel in H. discriminate H.
  - apply String.eqb_neq in Hid. split; [intros _; exact Hid | reflexivity].
Qed.

(** An in-place update of a log, seen at its last record and as a
    whole. *)
Lemma last_kept_iff (f : Message -> Message) (l : list Message)
      (r : Message) :
  nth_error (map f (l ++ [r])) (length l) = nth_error (l ++ [r]) (length l)
  <-> f r = r.
Proof.
  rewrite map_app, !nth_error_app2, ?length_map, Nat.sub_diag
    by (rewrite ?length_map; apply Nat.le_refl).
  cbn. split; [intros H; injection H; auto | intros ->; reflexivity].
Qed.

Lemma log_kept_iff (f : Message -> Message) (l : list Message)
      (r : Message) :
  map f l = l -> (map f (l ++ [r]) = l ++ [r] <-> f r = r).
Proof.
  intros Hl. rewrite map_app, Hl. cbn. split.
  - intros H. apply app_inv_head in H. injection H; auto.
  - intros ->. reflexivity.
Qed.

(** C9.  A sender [a] linked over [ca] makes a local send; the receiver [b]
    gets the envelope on [cb].  The sender's copy carries the id [m] the
    sender generated; the receiver's copy carries the id the receiver
    draws itself, whatever the envelope holds: the id of a [file] envelope
    goes into the returned [ack] and nowhere else.  Nothing is assumed of
    the two draws.  The [edit] and [delete] envelopes the sender later
    emits for [m] leave the receiver's copy as it is exactly when the
    receiver's draw differs from [m], and, when no older record of the
    receiver has the id [m], leave the whole log as it is exactly then. *)
Theorem remote_copy_has_own_id (a b : Node) (ca cb : DataConnection)
        (send : Event) :
  status a = CONNECTED -> connRef a = Some ca -> is_wired cb b = true ->
  isSend send = true ->
  let m := localCopyId EA a send in
  let a1 := step EA send a in
  let b1 := step EB (ConnData cb (envelopeOf EA a send)) b in
  let copy := length (messages b) in
  (exists own, messages a1 = messages a ++ [own]
               /\ msg_id own = m /\ msg_sender own = local)
  /\ In (ConnSend ca (envelopeOf EA a send)) (wire a1)
  /\ (exists r, messages b1 = messages b ++ [r]
                /\ msg_id r = freshId EB b /\ msg_sender r = remote)
  /\ (forall data,
         isContent data = true ->
         exists r, messages (step EB (ConnData cb data) b)
                   = messages b ++ [r]
                   /\ msg_id r = freshId EB b /\ msg_sender r = remote)
  /\ (forall id id' bytes name size mimeType,
         let viaId := step EB (ConnData cb
                                 (PFile id bytes name size mimeType)) b in
         let viaId' := step EB (ConnData cb
                                  (PFile id' bytes name size mimeType)) b in
         messages viaId = messages viaId' /\ logs viaId = logs viaId'
         /\ wire viaId = wire b ++ [ConnSend cb (PAck id)])
  /\ (forall newContent,
         let b2 := step EB (ConnData cb (PEdit m newContent)) b1 in
         wire (step EA (UiEditMessage m newContent) a1)
         = wire a1 ++ [ConnSend ca (PEdit m newContent)]
         /\ (nth_error (messages b2) copy = nth_error (messages b1) copy
             <-> freshId EB b <> m)
         /\ (hasId m (messages b) = false ->
             (messages b2 = messages b1 <-> freshId EB b <> m)))
  /\ (let b2 := step EB (ConnData cb (PDelete m)) b1 in
      wire (step EA (UiDeleteMessage m) a1)
      = wire a1 ++ [ConnSend ca (PDelete m)]
      /\ (nth_error (messages b2) copy = nth_error (messages b1) copy
          <-> freshId EB b <> m)
      /\ (hasId m (messages b) = false ->
          (messages b2 = messages b1 <-> freshId EB b <> m))).
Proof.
  intros Hst Hconn Hwb Hsend m a1 b1 copy.
  assert (Ha1 : a1 = handle EA send a).
  { subst a1. apply step_send, Hsend. }
  assert (Hfile : forall id bytes name size mimeType,
             step EB (ConnData cb (PFile id bytes name size mimeType)) b
             = handle EB (ConnData cb (PFile id bytes name size mimeType)) b).
  { intros. unfold step. apply commit_quiet; simpl; rewrite Hwb;
      reflexivity. }
  assert (Hany : forall data,
             isContent data = true ->
             exists r, messages (step EB (ConnData cb data) b)
                       = messages b ++ [r]
                       /\ msg_id r = freshId EB b /\ msg_sender r = remote
                       /\ msg_isEdited r = None /\ msg_isDeleted r = None).
  { intros data Hdata. rewrite step_messages.
    destruct data; try discriminate Hdata; simpl; rewrite Hwb; simpl;
      eexists; (split; [reflexivity|]); repeat split. }
  assert (Henv : isContent (envelopeOf EA a send) = true).
  { destruct send; try discriminate Hsend; reflexivity. }
  destruct (Hany _ Henv) as (r & Hb1 & Hid & Hremote & Hed & Hdel).
  fold b1 in Hb1.
  assert (Hwb1 : is_wired cb b1 = true).
  { unfold is_wired. subst b1. rewrite step_wired.
    destruct send; try discriminate Hsend; simpl; rewrite Hwb; exact Hwb. }
  assert (Ha1c : status a1 = CONNECTED /\ connRef a1 = Some ca).
  { rewrite Ha1.
    destruct send; try discriminate Hsend; simpl;
      [unfold sendMessage | unfold sendFile];
      rewrite Hconn, Hst; simpl; rewrite Hconn; auto. }
  destruct Ha1c as [Hst1 Hconn1].
  assert (Hedit : forall newContent,
             messages (step EB (ConnData cb (PEdit m newContent)) b1)
             = map (markEdited m newContent) (messages b ++ [r])).
  { intros newContent. rewrite step_messages. simpl. rewrite Hwb1. simpl.
    rewrite Hb1. reflexivity. }
  assert (Hdelete : messages (step EB (ConnData cb (PDelete m)) b1)
                    = map (markDeleted m) (messages b ++ [r])).
  { rewrite step_messages. simpl. rewrite Hwb1. simpl. rewrite Hb1.
    reflexivity. }
  split.
  { rewrite Ha1.
    destruct send; try discriminate Hsend; simpl;
      [unfold sendMessage | unfold sendFile];
      rewrite Hconn, Hst; simpl; eexists;
      (split; [reflexivity|]); split; reflexivity. }
  split.
  { rewrite Ha1.
    destruct send; try discriminate Hsend; simpl;
      [unfold sendMessage | unfold sendFile];
      rewrite Hconn, Hst; simpl; apply in_or_app; right; left; reflexivity. }
  split; [exists r; auto|].
  split.
  { intros data Hdata.
    destruct (Hany data Hdata) as (r' & H1 & H2 & H3 & _).
    exists r'. auto. }
  split.
  { intros id id' bytes name size mimeType viaId viaId'.
    subst viaId viaId'. rewrite !Hfile. simpl. rewrite Hwb. simpl.
    repeat split. }
  split.
  { intros newContent b2. subst b2. split; [|split].
    - unfold step.
      assert (Hh : handle EA (UiEditMessage m newContent) a1
                   = set_messages
                       (map (markEdited m newContent) (messages a1))
                       (emit (ConnSend ca (PEdit m newContent)) a1)).
      { simpl. unfold handleEditMessage. rewrite Hconn1, Hst1. reflexivity. }
      rewrite Hh, commit_quiet; reflexivity.
    - rewrite Hedit, Hb1. subst copy. rewrite last_kept_iff.
      rewrite (markEdited_copy m newContent r Hed), Hid. reflexivity.
    - intros Hold. rewrite Hedit, Hb1.
      rewrite (log_kept_iff _ _ r (markEdited_absent m newContent _ Hold)).
      rewrite (markEdited_copy m newContent r Hed), Hid. reflexivity. }
  intros b2. subst b2. split; [|split].
  - unfold step.
    assert (Hh : handle EA (UiDeleteMessage m) a1
                 = set_messages (map (markDeleted m) (messages a1))
                                (emit (ConnSend ca (PDelete m)) a1)).
    { simpl. unfold handleDeleteMessage. rewrite Hconn1, Hst1. reflexivity. }
    rewrite Hh, commit_quiet; reflexivity.
  - rewrite Hdelete, Hb1. subst copy. rewrite last_kept_iff.
    rewrite (markDeleted_copy m r Hdel), Hid. reflexivity.
  - intros Hold. rewrite Hdelete, Hb1.
    rewrite (log_kept_iff _ _ r (markDeleted_absent m _ Hold)).
    rewrite (markDeleted_copy m r Hdel), Hid. reflexivity.
Qed.

End RemoteCopies.

(** C9, as first stated, fails when the two draws coincide: nothing in
    the code keeps the receiver's id apart from the sender's.  Bob runs on
    the random source Alice has.  Alice sends a text, whose copy on her
    side gets the id [m]; Bob's copy of it gets the same id from his own
    draw; the [edit] envelope Alice then emits for [m] rewrites Bob's
    copy. *)
Lemma equal_draws_edit_reaches_copy :
  let send := UiSendMessage "hello" None in
  let m := localCopyId demoEnv aliceLinked send in
  let a1 := step demoEnv send aliceLinked in
  let b1 := step demoEnv
                 (ConnData connAlice (envelopeOf demoEnv aliceLinked send))
                 bobTwin in
  let b2 := step demoEnv (ConnData connAlice (PEdit m "bye")) b1 in
  is_wired connAlice bobTwin = true
  /\ wire (step demoEnv (UiEditMessage m "bye") a1)
     = wire a1 ++ [ConnSend connBob (PEdit m "bye")]
  /\ hasId m (messages b1) = true
  /\ option_map msg_content (nth_error (messages b1) 1) = Some "hello"
  /\ option_map msg_content (nth_error (messages b2) 1) = Some "bye"
  /\ option_map msg_isEdited (nth_error (messages b2) 1) = Some (Some true)
  /\ option_map msg_sender (nth_error (messages b2) 1) = Some remote
  /\ messages b2 <> messages b1.
Proof.
  cbv zeta.
  repeat (split; [vm_compute; reflexivity|]).
  vm_compute. discriminate.
Qed.

Lemma remote_copy_has_own_id_witness :
  status aliceLinked = CONNECTED
  /\ connRef aliceLinked = Some connBob
  /\ is_wired connAlice bobLinked = true
  /\ isSend (UiSendMessage "hello" None) = true
  /\ messages
       (step bobEnv
             (ConnData connAlice
                (PDelete (localCopyId demoEnv aliceLinked
                            (UiSendMessage "hello" None))))
             (step bobEnv
                   (ConnData connAlice
                      (envelopeOf demoEnv aliceLinked
                                  (UiSendMessage "hello" None)))
                   bobLinked))
     = messages
         (step bobEnv
               (ConnData connAlice
                  (envelopeOf demoEnv aliceLinked
                              (UiSendMessage "hello" None)))
               bobLinked).
Proof.
  assert (H1 : status aliceLinked = CONNECTED) by (vm_compute; reflexivity).
  assert (H2 : connRef aliceLinked = Some connBob)
    by (vm_compute; reflexivity).
  assert (H3 : is_wired connAlice bobLinked = true)
    by (vm_compute; reflexivity).
  assert (H4 : isSend (UiSendMessage "hello" None) = true) by reflexivity.
  assert (H5 : hasId (localCopyId demoEnv aliceLinked
                                  (UiSendMessage "hello" None))
                     (messages bobLinked) = false)
    by (vm_compute; reflexivity).
  assert (H6 : freshId bobEnv bobLinked
               <> localCopyId demoEnv aliceLinked
                              (UiSendMessage "hello" None))
    by (vm_compute; discriminate).
  destruct (remote_copy_has_own_id demoEnv bobEnv aliceLinked bobLinked
              connBob connAlice (UiSendMessage "hello" None)
              H1 H2 H3 H4) as (_ & _ & _ & _ & _ & _ & _ & _ & H).
  destruct (H H5) as [_ Hkept].
  exact (conj H1 (conj H2 (conj H3 (conj H4 (Hkept H6))))).
Defined.

(** ** The session state machine *)

Section Session.

Variable E : Env.

Lemma connectToPeer_reg (self targetId : string) (outcome : ConnectOutcome)
      (s : Node) :
  desiredId (connectToPeer E self targetId outcome s) = desiredId s
  /\ isSystemOn (connectToPeer E self targetId outcome s) = isSystemOn s.
Proof.
  unfold connectToPeer. destruct (peerRef s); [|auto].
  destruct (status_eqb (statusRef s) CONNECTED); [auto|].
  destruct (String.eqb targetId self); [auto|].
  destruct outcome; auto.
Qed.

(** Only an identity change and the power switch touch the deps of the
    registration effect. *)
Lemma handle_reg (e : Event) (s : Node) :
  reregisters e = false ->
  desiredId (handle E e s) = desiredId s
  /\ isSystemOn (handle E e s) = isSystemOn s.
Proof.
  intros He.
  destruct e as [targetId outcome| |newId| |isTyping|rendered isTyping
                 |content replyTo|id newContent|id|f| | |outcome|id|conn
                 |p errType message|conn|conn data|conn|conn message];
    simpl; try discriminate He; auto.
  - apply connectToPeer_reg.
  - unfold disconnect. destruct (connRef s); auto.
  - unfold handleTyping. destruct (connRef s); auto.
    destruct (status_eqb _ CONNECTED); auto.
  - unfold handleTyping. destruct (connRef s); auto.
    destruct (status_eqb _ CONNECTED); auto.
  - unfold sendMessage. destruct (connRef s); auto.
    destruct (status_eqb (status s) CONNECTED); auto.
  - unfold handleEditMessage. destruct (connRef s); auto.
    destruct (status_eqb (status s) CONNECTED); auto.
  - unfold handleDeleteMessage. destruct (connRef s); auto.
    destruct (status_eqb (status s) CONNECTED); auto.
  - unfold sendFile. destruct (connRef s); auto.
    destruct (status_eqb (status s) CONNECTED); auto.
  - destruct (urlTimer s) as [[targetId self]|]; auto.
    apply (connectToPeer_reg self targetId outcome (set_urlTimer None s)).
  - unfold onPeerConnection. destruct (connRef s); auto.
  - unfold onPeerError.
    destruct (String.eqb errType "unavailable-id"); auto.
  - destruct (is_wired conn s); auto.
  - destruct (is_wired conn s); auto. destruct data; auto.
  - destruct (is_wired conn s); auto.
  - destruct (is_wired conn s); auto.
Qed.

Lemma urlEffect_cells (st : ConnectionStatus) (self : string) (s : Node) :
  peerId (urlEffect E st self s) = peerId s
  /\ peerRef (urlEffect E st self s) = peerRef s
  /\ isRemoteTyping (urlEffect E st self s) = isRemoteTyping s
  /\ statusRef (urlEffect E st self s) = statusRef s.
Proof.
  unfold urlEffect.
  destruct (status_eqb st READY && negb (urlParamsProcessed s)); auto.
  destruct (urlConnect E) as [t|]; auto.
  destruct (truthy t); simpl; auto.
Qed.

(** A render after which the registration effect does not run: the URL
    effect may log and arm its timer, [statusRef] follows [status], and the
    other cells are those the handler left. *)
Lemma commit_noreg (prev s : Node) :
  desiredId prev = desiredId s -> isSystemOn prev = isSystemOn s ->
  status (commit E prev s) = status s
  /\ peerId (commit E prev s) = peerId s
  /\ peerRef (commit E prev s) = peerRef s
  /\ isRemoteTyping (commit E prev s) = isRemoteTyping s
  /\ wire (commit E prev s) = wire s
  /\ (statusRef prev = status prev -> statusRef s = statusRef prev ->
      statusRef (commit E prev s) = status s).
Proof.
  intros Hd Hon. unfold commit. rewrite Hd, Hon.
  rewrite String.eqb_refl, Bool.eqb_reflx. simpl.
  set (s1 := if negb (status_eqb (status prev) (status s))
             then syncStatusRef (status s) s else s).
  assert (H1 : status s1 = status s /\ peerId s1 = peerId s
               /\ peerRef s1 = peerRef s
               /\ isRemoteTyping s1 = isRemoteTyping s
               /\ wire s1 = wire s
               /\ (statusRef prev = status prev ->
                   statusRef s = statusRef prev -> statusRef s1 = status s)).
  { subst s1. destruct (status_eqb (status prev) (status s)) eqn:Hsame;
      simpl; repeat split; auto.
    apply status_eqb_eq in Hsame. congruence. }
  clearbody s1. destruct H1 as (H1a & H1b & H1c & H1d & H1e & H1f).
  set (s3 := if _ : bool then urlEffect E (status s) (peerId s) s1 else s1).
  assert (H3 : status s3 = status s /\ peerId s3 = peerId s
               /\ peerRef s3 = peerRef s
               /\ isRemoteTyping s3 = isRemoteTyping s
               /\ wire s3 = wire s
               /\ statusRef s3 = statusRef s1).
  { subst s3. destruct (_ || _); [|repeat split; assumption].
    destruct (urlEffect_frame E (status s) (peerId s) s1)
      as (_ & _ & _ & -> & ->).
    destruct (urlEffect_cells (status s) (peerId s) s1)
      as (-> & -> & -> & ->).
    repeat split; assumption. }
  clearbody s3. destruct H3 as (H3a & H3b & H3c & H3d & H3e & H3f).
  rewrite H3a, status_eqb_refl. simpl.
  repeat split; try assumption. intros. rewrite H3f. auto.
Qed.

Lemma step_noreg (e : Event) (s : Node) :
  reregisters e = false ->
  status (step E e s) = status (handle E e s)
  /\ peerId (step E e s) = peerId (handle E e s)
  /\ peerRef (step E e s) = peerRef (handle E e s)
  /\ isRemoteTyping (step E e s) = isRemoteTyping (handle E e s)
  /\ wire (step E e s) = wire (handle E e s).
Proof.
  intros He. destruct (handle_reg e s He) as [Hd Hon].
  destruct (commit_noreg s (handle E e s) (eq_sym Hd) (eq_sym Hon))
    as (H1 & H2 & H3 & H4 & H5 & _).
  unfold step. repeat split; assumption.
Qed.

Lemma connectToPeer_statusRef (self targetId : string)
      (outcome : ConnectOutcome) (s : Node) :
  statusRef (connectToPeer E self targetId outcome s) = statusRef s.
Proof.
  unfold connectToPeer. destruct (peerRef s); [|reflexivity].
  destruct (status_eqb (statusRef s) CONNECTED); [reflexivity|].
  destruct (String.eqb targetId self); [reflexivity|].
  destruct outcome; reflexivity.
Qed.

(** No handler writes [statusRef]: only the effect of the render does. *)
Lemma handle_statusRef (e : Event) (s : Node) :
  statusRef (handle E e s) = statusRef s.
Proof.
  destruct e as [targetId outcome| |newId| |isTyping|rendered isTyping
                 |content replyTo|id newContent|id|f| | |outcome|id|conn
                 |p errType message|conn|conn data|conn|conn message];
    simpl; try reflexivity.
  - apply connectToPeer_statusRef.
  - unfold disconnect. destruct (connRef s); reflexivity.
  - unfold handleIdentityChange.
    destruct (String.eqb newId (peerId s)); reflexivity.
  - unfold togglePower. destruct (isSystemOn s); [|reflexivity].
    simpl. destruct (peerRef s); reflexivity.
  - unfold handleTyping. destruct (connRef s); [|reflexivity].
    destruct (status_eqb _ CONNECTED); reflexivity.
  - unfold handleTyping. destruct (connRef s); [|reflexivity].
    destruct (status_eqb _ CONNECTED); reflexivity.
  - unfold sendMessage. destruct (connRef s); [|reflexivity].
    destruct (status_eqb (status s) CONNECTED); reflexivity.
  - unfold handleEditMessage. destruct (connRef s); [|reflexivity].
    destruct (status_eqb (status s) CONNECTED); reflexivity.
  - unfold handleDeleteMessage. destruct (connRef s); [|reflexivity].
    destruct (status_eqb (status s) CONNECTED); reflexivity.
  - unfold sendFile. destruct (connRef s); [|reflexivity].
    destruct (status_eqb (status s) CONNECTED); reflexivity.
  - destruct (urlTimer s) as [[targetId self]|]; [|reflexivity].
    rewrite connectToPeer_statusRef. reflexivity.
  - unfold onPeerConnection. destruct (connRef s); reflexivity.
  - unfold onPeerError.
    destruct (String.eqb errType "unavailable-id"); reflexivity.
  - destruct (is_wired conn s); reflexivity.
  - destruct (is_wired conn s); [|reflexivity]. destruct data; reflexivity.
  - destruct (is_wired conn s); reflexivity.
  - destruct (is_wired conn s); reflexivity.
Qed.

(** After every event that does not re-register, [statusRef] is the
    status again. *)
Lemma step_statusRef (e : Event) (s : Node) :
  reregisters e = false -> statusRef s = status s ->
  statusRef (step E e s) = status (step E e s).
Proof.
  intros He Href. destruct (handle_reg e s He) as [Hd Hon].
  destruct (commit_noreg s (handle E e s) (eq_sym Hd) (eq_sym Hon))
    as (Hst & _ & _ & _ & _ & Hsync).
  unfold step. rewrite Hst. apply Hsync; [exact Href|].
  apply handle_statusRef.
Qed.

End Session.

(** ** Invariants of the reachable states *)

Section Invariants.

Variable E : Env.

Lemma registrationEffect_statusRef (s : Node) :
  statusRef (registrationEffect E s) = statusRef s.
Proof.
  unfold registrationEffect.
  destruct (cleanupPeer s); simpl; destruct (isSystemOn s); simpl;
    destruct (peerRef s); reflexivity.
Qed.

Lemma registrationEffect_status (s : Node) :
  status (registrationEffect E s)
  = if isSystemOn s then INITIALIZING else status s.
Proof.
  unfold registrationEffect.
  destruct (cleanupPeer s); simpl; destruct (isSystemOn s); simpl;
    destruct (peerRef s); reflexivity.
Qed.

(** After the effects of a render, [statusRef] is the status. *)
Lemma commit_statusRef (prev s : Node) :
  statusRef prev = status prev -> statusRef s = statusRef prev ->
  statusRef (commit E prev s) = status (commit E prev s).
Proof.
  intros Hprev Hs. unfold commit.
  set (s1 := if negb (status_eqb (status prev) (status s))
             then syncStatusRef (status s) s else s).
  assert (H1 : statusRef s1 = status s /\ status s1 = status s).
  { subst s1. destruct (status_eqb (status prev) (status s)) eqn:Hsame;
      simpl; [|auto].
    apply status_eqb_eq in Hsame. split; congruence. }
  clearbody s1. destruct H1 as [H1r H1s].
  set (s2 := if _ : bool then registrationEffect E s1 else s1).
  assert (H2 : statusRef s2 = status s).
  { subst s2. destruct (_ || _); [|exact H1r].
    rewrite registrationEffect_statusRef. exact H1r. }
  clearbody s2.
  set (s3 := if _ : bool then urlEffect E (status s) (peerId s) s2 else s2).
  assert (H3 : statusRef s3 = status s).
  { subst s3. destruct (_ || _); [|exact H2].
    destruct (urlEffect_cells E (status s) (peerId s) s2)
      as (_ & _ & _ & ->). exact H2. }
  clearbody s3.
  destruct (status_eqb (status s) (status s3)) eqn:Hsame; simpl.
  - apply status_eqb_eq in Hsame. congruence.
  - reflexivity.
Qed.

Lemma step_statusRef_any (e : Event) (s : Node) :
  statusRef s = status s -> statusRef (step E e s) = status (step E e s).
Proof.
  intros H. unfold step. apply commit_statusRef; [exact H|].
  apply handle_statusRef.
Qed.

Lemma mountEffects_cells (s : Node) :
  connRef (mountEffects E s) = connRef s
  /\ wired (mountEffects E s) = wired s
  /\ statusRef (mountEffects E s) = status (mountEffects E s)
  /\ (isSystemOn s = true -> cleanupPeer s = None -> peerRef s = None ->
      peerRef (mountEffects E s) = Some (MkPeer (peerSerial s) (desiredId s))
      /\ peerId (mountEffects E s) = EmptyString).
Proof.
  unfold mountEffects.
  set (s1 := syncStatusRef (status s) s).
  assert (H1 : connRef s1 = connRef s /\ wired s1 = wired s
               /\ statusRef s1 = status s)
    by (split; [|split]; reflexivity).
  set (s2 := registrationEffect E s1).
  assert (H2 : connRef s2 = connRef s /\ wired s2 = wired s
               /\ statusRef s2 = status s
               /\ (isSystemOn s = true -> cleanupPeer s = None ->
                   peerRef s = None ->
                   peerRef s2 = Some (MkPeer (peerSerial s) (desiredId s))
                   /\ peerId s2 = EmptyString)).
  { destruct H1 as (H1c & H1w & H1r).
    destruct (registrationEffect_frame E s1) as (_ & Hc & Hw).
    fold s2 in Hc, Hw. rewrite Hc, Hw.
    split; [exact H1c|]. split; [exact H1w|]. split.
    - subst s2. rewrite registrationEffect_statusRef. exact H1r.
    - intros Hon Hcl Hp. subst s2 s1. unfold registrationEffect. simpl.
      rewrite Hcl. simpl. rewrite Hon, Hp. split; reflexivity. }
  clearbody s2. clear s1 H1.
  set (s3 := urlEffect E (status s) (peerId s) s2).
  assert (H3 : connRef s3 = connRef s /\ wired s3 = wired s
               /\ statusRef s3 = status s
               /\ (isSystemOn s = true -> cleanupPeer s = None ->
                   peerRef s = None ->
                   peerRef s3 = Some (MkPeer (peerSerial s) (desiredId s))
                   /\ peerId s3 = EmptyString)).
  { subst s3.
    destruct (urlEffect_frame E (status s) (peerId s) s2)
      as (_ & -> & -> & _).
    destruct (urlEffect_cells E (status s) (peerId s) s2)
      as (-> & -> & _ & ->).
    exact H2. }
  clearbody s3. clear H2 s2. destruct H3 as (H3c & H3w & H3r & H3p).
  destruct (status_eqb (status s) (status s3)) eqn:Hsame; simpl.
  - apply status_eqb_eq in Hsame.
    split; [exact H3c|]. split; [exact H3w|]. split; [congruence|exact H3p].
  - split; [exact H3c|]. split; [exact H3w|]. split; [reflexivity|exact H3p].
Qed.

Lemma mount_statusRef (stored : option string) :
  statusRef (mount E stored) = status (mount E stored).
Proof. unfold mount. apply mountEffects_cells. Qed.

Lemma mount_link (stored : option string) :
  connRef (mount E stored) = None /\ wired (mount E stored) = [].
Proof.
  unfold mount.
  destruct (mountEffects_cells (initial E stored)) as (-> & -> & _).
  split; reflexivity.
Qed.

Lemma mount_peer (id : string) :
  truthy id = true ->
  peerRef (mount E (Some id)) = Some (MkPeer 0 id)
  /\ peerId (mount E (Some id)) = EmptyString.
Proof.
  intros Hid. unfold mount.
  destruct (mountEffects_cells (initial E (Some id))) as (_ & _ & _ & Hp).
  assert (Hd : desiredId (initial E (Some id)) = id)
    by (unfold initial; rewrite Hid; reflexivity).
  rewrite Hd in Hp. apply Hp; reflexivity.
Qed.

(** At every event a handler reads [statusRef] it finds the status. *)
Lemma reachable_statusRef (s : Node) :
  reachable E s -> statusRef s = status s.
Proof.
  induction 1 as [stored|e s _ IH].
  - apply mount_statusRef.
  - apply step_statusRef_any, IH.
Qed.

Lemma link_keep (s s' : Node) :
  connRef s' = connRef s -> wired s' = wired s -> linkStep s s'.
Proof. intros; left; split; assumption. Qed.

Lemma link_drop (s s' : Node) :
  connRef s' = None -> wired s' = wired s -> linkStep s s'.
Proof. intros; right; left; split; assumption. Qed.

Lemma link_take (s s' : Node) (c : DataConnection) :
  connRef s' = Some c -> wired s' = c :: wired s -> linkStep s s'.
Proof. intros; right; right; exists c; split; assumption. Qed.

Lemma connectToPeer_link (self targetId : string) (outcome : ConnectOutcome)
      (s : Node) :
  linkStep s (connectToPeer E self targetId outcome s).
Proof.
  unfold connectToPeer. destruct (peerRef s); [|apply link_keep; reflexivity].
  destruct (status_eqb (statusRef s) CONNECTED);
    [apply link_keep; reflexivity|].
  destruct (String.eqb targetId self); [apply link_keep; reflexivity|].
  destruct outcome as [conn|message];
    [apply (link_take _ _ conn) | apply link_keep]; reflexivity.
Qed.

Lemma handle_link (e : Event) (s : Node) : linkStep s (handle E e s).
Proof.
  destruct e as [targetId outcome| |newId| |isTyping|rendered isTyping
                 |content replyTo|id newContent|id|f| | |outcome|id|conn
                 |p errType message|conn|conn data|conn|conn message];
    cbn [handle].
  - apply connectToPeer_link.
  - unfold disconnect. destruct (connRef s) eqn:Hc;
      [apply link_drop | apply link_keep]; reflexivity.
  - unfold handleIdentityChange.
    destruct (String.eqb newId (peerId s)); apply link_keep; reflexivity.
  - unfold togglePower.
    destruct (isSystemOn s); [|apply link_keep; reflexivity].
    cbn zeta. destruct (peerRef (set_peerId _ _)); apply link_drop;
      reflexivity.
  - unfold handleTyping.
    destruct (connRef s) eqn:Hc; [|apply link_keep; reflexivity].
    destruct (status_eqb _ CONNECTED); apply link_keep; reflexivity.
  - unfold handleTyping.
    destruct (connRef s) eqn:Hc; [|apply link_keep; reflexivity].
    destruct (status_eqb _ CONNECTED); apply link_keep; reflexivity.
  - unfold sendMessage.
    destruct (connRef s) eqn:Hc; [|apply link_keep; reflexivity].
    destruct (status_eqb (status s) CONNECTED); apply link_keep; reflexivity.
  - unfold handleEditMessage.
    destruct (connRef s) eqn:Hc; [|apply link_keep; reflexivity].
    destruct (status_eqb (status s) CONNECTED); apply link_keep; reflexivity.
  - unfold handleDeleteMessage.
    destruct (connRef s) eqn:Hc; [|apply link_keep; reflexivity].
    destruct (status_eqb (status s) CONNECTED); apply link_keep; reflexivity.
  - unfold sendFile.
    destruct (connRef s) eqn:Hc; [|apply link_keep; reflexivity].
    destruct (status_eqb (status s) CONNECTED); apply link_keep; reflexivity.
  - apply link_keep; reflexivity.
  - apply link_keep; reflexivity.
  - destruct (urlTimer s) as [[targetId self]|];
      [|apply link_keep; reflexivity].
    exact (connectToPeer_link self targetId outcome (set_urlTimer None s)).
  - apply link_keep; reflexivity.
  - unfold onPeerConnection. destruct (connRef s) eqn:Hc;
      [apply link_keep | apply (link_take _ _ conn)]; reflexivity.
  - unfold onPeerError.
    destruct (String.eqb errType "unavailable-id"); apply link_keep;
      reflexivity.
  - destruct (is_wired conn s); apply link_keep; reflexivity.
  - destruct (is_wired conn s); [|apply link_keep; reflexivity].
    destruct data; apply link_keep; reflexivity.
  - destruct (is_wired conn s); [apply link_drop | apply link_keep];
      reflexivity.
  - destruct (is_wired conn s); apply link_keep; reflexivity.
Qed.

Lemma conn_same_refl (c : DataConnection) : conn_same c c = true.
Proof. apply Nat.eqb_refl. Qed.

(** The handle always is a connection with handlers installed. *)
Lemma reachable_handle_wired (s : Node) (c : DataConnection) :
  reachable E s -> connRef s = Some c -> is_wired c s = true.
Proof.
  intros Hr. revert c. induction Hr as [stored|e s _ IH]; intros c Hc.
  - destruct (mount_link stored) as [Hnone _]. congruence.
  - unfold is_wired. rewrite step_connRef in Hc. rewrite step_wired.
    destruct (handle_link e s) as [[Hk Hw]|[[Hk Hw]|(c' & Hk & Hw)]];
      rewrite Hw; rewrite Hk in Hc.
    + apply IH, Hc.
    + discriminate Hc.
    + injection Hc as <-. simpl. rewrite conn_same_refl. reflexivity.
Qed.

End Invariants.

Section Transitions.

Variable E : Env.



End Transitions.





(** ** A handle that outlives its channel *)

Section StaleHandle.

Variable E : Env.

Lemma connectToPeer_holds (self targetId : string)
      (outcome : ConnectOutcome) (s : Node) :
  connRef s <> None ->
  connRef (connectToPeer E self targetId outcome s) <> None.
Proof.
  intros H. unfold connectToPeer. destruct (peerRef s); [|exact H].
  destruct (status_eqb (statusRef s) CONNECTED); [exact H|].
  destruct (String.eqb targetId self); [exact H|].
  destruct outcome; simpl; [discriminate | exact H].
Qed.

(** No handler but those of [close], [disconnect] and the power switch
    gives the handle up. *)
Lemma handle_holds (e : Event) (s : Node) :
  releases e = false -> connRef s <> None ->
  connRef (handle E e s) <> None.
Proof.
  intros He H.
  destruct e as [targetId outcome| |newId| |isTyping|rendered isTyping
                 |content replyTo|id newContent|id|f| | |outcome|id|conn
                 |p errType message|conn|conn data|conn|conn message];
    simpl; try discriminate He; try exact H.
  - apply connectToPeer_holds, H.
  - unfold handleIdentityChange.
    destruct (String.eqb newId (peerId s)); exact H.
  - unfold handleTyping. destruct (connRef s) eqn:Hc; [|congruence].
    destruct (status_eqb _ CONNECTED); simpl; congruence.
  - unfold handleTyping. destruct (connRef s) eqn:Hc; [|congruence].
    destruct (status_eqb _ CONNECTED); simpl; congruence.
  - unfold sendMessage. destruct (connRef s) eqn:Hc; [|congruence].
    destruct (status_eqb (status s) CONNECTED); simpl; congruence.
  - unfold handleEditMessage. destruct (connRef s) eqn:Hc; [|congruence].
    destruct (status_eqb (status s) CONNECTED); simpl; congruence.
  - unfold handleDeleteMessage. destruct (connRef s) eqn:Hc; [|congruence].
    destruct (status_eqb (status s) CONNECTED); simpl; congruence.
  - unfold sendFile. destruct (connRef s) eqn:Hc; [|congruence].
    destruct (status_eqb (status s) CONNECTED); simpl; congruence.
  - destruct (urlTimer s) as [[targetId self]|]; [|exact H].
    apply connectToPeer_holds. exact H.
  - unfold onPeerConnection. destruct (connRef s) eqn:Hc; simpl; congruence.
  - unfold onPeerError.
    destruct (String.eqb errType "unavailable-id"); exact H.
  - destruct (is_wired conn s); exact H.
  - destruct (is_wired conn s); [|exact H]. destruct data; exact H.
  - destruct (is_wired conn s); exact H.
Qed.

Lemma run_holds (es : list Event) (s : Node) :
  forallb (fun e => negb (releases e)) es = true ->
  connRef s <> None -> connRef (run E es s) <> None.
Proof.
  revert s. induction es as [|e es IH]; intros s Hes H; simpl; [exact H|].
  simpl in Hes. apply andb_true_iff in Hes as [He Hes].
  apply negb_true_iff in He. apply IH; [exact Hes|].
  rewrite step_connRef. apply handle_holds; assumption.
Qed.

Lemma offer_while_held (offer : DataConnection) (s : Node) :
  connRef s <> None ->
  step E (PeerConnection offer) s
  = addLog E "Rejected concurrent connection attempt" warning
           (emit (ConnClose offer) s).
Proof.
  intros H. unfold step. simpl. unfold onPeerConnection.
  destruct (connRef s); [|congruence]. apply commit_quiet; reflexivity.
Qed.

Lemma peer_open_ready (id : string) (s : Node) :
  statusRef s = status s ->
  let s' := step E (PeerOpen id) s in
  status s' = READY /\ statusRef s' = READY /\ peerId s' = id
  /\ peerRef s' = peerRef s.
Proof.
  intros Href s'.
  destruct (step_noreg E (PeerOpen id) s eq_refl) as (Hst & Hid & Hp & _).
  pose proof (step_statusRef E (PeerOpen id) s eq_refl Href) as Hr.
  fold s' in Hst, Hid, Hp, Hr. rewrite Hr, Hst, Hid, Hp.
  repeat split.
Qed.

Lemma connect_takes_handle (targetId : string) (conn : DataConnection)
      (p : Peer) (s : Node) :
  peerRef s = Some p -> statusRef s <> CONNECTED -> targetId <> peerId s ->
  let s' := step E (UiConnect targetId (Returned conn)) s in
  connRef s' = Some conn /\ is_wired conn s' = true.
Proof.
  intros Hp Hst Hself s'.
  apply status_eqb_neq in Hst. apply String.eqb_neq in Hself.
  assert (Hh : handle E (UiConnect targetId (Returned conn)) s
               = setupConnection conn
                   (emit (PeerConnect p targetId)
                      (set_status CONNECTING
                         (addLog E ("Initiating handshake with " ++ targetId
                                      ++ "...") info s)))).
  { cbn [handle]. unfold connectToPeer. rewrite Hp, Hst, Hself.
    reflexivity. }
  subst s'. unfold is_wired. rewrite step_connRef, step_wired, Hh.
  cbn [setupConnection set_wired set_connRef wired connRef existsb].
  unfold conn_same. rewrite Nat.eqb_refl. split; reflexivity.
Qed.

Lemma error_keeps_handle (conn : DataConnection) (message : string)
      (s : Node) :
  is_wired conn s = true ->
  let s' := step E (ConnError conn message) s in
  status s' = READY /\ isRemoteTyping s' = false /\ connRef s' = connRef s.
Proof.
  intros Hw s'.
  destruct (step_noreg E (ConnError conn message) s eq_refl)
    as (Hst & _ & _ & Hty & _).
  fold s' in Hst, Hty. subst s'.
  rewrite Hst, Hty, step_connRef. cbn [handle]. rewrite Hw.
  split; [reflexivity | split; reflexivity].
Qed.

(** A state with status [READY] and a held handle, reached from the mount:
    register, connect out, and let the channel fail. *)
Lemma faulted_reachable :
  let c := MkConn 0 "B" in
  let s := run E [PeerOpen "A"; UiConnect "B" (Returned c); ConnError c "x"]
               (mount E (Some "A")) in
  status s = READY /\ connRef s = Some c.
Proof.
  intros c s.
  destruct (mount_peer E "A" eq_refl) as (Hp0 & _).
  pose proof (mount_statusRef E (Some "A")) as Hr0.
  destruct (peer_open_ready "A" (mount E (Some "A")) Hr0)
    as (_ & Hr1 & Hid1 & Hp1).
  rewrite Hp0 in Hp1.
  destruct (connect_takes_handle "B" c (MkPeer 0 "A")
              (step E (PeerOpen "A") (mount E (Some "A"))))
    as (Hc2 & Hw2).
  { exact Hp1. }
  { rewrite Hr1. discriminate. }
  { rewrite Hid1. discriminate. }
  destruct (error_keeps_handle c "x" _ Hw2) as (Hst3 & _ & Hc3).
  split; [exact Hst3|]. unfold s. cbn [run]. rewrite Hc3. exact Hc2.
Qed.

(** C10, as the code has it.  The [error] handler of a channel sets the
    status to [READY] and clears the remote-typing flag but keeps the
    channel handle, so a [READY] state with a held handle is reachable.
    While the handle is held, over every run without a [close] event, a
    manual disconnect or a power switch, the handle stays held and every
    inbound offer is closed and rejected.  Each of those three gives the
    handle up. *)
Theorem stale_handle_rejects_offers :
  (forall conn message s,
      is_wired conn s = true ->
      let s' := step E (ConnError conn message) s in
      status s' = READY /\ isRemoteTyping s' = false
      /\ connRef s' = connRef s)
  /\ (exists stored es,
         let s := run E es (mount E stored) in
         status s = READY /\ connRef s <> None)
  /\ (forall es offer s,
         connRef s <> None ->
         forallb (fun e => negb (releases e)) es = true ->
         let s' := run E es s in
         connRef s' <> None
         /\ wire (step E (PeerConnection offer) s')
            = wire s' ++ [ConnClose offer]
         /\ connRef (step E (PeerConnection offer) s') = connRef s'
         /\ wired (step E (PeerConnection offer) s') = wired s'
         /\ status (step E (PeerConnection offer) s') = status s')
  /\ (forall s,
         (forall conn, is_wired conn s = true ->
                       connRef (step E (ConnClosed conn) s) = None)
         /\ connRef (step E UiDisconnect s) = None
         /\ (isSystemOn s = true -> connRef (step E UiTogglePower s) = None)).
Proof.
  split; [|split; [|split]].
  - intros conn message s Hw. apply error_keeps_handle, Hw.
  - exists (Some "A"),
      [PeerOpen "A"; UiConnect "B" (Returned (MkConn 0 "B"));
       ConnError (MkConn 0 "B") "x"].
    destruct faulted_reachable as [Hst Hc]. split; [exact Hst|].
    rewrite Hc. discriminate.
  - intros es offer s Hheld Hes s'.
    assert (Hs' : connRef s' <> None) by (apply run_holds; assumption).
    split; [exact Hs'|]. rewrite (offer_while_held offer s' Hs').
    repeat split.
  - intros s. split; [|split].
    + intros conn Hw. rewrite step_connRef. simpl. rewrite Hw. reflexivity.
    + rewrite step_connRef. simpl. unfold disconnect.
      destruct (connRef s) eqn:Hc; [reflexivity | exact Hc].
    + intros Hon. rewrite step_connRef. simpl. unfold togglePower.
      rewrite Hon. reflexivity.
Qed.

End StaleHandle.

(** C10, as first stated, fails on one point: an identity change does not
    give the handle up.  After a channel error Alice is [READY] with the
    handle of the failed channel; she takes the identity NEO and is
    registered again; the handle is still the old one, and an offer to
    NEO is closed as concurrent. *)
Lemma identity_change_keeps_handle :
  status aliceFaulted = READY
  /\ connRef aliceFaulted = Some connBob
  /\ status aliceRenamed = READY
  /\ peerId aliceRenamed = "NEO"
  /\ connRef aliceRenamed = Some connBob
  /\ wire (step demoEnv (PeerConnection connEve) aliceRenamed)
     = wire aliceRenamed ++ [ConnClose connEve]
  /\ connRef (step demoEnv (PeerConnection connEve) aliceRenamed)
     = Some connBob.
Proof. vm_compute. repeat split. Qed.

Lemma stale_handle_rejects_offers_witness :
  connRef aliceFaulted <> None
  /\ wire (step demoEnv (PeerConnection connEve)
                (run demoEnv [UiSendMessage "anyone?" None; PeerOpen "ALICE"]
                     aliceFaulted))
     = wire (run demoEnv [UiSendMessage "anyone?" None; PeerOpen "ALICE"]
                 aliceFaulted)
       ++ [ConnClose connEve].
Proof.
  assert (H : connRef aliceFaulted <> None) by (vm_compute; discriminate).
  destruct (stale_handle_rejects_offers demoEnv) as (_ & _ & Hsafe & _).
  destruct (Hsafe [UiSendMessage "anyone?" None; PeerOpen "ALICE"] connEve
                  aliceFaulted H eq_refl) as (_ & Hw & _).
  exact (conj H Hw).
Defined.

(** * Further properties *)

(** ** Message records over a run *)

Lemma touches_refl (e : Event) (m : Message) : touches e m m.
Proof.
  split; [repeat split|]. split; [split; left; reflexivity|].
  split; left; reflexivity.
Qed.

Lemma markDelivered_touches (e : Event) (messageId : string) (m : Message) :
  touches e m (markDelivered messageId m).
Proof.
  unfold markDelivered.
  destruct (String.eqb (msg_id m) messageId); [|apply touches_refl].
  split; [repeat split|]. split; [split; left; reflexivity|].
  split; [left; reflexivity | right; reflexivity].
Qed.

Lemma markDeleted_touches (e : Event) (messageId : string) (m : Message) :
  touches e m (markDeleted messageId m).
Proof.
  unfold markDeleted.
  destruct (String.eqb (msg_id m) messageId); [|apply touches_refl].
  split; [repeat split|].
  split; [split; [right | left]; reflexivity|].
  split; left; reflexivity.
Qed.

Lemma markEdited_touches (e : Event) (messageId content : string)
      (m : Message) :
  editsContent messageId e = true ->
  touches e m (markEdited messageId content m).
Proof.
  intros He. unfold markEdited.
  destruct (String.eqb (msg_id m) messageId) eqn:Hm; [|apply touches_refl].
  apply String.eqb_eq in Hm.
  split; [repeat split|].
  split; [split; [left | right]; reflexivity|].
  split; [right | left; reflexivity].
  rewrite Hm. exact He.
Qed.

Lemma touched_kept (e : Event) (l : list Message) : logTouched e l l.
Proof.
  exists (fun m => m), []. rewrite map_id, app_nil_r.
  split; [reflexivity | split; [apply touches_refl | intros m []]].
Qed.

Lemma touched_grown (e : Event) (l : list Message) (m : Message) :
  wfMessage m -> logTouched e l (l ++ [m]).
Proof.
  intros Hm. exists (fun m => m), [m]. rewrite map_id.
  split; [reflexivity | split; [apply touches_refl|]].
  intros m' [<-|[]]. exact Hm.
Qed.

Lemma touched_mapped (e : Event) (l : list Message)
      (f : Message -> Message) :
  (forall m, touches e m (f m)) -> logTouched e l (map f l).
Proof.
  intros Hf. exists f, []. rewrite app_nil_r.
  split; [reflexivity | split; [exact Hf | intros m []]].
Qed.

(** The five kinds of record the handlers create. *)
Lemma wf_system (id content : string) (ts : Z) :
  wfMessage (MkMessage id system None content ts text None None None None
                       None).
Proof.
  unfold wfMessage. simpl.
  repeat split; try discriminate; try congruence.
Qed.

Lemma wf_local_text (id self content : string) (ts : Z)
      (replyTo : option ReplyContext) :
  wfMessage (MkMessage id local (Some self) content ts text None (Some sent)
                       replyTo None None).
Proof.
  unfold wfMessage. simpl.
  repeat split; try discriminate; try congruence.
Qed.

Lemma wf_remote_text (id from content : string) (ts : Z)
      (replyTo : option ReplyContext) :
  wfMessage (MkMessage id remote (Some from) content ts text None None
                       replyTo None None).
Proof.
  unfold wfMessage. simpl.
  repeat split; try discriminate; try congruence.
Qed.

Lemma wf_file (id from content name mimeType url : string) (ts size : Z)
      (who : Sender) (st : option MessageStatus) :
  who <> system -> (who = local -> st = Some sending) ->
  (who <> local -> st = None) ->
  wfMessage (MkMessage id who (Some from) content ts file
                       (Some (MkFileMeta name size mimeType (Some url)))
                       st None None None).
Proof.
  intros Hsys Hloc Hrem. unfold wfMessage. simpl.
  split; [intros _; eexists; split; [reflexivity | discriminate]|].
  split; [discriminate|]. split; [contradiction|].
  split; [discriminate|].
  split.
  { intros Hst. split; [|reflexivity].
    destruct who; [reflexivity | rewrite Hrem in Hst by discriminate
                  | contradiction]; discriminate. }
  split.
  { intros Hst. destruct who;
      [rewrite Hloc in Hst by reflexivity
      | rewrite Hrem in Hst by discriminate | contradiction];
      discriminate. }
  intros ->. rewrite Hloc by reflexivity. discriminate.
Qed.

Lemma touches_wf (e : Event) (m m' : Message) :
  wfMessage m -> touches e m m' -> wfMessage m'.
Proof.
  intros (W1 & W2 & W3 & W4 & W5 & W6 & W7)
         ((_ & Hs & Hi & _ & Ht & Hf & Hr) & _ & _ & Hst).
  unfold wfMessage. rewrite Hs, Hi, Ht, Hf, Hr.
  split; [exact W1|]. split; [exact W2|]. split; [exact W3|].
  split; [exact W4|].
  split; [intros H; destruct Hst as [Hk|Hk]; rewrite Hk in H;
          [exact (W5 H) | discriminate]|].
  split; [intros H; destruct Hst as [Hk|Hk]; rewrite Hk in H;
          [exact (W6 H) | discriminate]|].
  intros Hl. destruct Hst as [Hk|Hk]; rewrite Hk; [exact (W7 Hl)|].
  discriminate.
Qed.

Section Records.

Variable E : Env.

Lemma handle_logTouched (e : Event) (s : Node) :
  isClearChat e = false ->
  logTouched e (messages s) (messages (handle E e s)).
Proof.
  intros Hclear.
  destruct e as [targetId outcome| |newId| |isTyping|rendered isTyping
                 |content replyTo|id newContent|id|f| | |outcome|id|conn
                 |p errType message|conn|conn data|conn|conn message];
    cbn [handle]; try discriminate Hclear.
  - rewrite connectToPeer_messages. apply touched_kept.
  - unfold disconnect. destruct (connRef s); apply touched_kept.
  - unfold handleIdentityChange.
    destruct (String.eqb newId (peerId s)); apply touched_kept.
  - unfold togglePower. destruct (isSystemOn s); [|apply touched_kept].
    cbn zeta. destruct (peerRef (set_peerId _ _)); apply touched_grown;
      apply wf_system.
  - unfold handleTyping. destruct (connRef s); [|apply touched_kept].
    destruct (status_eqb _ CONNECTED); apply touched_kept.
  - unfold handleTyping. destruct (connRef s); [|apply touched_kept].
    destruct (status_eqb _ CONNECTED); apply touched_kept.
  - unfold sendMessage. destruct (connRef s); [|apply touched_kept].
    destruct (status_eqb (status s) CONNECTED); [|apply touched_kept].
    apply touched_grown, wf_local_text.
  - unfold handleEditMessage. destruct (connRef s); [|apply touched_kept].
    destruct (status_eqb (status s) CONNECTED); [|apply touched_kept].
    apply touched_mapped. intros m. apply markEdited_touches.
    apply String.eqb_refl.
  - unfold handleDeleteMessage. destruct (connRef s); [|apply touched_kept].
    destruct (status_eqb (status s) CONNECTED); [|apply touched_kept].
    apply touched_mapped. intros m. apply markDeleted_touches.
  - unfold sendFile. destruct (connRef s); [|apply touched_kept].
    destruct (status_eqb (status s) CONNECTED); [|apply touched_kept].
    apply touched_grown, wf_file; [discriminate | reflexivity | congruence].
  - apply touched_kept.
  - destruct (urlTimer s) as [[targetId self]|]; [|apply touched_kept].
    rewrite connectToPeer_messages. apply touched_kept.
  - apply touched_kept.
  - unfold onPeerConnection. destruct (connRef s); apply touched_kept.
  - unfold onPeerError.
    destruct (String.eqb errType "unavailable-id"); apply touched_kept.
  - destruct (is_wired conn s); [|apply touched_kept].
    apply touched_grown, wf_system.
  - destruct (is_wired conn s); [|apply touched_kept].
    destruct data; cbn [onConnData]; try apply touched_kept.
    + apply touched_mapped. intros m. apply markDelivered_touches.
    + apply touched_mapped. intros m. apply markEdited_touches.
      apply String.eqb_refl.
    + apply touched_mapped. intros m. apply markDeleted_touches.
    + apply touched_grown, wf_remote_text.
    + apply touched_grown, wf_file;
        [discriminate | discriminate | reflexivity].
  - destruct (is_wired conn s); [|apply touched_kept].
    apply touched_grown, wf_system.
  - destruct (is_wired conn s); apply touched_kept.
Qed.

Lemma step_logTouched (e : Event) (s : Node) :
  isClearChat e = false ->
  logTouched e (messages s) (messages (step E e s)).
Proof. intros H. rewrite step_messages. apply handle_logTouched, H. Qed.

(** A relation between the versions of a message that each permitted
    event respects is respected by a whole run. *)
Lemma run_respects (P : Message -> Message -> Prop) (ok : Event -> bool) :
  (forall m, P m m) ->
  (forall a b c, P a b -> P b c -> P a c) ->
  (forall e m m', ok e = true -> touches e m m' -> P m m') ->
  forall (es : list Event) (s : Node) (i : nat) (m : Message),
    forallb notClearChat es = true -> forallb ok es = true ->
    nth_error (messages s) i = Some m ->
    exists m', nth_error (messages (run E es s)) i = Some m' /\ P m m'.
Proof.
  intros Prefl Ptrans Pstep.
  induction es as [|e es IH]; intros s i m Hclear Hok Hi; simpl.
  - exists m. auto.
  - simpl in Hclear, Hok.
    apply andb_true_iff in Hclear as [Hc Hclear].
    apply andb_true_iff in Hok as [Ho Hok].
    apply negb_true_iff in Hc.
    destruct (step_logTouched e s Hc) as (f & app & Hl & Hf & _).
    assert (Hi1 : nth_error (messages (step E e s)) i = Some (f m)).
    { rewrite Hl, nth_error_app1.
      - rewrite nth_error_map, Hi. reflexivity.
      - rewrite length_map. apply nth_error_Some. congruence. }
    destruct (IH (step E e s) i (f m) Hclear Hok Hi1) as (m' & Hi' & HP).
    exists m'. split; [exact Hi'|].
    apply (Ptrans _ (f m)); [|exact HP]. apply (Pstep e); [exact Ho|].
    apply Hf.
Qed.

Lemma forallb_always (es : list Event) :
  forallb (fun _ : Event => true) es = true.
Proof. induction es; simpl; auto. Qed.

(** X1.  Over any run that does not clear the chat, a message keeps its
    position and every field it was created with other than content,
    status and the two flags: id, sender, sender id, timestamp, kind, file
    metadata and reply reference.  A reply reference is thus frozen when
    the message is sent, whatever happens later to the message it
    quotes. *)
Theorem origin_immutable (es : list Event) (s : Node) (i : nat)
        (m : Message) :
  forallb notClearChat es = true ->
  nth_error (messages s) i = Some m ->
  exists m', nth_error (messages (run E es s)) i = Some m'
             /\ keepsOrigin m m'.
Proof.
  intros Hclear Hi.
  apply (run_respects keepsOrigin (fun _ => true)); auto.
  - intros m0. repeat split.
  - intros a b c (A1 & A2 & A3 & A4 & A5 & A6 & A7)
           (B1 & B2 & B3 & B4 & B5 & B6 & B7).
    repeat split; congruence.
  - intros e m0 m0' _ (H & _). exact H.
  - apply forallb_always.
Qed.

(** X2.  Over any run that does not clear the chat, a tombstone is never
    lifted and an edit mark never removed: a message that is deleted stays
    deleted, one that is marked edited stays marked. *)
Theorem flags_never_cleared (es : list Event) (s : Node) (i : nat)
        (m : Message) :
  forallb notClearChat es = true ->
  nth_error (messages s) i = Some m ->
  exists m', nth_error (messages (run E es s)) i = Some m'
             /\ (msg_isDeleted m = Some true -> msg_isDeleted m' = Some true)
             /\ (msg_isEdited m = Some true -> msg_isEdited m' = Some true).
Proof.
  intros Hclear Hi.
  apply (run_respects
           (fun a b =>
              (msg_isDeleted a = Some true -> msg_isDeleted b = Some true)
              /\ (msg_isEdited a = Some true -> msg_isEdited b = Some true))
           (fun _ => true)); auto.
  - intros a b c [A1 A2] [B1 B2]. auto.
  - intros e a b _ (_ & [[Hd|Hd] [He|He]] & _); split; intros H;
      congruence.
  - apply forallb_always.
Qed.

(** X3.  Over any run that does not clear the chat and holds no edit, local
    or remote, for the id of a message, the content of that message is
    what it was.  Deleting it, in particular, keeps the content in the
    record: a tombstone, not an erasure. *)
Theorem content_changes_only_by_edit (es : list Event) (s : Node) (i : nat)
        (m : Message) :
  forallb notClearChat es = true ->
  forallb (fun e => negb (editsContent (msg_id m) e)) es = true ->
  nth_error (messages s) i = Some m ->
  exists m', nth_error (messages (run E es s)) i = Some m'
             /\ msg_content m' = msg_content m.
Proof.
  intros Hclear Hedit Hi.
  destruct (run_respects
              (fun a b => msg_id a = msg_id m ->
                          msg_id b = msg_id m
                          /\ msg_content b = msg_content a)
              (fun e => negb (editsContent (msg_id m) e)))
    with (es := es) (s := s) (i := i) (m := m) as (m' & Hi' & HP); auto.
  - intros a b c Hab Hbc Ha. destruct (Hab Ha) as [Hb Hc1].
    destruct (Hbc Hb) as [Hc Hc2]. split; congruence.
  - intros e a b Hok ((Hid & _) & _ & [Hc|Hc] & _) Ha.
    + split; congruence.
    + rewrite Ha in Hc. rewrite Hc in Hok. discriminate Hok.
  - exists m'. split; [exact Hi'|]. apply HP. reflexivity.
Qed.

Lemma reachable_run (es : list Event) (s : Node) :
  reachable E s -> reachable E (run E es s).
Proof.
  revert s. induction es as [|e es IH]; intros s Hs; simpl; [exact Hs|].
  apply IH, reach_step, Hs.
Qed.

Lemma mountEffects_messages (s : Node) :
  messages (mountEffects E s) = messages s.
Proof.
  unfold mountEffects.
  set (s2 := registrationEffect E (syncStatusRef (status s) s)).
  assert (H2 : messages s2 = messages s).
  { subst s2.
    destruct (registrationEffect_frame E (syncStatusRef (status s) s))
      as (-> & _). reflexivity. }
  clearbody s2.
  set (s3 := urlEffect E (status s) (peerId s) s2).
  assert (H3 : messages s3 = messages s).
  { subst s3. destruct (urlEffect_frame E (status s) (peerId s) s2)
      as (-> & _). exact H2. }
  clearbody s3. destruct (negb _); exact H3.
Qed.

Lemma mount_messages (stored : option string) :
  messages (mount E stored) = [].
Proof. unfold mount. rewrite mountEffects_messages. reflexivity. Qed.

(** X4.  In every reachable state every message of the log is well formed:
    a file message carries its metadata with a retrievable URL and a text
    message carries none; a system message has no sender id and no reply;
    any other message names its sender; the status [sending] only
    appears on local file messages and [sent] only on local text
    messages; a local message always has a status. *)
Theorem log_well_formed (s : Node) :
  reachable E s -> Forall wfMessage (messages s).
Proof.
  induction 1 as [stored|e s _ IH].
  - rewrite mount_messages. constructor.
  - destruct (isClearChat e) eqn:Hclear.
    + destruct e; try discriminate Hclear.
      rewrite step_messages. constructor.
    + destruct (step_logTouched e s Hclear) as (f & app & -> & Hf & Happ).
      apply Forall_app. split.
      * apply Forall_map. revert IH. apply Forall_impl.
        intros m Hm. apply (touches_wf e m); [exact Hm | apply Hf].
      * apply Forall_forall. exact Happ.
Qed.

End Records.

Lemma aliceChatting_reachable : reachable demoEnv aliceChatting.
Proof.
  unfold aliceChatting, aliceLinked, aliceReady, aliceBooted.
  apply reachable_run, reachable_run, reach_step, reach_mount.
Qed.

Lemma origin_immutable_witness :
  forallb notClearChat aliceLater = true
  /\ nth_error (messages aliceChatting) 2 = Some aliceFileMessage
  /\ exists m',
      nth_error (messages (run demoEnv aliceLater aliceChatting)) 2 = Some m'
      /\ keepsOrigin aliceFileMessage m'.
Proof.
  assert (H1 : forallb notClearChat aliceLater = true) by reflexivity.
  assert (H2 : nth_error (messages aliceChatting) 2 = Some aliceFileMessage)
    by (vm_compute; reflexivity).
  exact (conj H1 (conj H2 (origin_immutable demoEnv aliceLater aliceChatting
                                            2 aliceFileMessage H1 H2))).
Defined.

Lemma flags_never_cleared_witness :
  forallb notClearChat aliceLater = true
  /\ nth_error (messages aliceChatting) 2 = Some aliceFileMessage
  /\ exists m',
      nth_error (messages (run demoEnv aliceLater aliceChatting)) 2 = Some m'
      /\ (msg_isDeleted aliceFileMessage = Some true ->
          msg_isDeleted m' = Some true)
      /\ (msg_isEdited aliceFileMessage = Some true ->
          msg_isEdited m' = Some true).
Proof.
  assert (H1 : forallb notClearChat aliceLater = true) by reflexivity.
  assert (H2 : nth_error (messages aliceChatting) 2 = Some aliceFileMessage)
    by (vm_compute; reflexivity).
  exact (conj H1 (conj H2 (flags_never_cleared demoEnv aliceLater
                             aliceChatting 2 aliceFileMessage H1 H2))).
Defined.

Lemma content_changes_only_by_edit_witness :
  forallb notClearChat aliceDeletes = true
  /\ forallb (fun e => negb (editsContent (msg_id aliceFileMessage) e))
             aliceDeletes = true
  /\ nth_error (messages aliceChatting) 2 = Some aliceFileMessage
  /\ exists m',
      nth_error (messages (run demoEnv aliceDeletes aliceChatting)) 2
      = Some m'
      /\ msg_content m' = msg_content aliceFileMessage.
Proof.
  assert (H1 : forallb notClearChat aliceDeletes = true) by reflexivity.
  assert (H2 : forallb (fun e => negb (editsContent
                                         (msg_id aliceFileMessage) e))
                       aliceDeletes = true) by reflexivity.
  assert (H3 : nth_error (messages aliceChatting) 2 = Some aliceFileMessage)
    by (vm_compute; reflexivity).
  exact (conj H1 (conj H2 (conj H3
          (content_changes_only_by_edit demoEnv aliceDeletes aliceChatting 2
                                        aliceFileMessage H1 H2 H3)))).
Defined.

Lemma log_well_formed_witness :
  reachable demoEnv aliceChatting
  /\ Forall wfMessage (messages aliceChatting).
Proof.
  exact (conj aliceChatting_reachable
              (log_well_formed demoEnv aliceChatting
                               aliceChatting_reachable)).
Defined.

(** ** Frames of the handlers and of the effects *)

(** Unfolds the handler of the goal's event and splits on every test it
    makes. *)
Ltac handler_cases :=
  cbn [handle];
  unfold connectToPeer, disconnect, handleIdentityChange, togglePower,
    handleTyping, sendMessage, handleEditMessage, handleDeleteMessage,
    sendFile, onPeerConnection, onPeerError, onPeerOpen, onConnOpen,
    onConnData, onConnClose, onConnError, clearLogs, clearChat;
  cbv zeta;
  cbn [peerRef connRef status isSystemOn urlTimer set_peerId set_status
       set_isSystemOn set_urlTimer];
  repeat match goal with
         | |- context [match ?x with _ => _ end] => destruct x eqn:?
         end.

(** Reduces the cell projections over the cell updates, and nothing
    else. *)
Ltac node_cbn :=
  cbn [isSystemOn status isRemoteTyping desiredId peerId messages logs
       peerRef connRef urlParamsProcessed statusRef storage cleanupPeer
       wired urlTimer wire ticks peerSerial
       set_isSystemOn set_status set_isRemoteTyping set_desiredId
       set_peerId set_messages set_logs set_peerRef set_connRef
       set_urlParamsProcessed set_statusRef set_storage set_cleanupPeer
       set_wired set_urlTimer set_wire set_ticks set_peerSerial
       addLog addSystemMessage tick emit setupConnection syncStatusRef].

(** The same for the two effects that branch. *)
Ltac effect_cases :=
  unfold registrationEffect, urlEffect; cbv zeta;
  repeat match goal with
         | |- context [match ?x with _ => _ end] => destruct x eqn:?
         end.

Section Frames.

Variable E : Env.

(** An invariant kept by each effect is kept by the render. *)
Lemma commit_preserves (P : Node -> Prop) :
  (forall st s, P s -> P (syncStatusRef st s)) ->
  (forall s, P s -> P (registrationEffect E s)) ->
  (forall st self s, P s -> P (urlEffect E st self s)) ->
  forall prev s, P s -> P (commit E prev s).
Proof.
  intros Hsync Hreg Hurl prev s Hs. unfold commit.
  set (s1 := if negb (status_eqb (status prev) (status s))
             then syncStatusRef (status s) s else s).
  assert (H1 : P s1) by (subst s1; destruct (negb _); auto).
  clearbody s1.
  set (s2 := if _ : bool then registrationEffect E s1 else s1).
  assert (H2 : P s2) by (subst s2; destruct (_ || _); auto).
  clearbody s2.
  set (s3 := if _ : bool then urlEffect E (status s) (peerId s) s2 else s2).
  assert (H3 : P s3) by (subst s3; destruct (_ || _); auto).
  clearbody s3. destruct (negb _); auto.
Qed.

Lemma mountEffects_preserves (P : Node -> Prop) :
  (forall st s, P s -> P (syncStatusRef st s)) ->
  (forall s, P s -> P (registrationEffect E s)) ->
  (forall st self s, P s -> P (urlEffect E st self s)) ->
  forall s, P s -> P (mountEffects E s).
Proof.
  intros Hsync Hreg Hurl s Hs. unfold mountEffects.
  set (s3 := urlEffect E (status s) (peerId s)
                       (registrationEffect E (syncStatusRef (status s) s))).
  assert (H3 : P s3) by (subst s3; auto).
  clearbody s3. destruct (negb _); auto.
Qed.

(** An invariant of the mount kept by every handler and every effect holds
    in every reachable state. *)
Lemma reachable_invariant (P : Node -> Prop) :
  (forall stored, P (initial E stored)) ->
  (forall e s, P s -> P (handle E e s)) ->
  (forall st s, P s -> P (syncStatusRef st s)) ->
  (forall s, P s -> P (registrationEffect E s)) ->
  (forall st self s, P s -> P (urlEffect E st self s)) ->
  forall s, reachable E s -> P s.
Proof.
  intros Hinit Hhandle Hsync Hreg Hurl s Hr.
  induction Hr as [stored|e s _ IH].
  - unfold mount. apply mountEffects_preserves; auto.
  - unfold step. apply commit_preserves; auto.
Qed.

End Frames.

(** ** Invariants of the session *)

Section SessionInvariants.

Variable E : Env.

(** X5.  In every reachable state the persisted identity is the chosen
    one: what [localStorage] holds under the identity key is [desiredId],
    from the first render (stored id kept, or a generated one written) and
    through every identity change. *)
Theorem storage_tracks_identity (s : Node) :
  reachable E s -> storage s = Some (desiredId s).
Proof.
  apply (reachable_invariant E (fun s => storage s = Some (desiredId s))).
  - intros stored. unfold initial.
    destruct stored as [v|]; [destruct (truthy v)|]; reflexivity.
  - intros e s0 H. destruct e; handler_cases; cbn; auto.
  - intros st s0 H. exact H.
  - intros s0 H. effect_cases; cbn; auto.
  - intros st self s0 H. effect_cases; cbn; auto.
Qed.

Lemma in_wire_emit (c d : Command) (s : Node) :
  In c (wire (emit d s)) <-> In c (wire s) \/ c = d.
Proof.
  unfold emit. cbn. rewrite in_app_iff. cbn. intuition congruence.
Qed.

(** X6.  In every reachable state at most one registration is alive: every
    [Peer] the node ever created is either the one it holds or has had
    [destroy()] called on it.  Registrations for two identities never
    coexist. *)
Theorem one_live_registration (s : Node) :
  reachable E s -> oneRegistration s.
Proof.
  apply (reachable_invariant E oneRegistration).
  - intros stored p []. 
  - intros e s0 H p. specialize (H p).
    destruct e; handler_cases; cbn in *; rewrite ?in_app_iff; cbn;
      intuition congruence.
  - intros st s0 H. exact H.
  - intros s0 H p. specialize (H p).
    effect_cases; cbn in *; rewrite ?in_app_iff; cbn;
      rewrite ?in_app_iff; cbn; intuition congruence.
  - intros st self s0 H p. specialize (H p).
    effect_cases; cbn in *; auto.
Qed.

Lemma urlSpent_handle (e : Event) (s : Node) :
  urlSpent s -> urlSpent (handle E e s).
Proof.
  intros [Hp Ht]. unfold urlSpent.
  destruct e; handler_cases; cbn in *; auto; congruence.
Qed.

Lemma urlSpent_step (e : Event) (s : Node) :
  urlSpent s -> urlSpent (step E e s).
Proof.
  intros H. unfold step. apply commit_preserves.
  - intros st s0 H0. exact H0.
  - intros s0 [Hp Ht]. unfold urlSpent. effect_cases; cbn in *; auto.
  - intros st self s0 [Hp Ht]. unfold urlEffect. rewrite Hp.
    rewrite andb_false_r. split; assumption.
  - apply urlSpent_handle, H.
Qed.

Lemma urlSpent_run (es : list Event) (s : Node) :
  urlSpent s -> urlSpent (run E es s).
Proof.
  revert s. induction es as [|e es IH]; intros s H; simpl; [exact H|].
  apply IH, urlSpent_step, H.
Qed.

(** The timer of the URL effect is armed only once the parameter is marked
    processed. *)
Lemma reachable_timer_marked (s : Node) :
  reachable E s -> urlTimer s = None \/ urlParamsProcessed s = true.
Proof.
  apply (reachable_invariant E
           (fun s => urlTimer s = None \/ urlParamsProcessed s = true)).
  - intros stored. left. reflexivity.
  - intros e s0 H. destruct e; handler_cases; cbn in *; auto.
  - intros st s0 H. exact H.
  - intros s0 H. effect_cases; cbn in *; auto.
  - intros st self s0 H. effect_cases; cbn in *; auto.
Qed.

(** X7.  The connect-by-link parameter is acted on at most once: when the
    timer the URL effect armed has fired, the parameter stays processed and
    no timer is armed again, so every later timer callback does nothing,
    however often the node comes back to [READY]. *)
Theorem auto_connect_once (s : Node) (targetId self : string) :
  reachable E s -> urlTimer s = Some (targetId, self) ->
  forall outcome es outcome',
    let s1 := step E (UrlTimerFire outcome) s in
    urlSpent (run E es s1)
    /\ step E (UrlTimerFire outcome') (run E es s1) = run E es s1.
Proof.
  intros Hr Ht outcome es outcome' s1.
  assert (Hp : urlParamsProcessed s = true).
  { destruct (reachable_timer_marked s Hr) as [Hn|Hp]; [congruence|exact Hp]. }
  assert (H1 : urlSpent s1).
  { subst s1. unfold step. apply commit_preserves.
    - intros st s0 H0. exact H0.
    - intros s0 [Hp0 Ht0]. unfold urlSpent. effect_cases; cbn in *; auto.
    - intros st self0 s0 [Hp0 Ht0]. unfold urlEffect. rewrite Hp0.
      rewrite andb_false_r. split; assumption.
    - cbn [handle]. rewrite Ht. unfold urlSpent, connectToPeer.
      repeat match goal with
             | |- context [match ?x with _ => _ end] => destruct x eqn:?
             end; cbn in *; auto. }
  assert (H2 : urlSpent (run E es s1)) by (apply urlSpent_run, H1).
  split; [exact H2|]. destruct H2 as [_ Hnone].
  unfold step. cbn [handle]. rewrite Hnone. apply commit_refl.
Qed.

End SessionInvariants.

Lemma carolReady_reachable : reachable linkEnv carolReady.
Proof. unfold carolReady. apply reach_step, reach_mount. Qed.

Lemma storage_tracks_identity_witness :
  reachable demoEnv aliceRenamed
  /\ storage aliceRenamed = Some (desiredId aliceRenamed).
Proof.
  assert (H : reachable demoEnv aliceRenamed).
  { unfold aliceRenamed, aliceFaulted, aliceLinked, aliceReady, aliceBooted.
    apply reachable_run, reach_step, reachable_run, reach_step,
      reach_mount. }
  exact (conj H (storage_tracks_identity demoEnv aliceRenamed H)).
Defined.

Lemma one_live_registration_witness :
  reachable demoEnv aliceRenamed /\ oneRegistration aliceRenamed.
Proof.
  assert (H : reachable demoEnv aliceRenamed).
  { unfold aliceRenamed, aliceFaulted, aliceLinked, aliceReady, aliceBooted.
    apply reachable_run, reach_step, reachable_run, reach_step,
      reach_mount. }
  exact (conj H (one_live_registration demoEnv aliceRenamed H)).
Defined.

Lemma auto_connect_once_witness :
  reachable linkEnv carolReady
  /\ urlTimer carolReady = Some ("BOB", "CAROL")
  /\ step linkEnv (UrlTimerFire (Returned connEve))
          (run linkEnv [ConnError connBob "lost"; PeerOpen "CAROL"]
               (step linkEnv (UrlTimerFire (Returned connBob)) carolReady))
     = run linkEnv [ConnError connBob "lost"; PeerOpen "CAROL"]
           (step linkEnv (UrlTimerFire (Returned connBob)) carolReady).
Proof.
  assert (H1 : urlTimer carolReady = Some ("BOB", "CAROL"))
    by (vm_compute; reflexivity).
  destruct (auto_connect_once linkEnv carolReady "BOB" "CAROL"
              carolReady_reachable H1 (Returned connBob)
              [ConnError connBob "lost"; PeerOpen "CAROL"]
              (Returned connEve)) as [_ H].
  exact (conj carolReady_reachable (conj H1 H)).
Defined.

(** ** Local actions and the link *)

Section Link.

Variable E : Env.



(** X9.  A local edit or delete sends its envelope and updates the log
    together or not at all, and the update is the one the envelope makes
    on the other side: with a link the channel gets exactly the [edit]
    (or [delete]) envelope and the log is mapped by the function a
    receiver applies for that envelope; otherwise neither happens. *)
Theorem local_mutation_atomic (id newContent : string) (s : Node) :
  let edited := step E (UiEditMessage id newContent) s in
  let deleted := step E (UiDeleteMessage id) s in
  ((wire edited = wire s /\ messages edited = messages s)
   \/ (exists conn,
          connRef s = Some conn /\ status s = CONNECTED
          /\ wire edited = wire s ++ [ConnSend conn (PEdit id newContent)]
          /\ forall from,
              messages edited
              = messages (onConnData E from (PEdit id newContent) s)))
  /\ ((wire deleted = wire s /\ messages deleted = messages s)
      \/ (exists conn,
             connRef s = Some conn /\ status s = CONNECTED
             /\ wire deleted = wire s ++ [ConnSend conn (PDelete id)]
             /\ forall from,
                 messages deleted
                 = messages (onConnData E from (PDelete id) s))).
Proof.
  intros edited deleted.
  destruct (step_noreg E (UiEditMessage id newContent) s eq_refl)
    as (_ & _ & _ & _ & Hwe).
  destruct (step_noreg E (UiDeleteMessage id) s eq_refl)
    as (_ & _ & _ & _ & Hwd).
  subst edited deleted. rewrite Hwe, Hwd, !step_messages. cbn [handle].
  unfold handleEditMessage, handleDeleteMessage.
  destruct (connRef s) as [conn|]; [|split; left; split; reflexivity].
  destruct (status_eqb (status s) CONNECTED) eqn:Hst;
    [|split; left; split; reflexivity].
  apply status_eqb_eq in Hst.
  split; right; exists conn; repeat split; assumption.
Qed.

Lemma handle_logs_grow (e : Event) (s : Node) :
  notClearLogs e = true ->
  exists more, logs (handle E e s) = logs s ++ more.
Proof.
  intros He.
  destruct e; try discriminate He; handler_cases;
    first [ exists []; rewrite app_nil_r; reflexivity
          | eexists; reflexivity
          | eexists; rewrite <- app_assoc; reflexivity
          | node_cbn; eexists; rewrite <- app_assoc; reflexivity ].
Qed.

Lemma registrationEffect_logs_grow (s : Node) :
  exists more, logs (registrationEffect E s) = logs s ++ more.
Proof.
  effect_cases; node_cbn;
    first [ exists []; rewrite app_nil_r; reflexivity
          | eexists; reflexivity ].
Qed.

Lemma urlEffect_logs_grow (st : ConnectionStatus) (self : string)
      (s : Node) :
  exists more, logs (urlEffect E st self s) = logs s ++ more.
Proof.
  effect_cases; node_cbn;
    first [ exists []; rewrite app_nil_r; reflexivity
          | eexists; reflexivity ].
Qed.

Lemma step_logs_grow (e : Event) (s : Node) :
  notClearLogs e = true ->
  exists more, logs (step E e s) = logs s ++ more.
Proof.
  intros He. unfold step.
  apply (commit_preserves
           E (fun s' => exists more, logs s' = logs s ++ more)).
  - intros st s0 H0. exact H0.
  - intros s0 (more0 & H0).
    destruct (registrationEffect_logs_grow s0) as (more1 & ->).
    rewrite H0, <- app_assoc. eexists. reflexivity.
  - intros st self s0 (more0 & H0).
    destruct (urlEffect_logs_grow st self s0) as (more1 & ->).
    rewrite H0, <- app_assoc. eexists. reflexivity.
  - apply handle_logs_grow, He.
Qed.

(** X10.  The diagnostic log only grows: over any run without a log clear
    the entries present stay, in order, at the head of the log.  A log
    clear leaves exactly one entry, its own notice. *)
Theorem logs_append_only (es : list Event) (s : Node) :
  forallb notClearLogs es = true ->
  (exists more, logs (run E es s) = logs s ++ more)
  /\ logs (step E UiClearLogs s)
     = [MkLogEntry (freshId E s) "System logs purged." (now E (ticks s))
                   warning].
Proof.
  intros Hes. split.
  - revert s Hes. induction es as [|e es IH]; intros s Hes; simpl.
    + exists []. rewrite app_nil_r. reflexivity.
    + simpl in Hes. apply andb_true_iff in Hes as [He Hes].
      destruct (IH (step E e s) Hes) as (more & ->).
      destruct (step_logs_grow e s He) as (more1 & ->).
      exists (more1 ++ more). apply eq_sym, app_assoc.
  - unfold step. rewrite commit_quiet; reflexivity.
Qed.

End Link.


Lemma logs_append_only_witness :
  forallb notClearLogs aliceLater = true
  /\ exists more,
      logs (run demoEnv aliceLater aliceChatting)
      = logs aliceChatting ++ more.
Proof.
  destruct (logs_append_only demoEnv aliceLater aliceChatting eq_refl)
    as [H _].
  exact (conj eq_refl H).
Defined.

(** ** Leaving and re-entering a link *)

Section Lifecycle.

Variable E : Env.

(** X11.  Manual disconnect.  Without a handle it changes nothing at all.
    With one it closes exactly that channel, returns to [READY], gives the
    handle up and clears the remote-typing flag, and leaves the message
    log alone (no system message, unlike a [close] from the transport).
    It is idempotent, and the next inbound offer is accepted: it becomes
    the handle and gets handlers. *)
Theorem disconnect_releases (s : Node) :
  let s' := step E UiDisconnect s in
  (connRef s = None -> s' = s)
  /\ (forall conn, connRef s = Some conn ->
                   wire s' = wire s ++ [ConnClose conn]
                   /\ status s' = READY /\ isRemoteTyping s' = false
                   /\ messages s' = messages s)
  /\ connRef s' = None
  /\ step E UiDisconnect s' = s'
  /\ (forall offer,
         connRef (step E (PeerConnection offer) s') = Some offer
         /\ is_wired offer (step E (PeerConnection offer) s') = true
         /\ wire (step E (PeerConnection offer) s') = wire s').
Proof.
  intros s'.
  assert (Hnone : forall t, connRef t = None -> step E UiDisconnect t = t).
  { intros t Ht. unfold step. cbn [handle]. unfold disconnect. rewrite Ht.
    apply commit_refl. }
  assert (Hc : connRef s' = None).
  { subst s'. rewrite step_connRef. cbn [handle]. unfold disconnect.
    destruct (connRef s) eqn:Hk; [reflexivity | exact Hk]. }
  split; [apply Hnone|]. split.
  { intros conn Hk.
    destruct (step_noreg E UiDisconnect s eq_refl)
      as (Hst & _ & _ & Hty & Hw).
    subst s'. rewrite Hw, Hst, Hty, step_messages. cbn [handle].
    unfold disconnect. rewrite Hk.
    split; [reflexivity|]. split; [reflexivity|]. split; reflexivity. }
  split; [exact Hc|]. split; [apply Hnone, Hc|].
  intros offer.
  destruct (step_noreg E (PeerConnection offer) s' eq_refl)
    as (_ & _ & _ & _ & Hw).
  unfold is_wired. rewrite Hw, step_connRef, step_wired. cbn [handle].
  unfold onPeerConnection. rewrite Hc.
  split; [reflexivity|]. split; [|reflexivity].
  cbn [wired addLog tick set_ticks set_logs setupConnection set_wired
       set_connRef existsb].
  rewrite conn_same_refl. reflexivity.
Qed.

(** X12.  An inbound link from offer to loss.  With no handle held the
    offer is taken as the handle, and status and log are as before; when
    the channel opens the session is [CONNECTED] and the log gains one
    system message naming the peer; when the transport closes it the
    session is [READY] again, the handle is given up, the remote-typing
    flag is cleared and the log gains one more system message.  Nothing
    already in the log is touched. *)
Theorem inbound_link_lifecycle (conn : DataConnection) (s : Node) :
  connRef s = None ->
  let s1 := step E (PeerConnection conn) s in
  let s2 := step E (ConnOpen conn) s1 in
  let s3 := step E (ConnClosed conn) s2 in
  (connRef s1 = Some conn /\ status s1 = status s
   /\ messages s1 = messages s)
  /\ (status s2 = CONNECTED /\ connRef s2 = Some conn
      /\ exists announce,
          messages s2 = messages s ++ [announce]
          /\ msg_sender announce = system
          /\ msg_content announce
             = ("Encrypted connection established with " ++ conn_peer conn)
               %string)
  /\ (status s3 = READY /\ connRef s3 = None /\ isRemoteTyping s3 = false
      /\ exists notice,
          messages s3 = messages s2 ++ [notice]
          /\ msg_sender notice = system
          /\ msg_content notice = "Remote peer terminated connection.").
Proof.
  intros Hk s1 s2 s3.
  assert (H1 : connRef s1 = Some conn /\ status s1 = status s
               /\ messages s1 = messages s /\ is_wired conn s1 = true).
  { destruct (step_noreg E (PeerConnection conn) s eq_refl) as (Hst & _).
    unfold is_wired. subst s1.
    rewrite Hst, step_connRef, step_messages, step_wired. cbn [handle].
    unfold onPeerConnection. rewrite Hk.
    split; [reflexivity|]. split; [reflexivity|]. split; [reflexivity|].
    cbn [wired addLog tick set_ticks set_logs setupConnection set_wired
         set_connRef existsb].
    rewrite conn_same_refl. reflexivity. }
  destruct H1 as (H1c & H1s & H1m & H1w).
  assert (H2 : status s2 = CONNECTED /\ connRef s2 = Some conn
               /\ is_wired conn s2 = true
               /\ exists announce,
                   messages s2 = messages s1 ++ [announce]
                   /\ msg_sender announce = system
                   /\ msg_content announce
                      = ("Encrypted connection established with "
                           ++ conn_peer conn)%string).
  { destruct (step_noreg E (ConnOpen conn) s1 eq_refl) as (Hst & _).
    unfold is_wired. subst s2.
    rewrite Hst, step_connRef, step_messages, step_wired. cbn [handle].
    fold (is_wired conn s1). rewrite H1w.
    split; [reflexivity|]. split; [exact H1c|]. split; [exact H1w|].
    eexists. split; [reflexivity|]. split; reflexivity. }
  destruct H2 as (H2s & H2c & H2w & announce & H2m & H2a & H2b).
  split; [split; [exact H1c | split; [exact H1s | exact H1m]]|].
  split.
  { split; [exact H2s|]. split; [exact H2c|].
    exists announce. rewrite <- H1m. auto. }
  destruct (step_noreg E (ConnClosed conn) s2 eq_refl)
    as (Hst & _ & _ & Hty & _).
  subst s3. rewrite Hst, Hty, step_connRef, step_messages. cbn [handle].
  rewrite H2w.
  split; [reflexivity|]. split; [reflexivity|]. split; [reflexivity|].
  eexists. split; [reflexivity|]. split; reflexivity.
Qed.

(** X13.  A live link is never replaced by [connect]: in every reachable
    state with status [CONNECTED], calling [connectToPeer], for any target
    and whatever the transport would answer, makes no transport call and
    leaves status, handle and message log as they are. *)
Theorem connect_while_linked (targetId : string) (outcome : ConnectOutcome)
        (s : Node) :
  reachable E s -> status s = CONNECTED ->
  let s' := step E (UiConnect targetId outcome) s in
  wire s' = wire s /\ status s' = CONNECTED /\ connRef s' = connRef s
  /\ messages s' = messages s.
Proof.
  intros Hr Hst s'.
  pose proof (reachable_statusRef E s Hr) as Href.
  destruct (step_noreg E (UiConnect targetId outcome) s eq_refl)
    as (Hs & _ & _ & _ & Hw).
  subst s'. rewrite Hw, Hs, step_connRef, step_messages. cbn [handle].
  unfold connectToPeer. rewrite Href, Hst.
  destruct (peerRef s); cbn [status_eqb];
    (split; [reflexivity|]); (split; [exact Hst|]); split; reflexivity.
Qed.

(** X14.  Clearing the chat empties the message log and touches neither
    the link nor the channel; afterwards every [ack], [edit] or [delete],
    inbound or local, for whatever id, finds nothing and leaves the log
    empty. *)
Theorem clearChat_clean_slate (es : list Event) (s : Node) :
  forallb isMutation es = true ->
  let s' := step E UiClearChat s in
  messages s' = [] /\ status s' = status s /\ connRef s' = connRef s
  /\ wire s' = wire s
  /\ messages (run E es s') = [].
Proof.
  intros Hes s'.
  assert (Hs' : s' = clearChat E s).
  { subst s'. unfold step. cbn [handle]. apply commit_quiet; reflexivity. }
  split; [rewrite Hs'; reflexivity|]. split; [rewrite Hs'; reflexivity|].
  split; [rewrite Hs'; reflexivity|]. split; [rewrite Hs'; reflexivity|].
  assert (Hempty : messages s' = []) by (rewrite Hs'; reflexivity).
  clear Hs'. clearbody s'. revert s' Hempty.
  induction es as [|e es IH]; intros s' Hempty; simpl; [exact Hempty|].
  simpl in Hes. apply andb_true_iff in Hes as [He Hes].
  apply (IH Hes). rewrite step_messages.
  destruct e; try discriminate He; cbn [handle].
  - unfold handleEditMessage. destruct (connRef s'); [|exact Hempty].
    destruct (status_eqb (status s') CONNECTED); [|exact Hempty].
    cbn [messages set_messages emit set_wire]. rewrite Hempty. reflexivity.
  - unfold handleDeleteMessage. destruct (connRef s'); [|exact Hempty].
    destruct (status_eqb (status s') CONNECTED); [|exact Hempty].
    cbn [messages set_messages emit set_wire]. rewrite Hempty. reflexivity.
  - destruct (is_wired conn s'); [|exact Hempty].
    destruct data; try discriminate He; cbn [onConnData messages
                                               set_messages];
      rewrite Hempty; reflexivity.
Qed.

End Lifecycle.

Lemma inbound_link_lifecycle_witness :
  connRef aliceReady = None
  /\ status (step demoEnv (ConnOpen connEve)
                  (step demoEnv (PeerConnection connEve) aliceReady))
     = CONNECTED.
Proof.
  assert (H : connRef aliceReady = None) by (vm_compute; reflexivity).
  destruct (inbound_link_lifecycle demoEnv connEve aliceReady H)
    as (_ & (Hst & _) & _).
  exact (conj H Hst).
Defined.

Lemma connect_while_linked_witness :
  reachable demoEnv aliceChatting
  /\ status aliceChatting = CONNECTED
  /\ connRef (step demoEnv (UiConnect "EVE" (Returned connEve))
                   aliceChatting)
     = connRef aliceChatting.
Proof.
  assert (H : status aliceChatting = CONNECTED) by (vm_compute; reflexivity).
  destruct (connect_while_linked demoEnv "EVE" (Returned connEve)
              aliceChatting aliceChatting_reachable H) as (_ & _ & Hc & _).
  exact (conj aliceChatting_reachable (conj H Hc)).
Defined.

Lemma clearChat_clean_slate_witness :
  forallb isMutation aliceSignals = true
  /\ messages (run demoEnv aliceSignals
                   (step demoEnv UiClearChat aliceChatting)) = [].
Proof.
  destruct (clearChat_clean_slate demoEnv aliceSignals aliceChatting
                                  eq_refl) as (_ & _ & _ & _ & H).
  exact (conj eq_refl H).
Defined.

(** ** The power switch *)

Section Power.

Variable E : Env.

(** The render after a handler that left the node switched off. *)
Lemma commit_switched_off (prev s : Node) :
  isSystemOn prev = true -> isSystemOn s = false -> status s = OFFLINE ->
  let s' := commit E prev s in
  isSystemOn s' = false /\ status s' = OFFLINE
  /\ peerRef s' = peerRef s /\ peerId s' = peerId s
  /\ desiredId s' = desiredId s /\ peerSerial s' = peerSerial s
  /\ cleanupPeer s' = None.
Proof.
  intros Hprev Hoff Hst. unfold commit.
  rewrite Hprev, Hoff. cbn [Bool.eqb negb]. rewrite orb_true_r.
  set (s1 := if negb (status_eqb (status prev) (status s))
             then syncStatusRef (status s) s else s).
  assert (H1 : isSystemOn s1 = false /\ status s1 = OFFLINE
               /\ peerRef s1 = peerRef s /\ peerId s1 = peerId s
               /\ desiredId s1 = desiredId s
               /\ peerSerial s1 = peerSerial s).
  { subst s1. destruct (negb _); repeat split; assumption. }
  clearbody s1. destruct H1 as (A1 & A2 & A3 & A4 & A5 & A6).
  set (s2 := registrationEffect E s1).
  assert (H2 : isSystemOn s2 = false /\ status s2 = OFFLINE
               /\ peerRef s2 = peerRef s /\ peerId s2 = peerId s
               /\ desiredId s2 = desiredId s
               /\ peerSerial s2 = peerSerial s /\ cleanupPeer s2 = None).
  { subst s2. unfold registrationEffect. cbv zeta.
    destruct (cleanupPeer s1); node_cbn; rewrite A1; cbn [negb]; node_cbn;
      repeat split; assumption. }
  clearbody s2. clear A1 A2 A3 A4 A5 A6.
  destruct H2 as (A1 & A2 & A3 & A4 & A5 & A6 & A7).
  assert (H3 : forall b : bool,
             (if b then urlEffect E (status s) (peerId s) s2 else s2) = s2).
  { intros b. unfold urlEffect. rewrite Hst. cbn [status_eqb andb].
    destruct b; reflexivity. }
  rewrite H3, A2, Hst. cbn [status_eqb negb].
  repeat split; assumption.
Qed.

(** The render after the handler that switched the node on again. *)
Lemma commit_switched_on (prev s : Node) :
  isSystemOn prev = false -> isSystemOn s = true ->
  status prev = OFFLINE -> status s = OFFLINE ->
  peerId s = peerId prev -> cleanupPeer s = None -> peerRef s = None ->
  let s' := commit E prev s in
  isSystemOn s' = true /\ status s' = INITIALIZING
  /\ statusRef s' = INITIALIZING
  /\ peerRef s' = Some (MkPeer (peerSerial s) (desiredId s))
  /\ desiredId s' = desiredId s
  /\ wire s' = wire s ++ [NewPeer (MkPeer (peerSerial s) (desiredId s))].
Proof.
  intros Hprev Hon Hpst Hst Hid Hclean Hpeer. unfold commit.
  rewrite Hprev, Hon, Hpst, Hst, Hid, String.eqb_refl.
  cbn [status_eqb Bool.eqb negb orb]. rewrite orb_true_r.
  assert (H2 : registrationEffect E s
               = set_peerSerial (S (peerSerial s))
                   (set_cleanupPeer
                      (Some (MkPeer (peerSerial s) (desiredId s)))
                      (set_peerRef
                         (Some (MkPeer (peerSerial s) (desiredId s)))
                         (emit (NewPeer (MkPeer (peerSerial s)
                                                (desiredId s)))
                               (addLog E SYSTEM_MESSAGES.PEER_INIT info
                                  (set_isRemoteTyping false
                                     (set_peerId EmptyString
                                        (set_status INITIALIZING s)))))))).
  { unfold registrationEffect. rewrite Hclean, Hon, Hpeer. reflexivity. }
  rewrite H2. node_cbn. cbn [status_eqb negb]. node_cbn.
  rewrite Hon. repeat split.
Qed.

Lemma power_off_step (s : Node) :
  isSystemOn s = true ->
  let off := step E UiTogglePower s in
  (isSystemOn off = false /\ status off = OFFLINE
   /\ peerRef off = None /\ peerId off = EmptyString
   /\ cleanupPeer off = None)
  /\ (desiredId off = desiredId s /\ peerSerial off = peerSerial s
      /\ connRef off = None)
  /\ (forall p, peerRef s = Some p -> In (PeerDestroy p) (wire off))
  /\ exists notice,
      messages off = messages s ++ [notice]
      /\ msg_sender notice = system
      /\ msg_content notice = "System offline.".
Proof.
  intros Hon. cbv zeta. unfold step.
  remember (handle E UiTogglePower s) as h eqn:Hh.
  assert (Hfacts : isSystemOn h = false /\ status h = OFFLINE
               /\ peerRef h = None /\ peerId h = EmptyString
               /\ desiredId h = desiredId s
               /\ peerSerial h = peerSerial s /\ connRef h = None
               /\ (forall p, peerRef s = Some p ->
                             In (PeerDestroy p) (wire h))
               /\ exists notice,
                   messages h = messages s ++ [notice]
                   /\ msg_sender notice = system
                   /\ msg_content notice = "System offline.").
  { subst h. cbn [handle]. unfold togglePower. rewrite Hon. cbv zeta.
    node_cbn.
    destruct (peerRef s) as [p0|] eqn:Hp0; node_cbn;
      (split; [reflexivity|]); (split; [reflexivity|]);
      (split; [first [reflexivity | exact Hp0]|]); (split; [reflexivity|]);
      (split; [reflexivity|]); (split; [reflexivity|]);
      (split; [reflexivity|]); split.
    - intros p Hp. injection Hp as <-. apply in_or_app. right. left.
      reflexivity.
    - eexists. split; [reflexivity|]. split; reflexivity.
    - intros p Hp. discriminate Hp.
    - eexists. split; [reflexivity|]. split; reflexivity. }
  clear Hh.
  destruct Hfacts as (B1 & B2 & B3 & B4 & B5 & B6 & B7 & B8 & B9).
  destruct (commit_switched_off s h Hon B1 B2)
    as (C1 & C2 & C3 & C4 & C5 & C6 & C7).
  destruct (commit_frame E s h) as (Fm & Fc & _).
  assert (Fw : forall c, In c (wire h) -> In c (wire (commit E s h))).
  { intros c Hc.
    apply (commit_preserves E (fun t => In c (wire t))); auto.
    - intros t Ht. effect_cases; node_cbn; rewrite ?in_app_iff; auto.
    - intros st self t Ht. effect_cases; node_cbn; auto. }
  split.
  { split; [exact C1|]. split; [exact C2|]. split; [congruence|].
    split; [congruence|]. exact C7. }
  split.
  { split; [congruence|]. split; congruence. }
  split.
  { intros p Hp. apply Fw, B8, Hp. }
  rewrite Fm. exact B9.
Qed.

Lemma power_on_step (off : Node) :
  isSystemOn off = false -> status off = OFFLINE ->
  cleanupPeer off = None -> peerRef off = None ->
  let on := step E UiTogglePower off in
  isSystemOn on = true /\ status on = INITIALIZING
  /\ peerRef on = Some (MkPeer (peerSerial off) (desiredId off))
  /\ desiredId on = desiredId off
  /\ connRef on = connRef off /\ messages on = messages off.
Proof.
  intros Hoff Hst Hclean Hpeer. cbv zeta. unfold step.
  assert (Hh : handle E UiTogglePower off
               = addLog E "SYSTEM BOOT SEQUENCE INITIATED..." success
                        (set_isSystemOn true off)).
  { cbn [handle]. unfold togglePower. rewrite Hoff. reflexivity. }
  remember (handle E UiTogglePower off) as h eqn:Hdef. clear Hdef.
  assert (Hfacts : isSystemOn h = true /\ status h = OFFLINE
                   /\ peerId h = peerId off /\ cleanupPeer h = None
                   /\ peerRef h = None
                   /\ peerSerial h = peerSerial off
                   /\ desiredId h = desiredId off
                   /\ connRef h = connRef off
                   /\ messages h = messages off).
  { rewrite Hh. node_cbn. repeat split; assumption. }
  clear Hh.
  destruct Hfacts as (B1 & B2 & B3 & B4 & B5 & B6 & B7 & B8 & B9).
  destruct (commit_switched_on off h Hoff B1 Hst B2 B3 B4 B5)
    as (D1 & D2 & _ & D4 & D5 & _).
  destruct (commit_frame E off h) as (Fm & Fc & _).
  split; [exact D1|]. split; [exact D2|]. split; [congruence|].
  split; [congruence|]. split; congruence.
Qed.

(** X15.  Switching the node off and on again.  Off: the registration is
    destroyed, registration handle and channel handle are dropped, the
    session is [OFFLINE] with no identity shown, and the log gains the
    system message [System offline.].  On again: a new registration is made
    under the same chosen identity and the session is [INITIALIZING].
    The conversation is kept across the cycle: the log after it is the log
    before it plus that one system message. *)
Theorem power_cycle (s : Node) :
  isSystemOn s = true ->
  let off := step E UiTogglePower s in
  let on := step E UiTogglePower off in
  (status off = OFFLINE /\ peerId off = EmptyString
   /\ peerRef off = None /\ connRef off = None
   /\ (forall p, peerRef s = Some p -> In (PeerDestroy p) (wire off)))
  /\ (status on = INITIALIZING /\ isSystemOn on = true
      /\ desiredId on = desiredId s
      /\ peerRef on = Some (MkPeer (peerSerial s) (desiredId s))
      /\ connRef on = None)
  /\ exists notice,
      messages on = messages s ++ [notice]
      /\ msg_sender notice = system
      /\ msg_content notice = "System offline.".
Proof.
  intros Hon. cbv zeta.
  destruct (power_off_step s Hon)
    as ((A1 & A2 & A3 & A4 & A5) & (A6 & A7 & A8) & A9 & notice & A10).
  destruct (power_on_step (step E UiTogglePower s) A1 A2 A5 A3)
    as (B1 & B2 & B3 & B4 & B5 & B6).
  split.
  { split; [exact A2|]. split; [exact A4|]. split; [exact A3|].
    split; [exact A8 | exact A9]. }
  split.
  { split; [exact B2|]. split; [exact B1|]. split; [congruence|].
    split; congruence. }
  exists notice. rewrite B6. exact A10.
Qed.

End Power.

Lemma power_cycle_witness :
  isSystemOn aliceChatting = true
  /\ status (step demoEnv UiTogglePower
                  (step demoEnv UiTogglePower aliceChatting))
     = INITIALIZING.
Proof.
  assert (H : isSystemOn aliceChatting = true) by (vm_compute; reflexivity).
  destruct (power_cycle demoEnv aliceChatting H) as (_ & (Hst & _) & _).
  exact (conj H Hst).
Defined.

(** ** Text and typing between two nodes *)

Section Exchange.

Variables EA EB : Env.

(** X16.  A text from a linked sender [a] to a receiver [b].  The sender
    puts exactly one [text] envelope on its channel and appends its own
    copy with status [sent]; the receiver appends one remote message with
    the same content and the same reply reference, attributed to the
    channel's peer and without a status, clears its remote-typing flag,
    logs nothing and sends nothing back: a text is never acknowledged. *)
Theorem text_delivery (a b : Node) (ca cb : DataConnection)
        (content : string) (replyTo : option ReplyContext) :
  status a = CONNECTED -> connRef a = Some ca -> is_wired cb b = true ->
  let a1 := step EA (UiSendMessage content replyTo) a in
  let b1 := step EB (ConnData cb (PText content replyTo)) b in
  wire a1 = wire a ++ [ConnSend ca (PText content replyTo)]
  /\ messages a1
     = messages a ++ [MkMessage (freshId EA a) local (Some (peerId a))
                                content (now EA (ticks a)) text None
                                (Some sent) replyTo None None]
  /\ messages b1
     = messages b ++ [MkMessage (freshId EB b) remote (Some (conn_peer cb))
                                content (now EB (ticks b)) text None None
                                replyTo None None]
  /\ isRemoteTyping b1 = false
  /\ wire b1 = wire b /\ logs b1 = logs b /\ status b1 = status b.
Proof.
  intros Hst Hconn Hwb a1 b1.
  assert (Ha1 : a1 = handle EA (UiSendMessage content replyTo) a)
    by (subst a1; apply step_send; reflexivity).
  assert (Hb1 : b1 = handle EB (ConnData cb (PText content replyTo)) b).
  { subst b1. unfold step. apply commit_quiet; cbn [handle]; rewrite Hwb;
      reflexivity. }
  rewrite Ha1, Hb1. cbn [handle]. unfold sendMessage.
  rewrite Hconn, Hst, Hwb. cbn [status_eqb].
  split; [reflexivity|]. split; [reflexivity|]. split; [reflexivity|].
  split; [reflexivity|]. split; [reflexivity|]. split; reflexivity.
Qed.

(** X17.  The typing signal.  A linked sender puts exactly the [typing]
    envelope on its channel and changes nothing else in its state; the
    receiver sets its remote-typing flag to the value carried, and
    nothing else; any [text] or [file] envelope that arrives afterwards
    clears the flag. *)
Theorem typing_signal (a b : Node) (ca cb : DataConnection)
        (isTyping : bool) (data : Payload) :
  status a = CONNECTED -> connRef a = Some ca -> is_wired cb b = true ->
  isContent data = true ->
  let a1 := step EA (UiTyping isTyping) a in
  let b1 := step EB (ConnData cb (PTyping isTyping)) b in
  a1 = emit (ConnSend ca (PTyping isTyping)) a
  /\ b1 = set_isRemoteTyping isTyping b
  /\ isRemoteTyping (step EB (ConnData cb data) b1) = false.
Proof.
  intros Hst Hconn Hwb Hdata a1 b1.
  assert (Ha1 : a1 = emit (ConnSend ca (PTyping isTyping)) a).
  { subst a1. unfold step. cbn [handle]. unfold handleTyping.
    rewrite Hconn, Hst. cbn [status_eqb]. apply commit_quiet; reflexivity. }
  assert (Hb1 : b1 = set_isRemoteTyping isTyping b).
  { subst b1. unfold step. cbn [handle]. rewrite Hwb. cbn [onConnData].
    apply commit_quiet; reflexivity. }
  split; [exact Ha1|]. split; [exact Hb1|].
  destruct (step_noreg EB (ConnData cb data) b1 eq_refl)
    as (_ & _ & _ & Hty & _).
  rewrite Hty. cbn [handle].
  assert (Hw1 : is_wired cb b1 = true) by (rewrite Hb1; exact Hwb).
  rewrite Hw1. destruct data; try discriminate Hdata; reflexivity.
Qed.

End Exchange.

Lemma text_delivery_witness :
  status aliceLinked = CONNECTED
  /\ connRef aliceLinked = Some connBob
  /\ is_wired connAlice bobLinked = true
  /\ wire (step bobEnv (ConnData connAlice (PText "hello" None)) bobLinked)
     = wire bobLinked.
Proof.
  assert (H1 : status aliceLinked = CONNECTED) by (vm_compute; reflexivity).
  assert (H2 : connRef aliceLinked = Some connBob)
    by (vm_compute; reflexivity).
  assert (H3 : is_wired connAlice bobLinked = true)
    by (vm_compute; reflexivity).
  destruct (text_delivery demoEnv bobEnv aliceLinked bobLinked connBob
              connAlice "hello" None H1 H2 H3) as (_ & _ & _ & _ & Hw & _).
  exact (conj H1 (conj H2 (conj H3 Hw))).
Defined.

Lemma typing_signal_witness :
  status aliceLinked = CONNECTED
  /\ connRef aliceLinked = Some connBob
  /\ is_wired connAlice bobLinked = true
  /\ isContent (PText "hello" None) = true
  /\ step bobEnv (ConnData connAlice (PTyping true)) bobLinked
     = set_isRemoteTyping true bobLinked.
Proof.
  assert (H1 : status aliceLinked = CONNECTED) by (vm_compute; reflexivity).
  assert (H2 : connRef aliceLinked = Some connBob)
    by (vm_compute; reflexivity).
  assert (H3 : is_wired connAlice bobLinked = true)
    by (vm_compute; reflexivity).
  destruct (typing_signal demoEnv bobEnv aliceLinked bobLinked connBob
              connAlice true (PText "hello" None) H1 H2 H3 eq_refl)
    as (_ & Hb & _).
  exact (conj H1 (conj H2 (conj H3 (conj eq_refl Hb)))).
Defined.

(** ** The first identity *)

Lemma substring_length (n m : nat) (s : string) :
  String.length (substring n m s) = Nat.min m (String.length s - n).
Proof.
  revert n m. induction s as [|c s IH]; intros n m.
  - destruct n, m; reflexivity.
  - destruct n as [|n].
    + destruct m as [|m]; [reflexivity|]. simpl. rewrite IH.
      rewrite Nat.sub_0_r. reflexivity.
    + simpl. apply IH.
Qed.

Lemma toUpperCase_length (s : string) :
  String.length (toUpperCase s) = String.length s.
Proof. induction s as [|c s IH]; simpl; congruence. Qed.

Lemma upper_ascii_not_lower (c : ascii) : isLower (upper_ascii c) = false.
Proof.
  unfold upper_ascii, isLower.
  destruct ((97 <=? nat_of_ascii c)%nat && (nat_of_ascii c <=? 122)%nat)
    eqn:Hc; [|exact Hc].
  apply andb_true_iff in Hc as [Hlo Hhi].
  apply Nat.leb_le in Hlo.
  apply Nat.leb_le in Hhi.
  rewrite nat_ascii_embedding by lia.
  apply andb_false_iff. left. apply Nat.leb_gt. lia.
Qed.

Lemma toUpperCase_noLower (s : string) : noLower (toUpperCase s) = true.
Proof.
  induction s as [|c s IH]; simpl; [reflexivity|].
  rewrite upper_ascii_not_lower, IH. reflexivity.
Qed.

Section FirstIdentity.

Variable E : Env.

Lemma mountEffects_identity (s : Node) :
  desiredId (mountEffects E s) = desiredId s
  /\ storage (mountEffects E s) = storage s.
Proof.
  apply (mountEffects_preserves
           E (fun t => desiredId t = desiredId s /\ storage t = storage s)).
  - intros st t H. exact H.
  - intros t H. effect_cases; node_cbn; exact H.
  - intros st self t H. effect_cases; node_cbn; exact H.
  - split; reflexivity.
Qed.

(** X18.  The identity a node starts with.  A non-empty stored identity is
    kept as it is.  Otherwise (nothing stored, or the empty string) an
    identity is generated and written to the store.  A generated identity
    has no lowercase letter and at most 6 characters: exactly 6 when the
    random string has at least 8, fewer when it is shorter. *)
Theorem first_identity (stored : option string) :
  (forall v, stored = Some v -> truthy v = true ->
             desiredId (mount E stored) = v
             /\ storage (mount E stored) = Some v)
  /\ (stored = None \/ stored = Some EmptyString ->
      desiredId (mount E stored) = generateShortId E 0
      /\ storage (mount E stored) = Some (generateShortId E 0))
  /\ (forall k,
         String.length (generateShortId E k)
         = Nat.min 6 (String.length (random36 E k) - 2)
         /\ noLower (generateShortId E k) = true).
Proof.
  unfold mount.
  destruct (mountEffects_identity (initial E stored)) as [-> ->].
  split; [|split].
  - intros v -> Hv. unfold initial. rewrite Hv. split; reflexivity.
  - intros [->| ->]; split; reflexivity.
  - intros k. unfold generateShortId.
    rewrite toUpperCase_length, substring_length, toUpperCase_noLower.
    split; reflexivity.
Qed.

End FirstIdentity.

(** ** The composer of ChatInterface.tsx *)

Section Composer.

Variable trim : string -> string.

Lemma clearTypingTimeout_disarms (c : Chat) :
  timersOk c ->
  timers (clearTypingTimeout c) = []
  /\ calls (clearTypingTimeout c) = calls c
  /\ timerSerial (clearTypingTimeout c) = timerSerial c
  /\ inputValue (clearTypingTimeout c) = inputValue c
  /\ replyingTo (clearTypingTimeout c) = replyingTo c.
Proof.
  intros [Hnone|(id & Hone & Href & Hid)]; unfold clearTypingTimeout.
  - destruct (typingTimeoutRef c) as [id|]; [destruct (Nat.eqb id 0)|];
      cbn; rewrite ?Hnone; repeat split.
  - rewrite Href. apply Nat.eqb_neq in Hid. rewrite Hid. cbn.
    rewrite Hone. cbn. rewrite Nat.eqb_refl. repeat split.
Qed.

Lemma keystroke_arms (value : string) (c : Chat) :
  timersOk c ->
  let c' := handleInputChange false value c in
  timers c' = [S (timerSerial c)]
  /\ typingTimeoutRef c' = Some (S (timerSerial c))
  /\ calls c' = calls c ++ [CallTyping true].
Proof.
  intros Hok. unfold handleInputChange. cbn [negb]. cbv zeta.
  set (c2 := call (CallTyping true) (set_inputValue value c)).
  assert (Hok2 : timersOk c2).
  { destruct Hok as [Hnone|(id & Hone & Href & Hid)];
      [left; exact Hnone | right; exists id; auto]. }
  destruct (clearTypingTimeout_disarms c2 Hok2) as (Ht & Hc & Hs & _).
  unfold setTimeout. cbn. rewrite Ht, Hc, Hs. repeat split.
Qed.

Lemma chatStep_timersOk (disabled : bool) (e : ChatEvent) (c : Chat) :
  timersOk c -> timersOk (chatStep trim disabled e c).
Proof.
  intros Hok. destruct e; cbn [chatStep].
  - destruct disabled.
    + destruct Hok as [Hnone|(id & Hone & Href & Hid)];
        [left; exact Hnone | right; exists id; auto].
    + destruct (keystroke_arms value c Hok) as (Ht & Hr & _).
      right. exists (S (timerSerial c)). auto.
  - unfold handleSubmit, submitMessage.
    destruct (truthy (trim (inputValue c)) && negb disabled); [|exact Hok].
    left. apply clearTypingTimeout_disarms.
    destruct Hok as [Hnone|(id & Hone & Href & Hid)];
      [left; exact Hnone | right; exists id; auto].
  - unfold handleMacroSelect, submitMessage.
    destruct (truthy (trim macro) && negb disabled); [|exact Hok].
    left. apply clearTypingTimeout_disarms.
    destruct Hok as [Hnone|(id & Hone & Href & Hid)];
      [left; exact Hnone | right; exists id; auto].
  - destruct Hok as [Hnone|(id & Hone & Href & Hid)];
      [left; exact Hnone | right; exists id; auto].
  - destruct Hok as [Hnone|(id & Hone & Href & Hid)];
      [left; exact Hnone | right; exists id; auto].
  - unfold onTypingTimeout.
    destruct (existsb (Nat.eqb id) (timers c)) eqn:Hin; [|exact Hok].
    left. destruct Hok as [Hnone|(id0 & Hone & Href & Hid)].
    + rewrite Hnone in Hin. discriminate Hin.
    + rewrite Hone in Hin. cbn in Hin. rewrite orb_false_r in Hin.
      apply Nat.eqb_eq in Hin. subst id0. cbn. rewrite Hone. cbn.
      rewrite Nat.eqb_refl. reflexivity.
  - unfold handleFileSelect. destruct files;
      (destruct Hok as [Hnone|(id & Hone & Href & Hid)];
       [left; exact Hnone | right; exists id; auto]).
  - unfold handleDragEnter. destruct disabled; cbn [negb]; [exact Hok|].
    destruct hasItems;
      (destruct Hok as [Hnone|(id & Hone & Href & Hid)];
       [left; exact Hnone | right; exists id; auto]).
  - unfold handleDragLeave. destruct disabled; cbn [negb]; [exact Hok|].
    cbv zeta. destruct (Z.eqb _ 0);
      (destruct Hok as [Hnone|(id & Hone & Href & Hid)];
       [left; exact Hnone | right; exists id; auto]).
  - exact Hok.
  - unfold handleDrop. cbv zeta. destruct disabled; [|destruct files];
      (destruct Hok as [Hnone|(id & Hone & Href & Hid)];
       [left; exact Hnone | right; exists id; auto]).
Qed.

Lemma chatRun_timersOk (es : list (bool * ChatEvent)) (c : Chat) :
  timersOk c -> timersOk (chatRun trim es c).
Proof.
  revert c. induction es as [|[d e] es IH]; intros c Hok; simpl;
    [exact Hok|].
  apply IH, chatStep_timersOk, Hok.
Qed.

(** X19.  Whatever the user does in the composer, and whether it is
    enabled or not, at most one typing timer is armed at any time, and it
    is the one [typingTimeoutRef] names: every keystroke clears the timer
    of the keystroke before it. *)
Theorem one_typing_timer (es : list (bool * ChatEvent)) :
  let c := chatRun trim es initialChat in
  (length (timers c) <= 1)%nat
  /\ forall id, In id (timers c) -> typingTimeoutRef c = Some id.
Proof.
  cbv zeta.
  destruct (chatRun_timersOk es initialChat) as [Hnone|(id & Hone & Hr & _)].
  - left. reflexivity.
  - rewrite Hnone. split; [apply Nat.le_0_l | intros id []].
  - rewrite Hone. split; [apply Nat.le_refl|].
    intros id' [<-|[]]. exact Hr.
Qed.

Lemma keystrokes_arm (values : list string) (c : Chat) :
  timersOk c -> values <> [] ->
  let c' := chatRun trim (keystrokes values) c in
  timersOk c'
  /\ (exists id, timers c' = [id])
  /\ calls c' = calls c ++ repeat (CallTyping true) (length values).
Proof.
  revert c. induction values as [|v values IH]; intros c Hok Hne;
    [contradiction|].
  cbn [keystrokes map chatRun chatStep].
  destruct (keystroke_arms v c Hok) as (Ht & Hr & Hc).
  assert (Hok1 : timersOk (handleInputChange false v c)).
  { right. exists (S (timerSerial c)). auto. }
  destruct values as [|v' values].
  - cbn [map chatRun length repeat]. split; [exact Hok1|].
    split; [eexists; exact Ht | exact Hc].
  - destruct (IH (handleInputChange false v c) Hok1) as (Hok' & Hone & Hcalls);
      [discriminate|].
    split; [exact Hok'|]. split; [exact Hone|].
    fold (keystrokes (v' :: values)). rewrite Hcalls, Hc, <- app_assoc.
    reflexivity.
Qed.

(** X20.  Debounce of the typing signal.  A burst of keystrokes in an
    enabled composer calls [onTyping(true)] once per keystroke and leaves
    exactly one timer armed; when that timer runs, [onTyping(false)] is
    called once, no timer is left, and any timer callback that still
    arrives does nothing: one "stopped typing" per burst, not one per
    keystroke. *)
Theorem typing_debounce (values : list string) (c : Chat) :
  timersOk c -> values <> [] ->
  let c' := chatRun trim (keystrokes values) c in
  calls c' = calls c ++ repeat (CallTyping true) (length values)
  /\ exists id,
      timers c' = [id]
      /\ forall disabled,
          let c'' := chatStep trim disabled (TimerFires id) c' in
          calls c'' = calls c' ++ [CallTyping false]
          /\ timers c'' = []
          /\ forall disabled' id',
              chatStep trim disabled' (TimerFires id') c'' = c''.
Proof.
  intros Hok Hne c'.
  destruct (keystrokes_arm values c Hok Hne) as (_ & (id & Hone) & Hcalls).
  fold c' in Hone, Hcalls.
  split; [exact Hcalls|]. exists id. split; [exact Hone|].
  intros disabled. cbn [chatStep]. unfold onTypingTimeout.
  rewrite Hone. cbn [existsb]. rewrite Nat.eqb_refl. cbn [orb].
  cbn. rewrite Hone. cbn. rewrite Nat.eqb_refl. cbn.
  split; [reflexivity|]. split; [reflexivity|].
  intros disabled' id'. reflexivity.
Qed.

(** X21.  Sending from the composer.  With blank input (nothing left after
    trimming) or a disabled composer, nothing at all happens.  Otherwise
    the text is passed on untrimmed with the reply reference of the
    message being replied to, then [onTyping(false)]; input and reply are
    reset; and no typing timer stays armed, so no "stopped typing" fires
    after the send. *)
Theorem submit_message (disabled : bool) (content : string) (c : Chat) :
  timersOk c ->
  let c' := submitMessage trim disabled content c in
  (truthy (trim content) = false \/ disabled = true -> c' = c)
  /\ (truthy (trim content) = true -> disabled = false ->
      calls c'
      = calls c
        ++ [CallSendMessage content
              (match replyingTo c with
               | Some m => Some (replyContextOf m)
               | None => None
               end);
            CallTyping false]
      /\ inputValue c' = EmptyString /\ replyingTo c' = None
      /\ timers c' = []).
Proof.
  intros Hok c'. subst c'. unfold submitMessage. split.
  - intros [-> | ->]; [reflexivity|]. rewrite andb_false_r. reflexivity.
  - intros -> ->. cbn [andb negb]. cbv zeta.
    set (c4 := call (CallTyping false) _).
    assert (Hok4 : timersOk c4).
    { destruct Hok as [Hnone|(id & Hone & Href & Hid)];
        [left; exact Hnone | right; exists id; auto]. }
    destruct (clearTypingTimeout_disarms c4 Hok4)
      as (Ht & Hc & _ & Hi & Hr).
    rewrite Ht, Hc, Hi, Hr. subst c4. cbn. rewrite <- app_assoc.
    repeat split.
Qed.

End Composer.

Lemma jsSubstring_prefix (CodeUnit : Type) (n : nat) (s : list CodeUnit) :
  jsSubstring 0 n s = firstn n s.
Proof.
  unfold jsSubstring. rewrite Nat.min_0_l, Nat.max_0_l, Nat.sub_0_r.
  reflexivity.
Qed.

(** X22.  The preview in a reply reference, over UTF-16 code units as
    JavaScript's [length] and [substring] count them, for any content: it
    never has more than 53 code units; it is the whole content when that
    has at most 50, and has exactly 53 otherwise; it always starts with
    the first 50 code units of the content.  The reply reference of a
    message carries the id and the sender of the message replied to; for
    a text its content is that preview of the text, for a file it is the
    file name behind the tag [[FILE] ]. *)
Theorem reply_preview (CodeUnit : Type) (dot : CodeUnit)
        (content : list CodeUnit) (m : Message) :
  ((length (previewOf dot content) <= 53)%nat
   /\ ((length content <= 50)%nat -> previewOf dot content = content)
   /\ ((50 < length content)%nat -> length (previewOf dot content) = 53)
   /\ jsSubstring 0 50 (previewOf dot content) = jsSubstring 0 50 content)
  /\ reply_id (replyContextOf m) = msg_id m
  /\ reply_sender (replyContextOf m) = msg_sender m
  /\ (msg_type m = text ->
      list_ascii_of_string (reply_content (replyContextOf m))
      = previewOf "."%char (list_ascii_of_string (msg_content m)))
  /\ (forall meta, msg_type m = file -> msg_file m = Some meta ->
                   reply_content (replyContextOf m)
                   = String.append "[FILE] " (meta_name meta)).
Proof.
  split.
  - unfold previewOf. rewrite !jsSubstring_prefix.
    destruct (50 <? length content)%nat eqn:Hlong.
    + apply Nat.ltb_lt in Hlong.
      assert (Hp : length (firstn 50 content) = 50)
        by (rewrite length_firstn; lia).
      split; [rewrite length_app, Hp; cbn; lia|].
      split; [lia|].
      split.
      * intros _. rewrite length_app, Hp. reflexivity.
      * rewrite firstn_app, Hp, Nat.sub_diag, firstn_O, app_nil_r.
        apply firstn_all2. lia.
    + apply Nat.ltb_ge in Hlong.
      rewrite app_nil_r, (firstn_all2 content Hlong).
      split; [lia|]. split; [reflexivity|].
      split; [lia | apply firstn_all2; exact Hlong].
  - split; [reflexivity|]. split; [reflexivity|]. split.
    + intros Ht. unfold replyContextOf. rewrite Ht. cbn [reply_content].
      apply list_ascii_of_string_of_list_ascii.
    + intros meta Ht Hf. unfold replyContextOf. rewrite Ht, Hf. reflexivity.
Qed.

(** A text of forty code units, each of them three bytes in UTF-8, is
    kept whole. *)
Lemma reply_preview_witness :
  (length cjkText <= 50)%nat /\ previewOf 46%N cjkText = cjkText.
Proof.
  assert (Hshort : (length cjkText <= 50)%nat) by (vm_compute; lia).
  destruct (reply_preview N 46%N cjkText aliceFileMessage)
    as ((_ & H & _) & _).
  exact (conj Hshort (H Hshort)).
Defined.

Lemma chatTyping_timersOk : timersOk chatTyping.
Proof. right. exists 1. repeat split. discriminate. Qed.

Lemma typing_debounce_witness :
  timersOk chatTyping
  /\ ["ok"; "oka"; "okay"] <> []
  /\ calls (chatRun trimSpaces (keystrokes ["ok"; "oka"; "okay"]) chatTyping)
     = calls chatTyping ++ repeat (CallTyping true) 3.
Proof.
  assert (H : ["ok"; "oka"; "okay"] <> []) by discriminate.
  destruct (typing_debounce trimSpaces ["ok"; "oka"; "okay"] chatTyping
                            chatTyping_timersOk H) as [Hc _].
  exact (conj chatTyping_timersOk (conj H Hc)).
Defined.

Lemma submit_message_witness :
  timersOk chatTyping
  /\ truthy (trimSpaces " okay ") = true
  /\ timers (submitMessage trimSpaces false " okay " chatTyping) = [].
Proof.
  destruct (submit_message trimSpaces false " okay " chatTyping
                           chatTyping_timersOk) as [_ H].
  destruct (H eq_refl eq_refl) as (_ & _ & _ & Ht).
  exact (conj chatTyping_timersOk (conj eq_refl Ht)).
Defined.

Section Drag.

Variable trim : string -> string.

Lemma chatRun_app (es es' : list (bool * ChatEvent)) (c : Chat) :
  chatRun trim (es ++ es') c = chatRun trim es' (chatRun trim es c).
Proof.
  revert c. induction es as [|[d e] es IH]; intros c; simpl;
    [reflexivity | apply IH].
Qed.

Lemma drag_counts (es : list ChatEvent) (c : Chat) :
  forallb isEnterLeave es = true ->
  dragCounter (chatRun trim (map (pair false) es) c)
  = (dragCounter c + dragBalance es)%Z.
Proof.
  revert c. induction es as [|e es IH]; intros c Hes;
    cbn [map chatRun dragBalance].
  - lia.
  - cbn [forallb] in Hes. apply andb_true_iff in Hes as [He Hes].
    destruct e; try discriminate He; rewrite (IH _ Hes);
      cbn [chatStep dragBalance].
    + unfold handleDragEnter. cbn [negb]. cbv zeta.
      destruct hasItems; cbn [dragCounter set_isDragging set_dragCounter];
        lia.
    + unfold handleDragLeave. cbn [negb]. cbv zeta.
      destruct (Z.eqb _ 0);
        cbn [dragCounter set_isDragging set_dragCounter]; lia.
Qed.

Lemma drag_disabled (es : list ChatEvent) (c : Chat) :
  forallb isEnterLeave es = true ->
  chatRun trim (map (pair true) es) c = c.
Proof.
  induction es as [|e es IH]; intros Hes; simpl; [reflexivity|].
  simpl in Hes. apply andb_true_iff in Hes as [He Hes].
  destruct e; try discriminate He; cbn [chatStep];
    [unfold handleDragEnter | unfold handleDragLeave]; cbn [negb];
    apply IH, Hes.
Qed.

(** X23.  The drop overlay.  In an enabled composer the drag counter after
    any sequence of drag enters and leaves is the counter before plus the
    enters minus the leaves, and a leave that brings it to zero hides the
    overlay; in a disabled composer enters and leaves change nothing.  A
    drop always hides the overlay and resets the counter; it hands the
    first dropped file to [onSendFile] when the composer is enabled and
    no file when it is disabled or nothing was dropped. *)
Theorem drag_overlay (es : list ChatEvent) (c : Chat) :
  forallb isEnterLeave es = true ->
  dragCounter (chatRun trim (map (pair false) es) c)
  = (dragCounter c + dragBalance es)%Z
  /\ (let c' := chatRun trim (map (pair false) (es ++ [DragLeave])) c in
      dragCounter c' = 0%Z -> isDragging c' = false)
  /\ chatRun trim (map (pair true) es) c = c
  /\ (forall disabled files,
         let c' := handleDrop disabled files c in
         isDragging c' = false /\ dragCounter c' = 0%Z
         /\ calls c'
            = calls c
              ++ match disabled, files with
                 | false, f :: _ => [CallSendFile f]
                 | _, _ => []
                 end).
Proof.
  intros Hes. split; [apply drag_counts, Hes|].
  split; [|split; [apply drag_disabled, Hes|]].
  - cbv zeta. rewrite map_app, chatRun_app.
    cbn [map chatRun chatStep]. unfold handleDragLeave. cbn [negb].
    cbv zeta.
    destruct (Z.eqb (dragCounter (set_dragCounter _ _)) 0) eqn:Hz.
    + intros _. reflexivity.
    + cbn [dragCounter set_dragCounter] in *. intros H0.
      apply Z.eqb_neq in Hz. contradiction.
  - intros disabled files. unfold handleDrop. cbv zeta.
    destruct disabled; [|destruct files]; cbn; rewrite ?app_nil_r;
      repeat split.
Qed.

End Drag.

Lemma drag_overlay_witness :
  forallb isEnterLeave [DragEnter true; DragEnter false; DragLeave] = true
  /\ isDragging
       (chatRun trimSpaces
                (map (pair false)
                     ([DragEnter true; DragEnter false; DragLeave]
                        ++ [DragLeave])) initialChat)
     = false.
Proof.
  destruct (drag_overlay trimSpaces
              [DragEnter true; DragEnter false; DragLeave] initialChat
              eq_refl) as (_ & H & _).
  exact (conj eq_refl (H eq_refl)).
Defined.
